(** * ldsc / munge_sumstats: column resolution and the chunked filter pipeline

    A shallow embedding of [src/ldsc/munge_sumstats/munge_sumstats.py].

    Modelling conventions.
    - A Python [str] is a [string] of 8-bit characters; [str.upper] acts on the
      ASCII letters [a]..[z] and leaves every other character alone.
    - A float64 is a [num]: its rational value, an infinity or NaN; the sign
      of zero is not represented.  Comparisons, negation, minimum, maximum
      and NaN propagation are exact on floats and are taken on the value.
      The arithmetic of the sample-size rescaling ([case_control_n]) rounds
      to binary64 as IEEE 754 does, with the operations of the Standard
      Library's [SpecFloat].
    - A pandas DataFrame is a [frame]: column labels with their dtypes and the
      rows as lists of cells.  NaN is pandas' missing-value marker in numeric
      and object columns alike.
    - A Python dict that is only looked up is a [gmap]; a dict that is
      iterated ([cname_translation]) is an insertion-ordered association
      list.
    - [raise] is an [Err] result; the chunk loop threads its counters
      explicitly. *)

From Stdlib Require Import Ascii String QArith Qcanon.
From Stdlib Require SpecFloat.
From stdpp Require Import gmap strings list sorting.

Open Scope string_scope.

(** ** Strings *)

Module Str.

Fixpoint map (f : ascii -> ascii) (s : string) : string :=
  match s with
  | EmptyString => EmptyString
  | String c s' => String (f c) (map f s')
  end.

Fixpoint remove (x : ascii) (s : string) : string :=
  match s with
  | EmptyString => EmptyString
  | String c s' => if Ascii.eqb c x then remove x s' else String c (remove x s')
  end.

Definition is_lower (c : ascii) : bool :=
  let n := nat_of_ascii c in (97 <=? n)%nat && (n <=? 122)%nat.

Definition upper_char (c : ascii) : ascii :=
  if is_lower c then ascii_of_nat (nat_of_ascii c - 32) else c.

(** [str.upper()] *)
Definition upper (s : string) : string := map upper_char s.

(** [str.replace(x, y)] for one-character [x] and [y] *)
Definition replace (x y : ascii) (s : string) : string :=
  map (fun c => if Ascii.eqb c x then y else c) s.

End Str.

(** [clean_header], lines 161-169:
    [header.upper().replace("-", "_").replace(".", "_").replace("\n", "")] *)
Definition clean_header (header : string) : string :=
  Str.remove "010"%char
    (Str.replace "."%char "_"%char
       (Str.replace "-"%char "_"%char (Str.upper header))).

(** What [clean_header] makes of one character; [None] for a newline. *)
Definition clean_char (c : ascii) : option ascii :=
  let u := Str.upper_char c in
  let u := if Ascii.eqb u "-" then "_"%char else u in
  let u := if Ascii.eqb u "." then "_"%char else u in
  if Ascii.eqb u "010" then None else Some u.

(** Characters that [clean_header] leaves in place. *)
Definition canonical_char (c : ascii) : bool :=
  negb (Str.is_lower c) && negb (Ascii.eqb c "-") && negb (Ascii.eqb c ".")
  && negb (Ascii.eqb c "010").

Fixpoint canonical (s : string) : bool :=
  match s with
  | EmptyString => true
  | String c s' => canonical_char c && canonical s'
  end.


(** ** Numbers: a float64 by its value, a rational, an infinity or NaN *)

Inductive num : Type :=
| Fin (q : Qc)
| PInf
| NInf
| NaN.

#[global] Instance num_eq_dec : EqDecision num.
Proof. solve_decision. Defined.

Module Num.

Definition of_Z (z : Z) : num := Fin (Qc_of_Z z).

(** the rational [n / d] *)
Definition frac (n : Z) (d : positive) : num := Fin (Q2Qc (n # d)).

Definition zero : num := of_Z 0.
Definition one : num := of_Z 1.

Definition is_nan (x : num) : bool :=
  match x with NaN => true | _ => false end.

Definition neg (x : num) : num :=
  match x with
  | Fin q => Fin (- q)%Qc
  | PInf => NInf
  | NInf => PInf
  | NaN => NaN
  end.

Definition add (x y : num) : num :=
  match x, y with
  | NaN, _ | _, NaN => NaN
  | Fin a, Fin b => Fin (a + b)%Qc
  | PInf, NInf | NInf, PInf => NaN
  | PInf, _ | _, PInf => PInf
  | NInf, _ | _, NInf => NInf
  end.

Definition sub (x y : num) : num := add x (neg y).

(** an infinity of the sign of [s * a]; [0 * inf] is NaN *)
Definition scale_inf (positive_inf : bool) (a : Qc) : num :=
  match (a ?= 0)%Qc with
  | Eq => NaN
  | Gt => if positive_inf then PInf else NInf
  | Lt => if positive_inf then NInf else PInf
  end.

Definition mul (x y : num) : num :=
  match x, y with
  | NaN, _ | _, NaN => NaN
  | Fin a, Fin b => Fin (a * b)%Qc
  | Fin a, PInf | PInf, Fin a => scale_inf true a
  | Fin a, NInf | NInf, Fin a => scale_inf false a
  | PInf, PInf | NInf, NInf => PInf
  | PInf, NInf | NInf, PInf => NInf
  end.

Definition div (x y : num) : num :=
  match x, y with
  | NaN, _ | _, NaN => NaN
  | Fin a, Fin b =>
      match (b ?= 0)%Qc with
      | Eq => match (a ?= 0)%Qc with Eq => NaN | Gt => PInf | Lt => NInf end
      | _ => Fin (a / b)%Qc
      end
  | Fin _, _ => zero
  | PInf, Fin b => match (b ?= 0)%Qc with Lt => NInf | _ => PInf end
  | NInf, Fin b => match (b ?= 0)%Qc with Lt => PInf | _ => NInf end
  | _, _ => NaN
  end.

(** [x < y]; false as soon as one side is NaN *)
Definition lt (x y : num) : bool :=
  match x, y with
  | NaN, _ | _, NaN => false
  | Fin a, Fin b => match (a ?= b)%Qc with Lt => true | _ => false end
  | NInf, NInf => false
  | NInf, _ => true
  | _, NInf => false
  | PInf, _ => false
  | Fin _, PInf => true
  end.

(** [x == y] *)
Definition eq (x y : num) : bool :=
  match x, y with
  | NaN, _ | _, NaN => false
  | Fin a, Fin b => match (a ?= b)%Qc with Eq => true | _ => false end
  | PInf, PInf | NInf, NInf => true
  | _, _ => false
  end.

(** [x <= y] *)
Definition le (x y : num) : bool := lt x y || eq x y.

(** [np.minimum]: NaN if either side is NaN *)
Definition minimum (x y : num) : num :=
  match x, y with
  | NaN, _ | _, NaN => NaN
  | _, _ => if lt y x then y else x
  end.

(** [np.maximum] on values that are not NaN *)
Definition maximum (x y : num) : num := if lt x y then y else x.

(** Python truthiness of a float: everything but zero *)
Definition truthy (x : num) : bool := negb (bool_decide (x = zero)).

(** *** binary64 arithmetic *)

(** the binary64 float of a value: numerator and denominator are rounded
    and divided, which is exact on the value of a float *)
Definition to_b64 (x : num) : SpecFloat.spec_float :=
  match x with
  | Fin q =>
      SpecFloat.SFdiv 53 1024
        (SpecFloat.binary_normalize 53 1024 (Qnum q) 0 false)
        (SpecFloat.binary_normalize 53 1024 (Zpos (Qden q)) 0 false)
  | PInf => SpecFloat.S754_infinity false
  | NInf => SpecFloat.S754_infinity true
  | NaN => SpecFloat.S754_nan
  end.

(** the value [m * 2 ^ e] *)
Definition scale2 (m e : Z) : Qc :=
  match e with
  | Zneg p => Q2Qc (m # Pos.pow 2 p)
  | _ => Qc_of_Z (m * 2 ^ e)
  end.

(** the value of a binary64 float *)
Definition of_b64 (f : SpecFloat.spec_float) : num :=
  match f with
  | SpecFloat.S754_zero _ => zero
  | SpecFloat.S754_infinity false => PInf
  | SpecFloat.S754_infinity true => NInf
  | SpecFloat.S754_nan => NaN
  | SpecFloat.S754_finite s m e => Fin (scale2 (if s then Zneg m else Zpos m) e)
  end.

(** [x + y], [x * y] and [x / y] in binary64, rounded to nearest even *)
Definition add64 (x y : num) : num :=
  of_b64 (SpecFloat.SFadd 53 1024 (to_b64 x) (to_b64 y)).

Definition mul64 (x y : num) : num :=
  of_b64 (SpecFloat.SFmul 53 1024 (to_b64 x) (to_b64 y)).

Definition div64 (x y : num) : num :=
  of_b64 (SpecFloat.SFdiv 53 1024 (to_b64 x) (to_b64 y)).

End Num.

(** ** Cells and frames *)

(** One value of a DataFrame.  A missing value is [Num NaN]. *)
Inductive cell : Type :=
| Txt (s : string)
| Num (x : num).

#[global] Instance cell_eq_dec : EqDecision cell.
Proof. solve_decision. Defined.

Definition NA : cell := Num NaN.

(** [notnull] / [isnull] *)
Definition isnull (c : cell) : bool :=
  match c with Num NaN => true | _ => false end.

Definition notnull (c : cell) : bool := negb (isnull c).

(** The float behind a cell of a numeric column.  The type check of
    [parse_dat] rejects every numeric field whose column holds strings, so
    the first case is never reached from there. *)
Definition to_num (c : cell) : num :=
  match c with Txt _ => NaN | Num x => x end.

Inductive dtype : Type := DObject | DNumber.

#[global] Instance dtype_eq_dec : EqDecision dtype.
Proof. solve_decision. Defined.

Abbreviation row := (list cell).

Record frame : Type := Frame {
  columns : list (string * dtype);
  rows : list row
}.

#[global] Instance frame_eq_dec : EqDecision frame.
Proof. solve_decision. Defined.

Definition labels (cs : list (string * dtype)) : list string := cs.*1.

(** position of the first column labelled [c] *)
Fixpoint col_index (c : string) (cs : list (string * dtype)) : option nat :=
  match cs with
  | [] => None
  | (l, _) :: cs' => if decide (l = c) then Some 0%nat else S <$> col_index c cs'
  end.

(** [row[c]], NaN when the column or the cell is absent *)
Definition get (cs : list (string * dtype)) (c : string) (r : row) : cell :=
  match col_index c cs with
  | Some i => default NA (r !! i)
  | None => NA
  end.

(** [dat[c]] as a Series *)
Definition col (c : string) (dat : frame) : list cell :=
  get (columns dat) c <$> rows dat.

(** [len(dat)] *)
Definition len (dat : frame) : Z := Z.of_nat (length (rows dat)).

(** [ii.sum()] of a boolean mask *)
Definition msum (ii : list bool) : Z := Z.of_nat (length (filter (fun b => b = true) ii)).

(** [x[ii]]: the entries of [x] at which the mask is true *)
Fixpoint select {A : Type} (ii : list bool) (x : list A) : list A :=
  match ii, x with
  | b :: ii', a :: x' => if b then a :: select ii' x' else select ii' x'
  | _, _ => []
  end.

(** [dat[ii].reset_index(drop=True)] *)
Definition take_rows (ii : list bool) (dat : frame) : frame :=
  Frame (columns dat) (select ii (rows dat)).

(** [ii & jj] *)
Definition mand (ii jj : list bool) : list bool := zip_with andb ii jj.

(** [ii | jj] *)
Definition mor (ii jj : list bool) : list bool := zip_with orb ii jj.

(** [~ii] *)
Definition mnot (ii : list bool) : list bool := negb <$> ii.

(** [np.array([True for i in range(len(dat))])] *)
Definition all_true (dat : frame) : list bool := (fun _ => true) <$> rows dat.

(** the cells of [r] whose column label satisfies [p] *)
Fixpoint cells_where (p : string -> bool) (cs : list (string * dtype)) (r : row) : row :=
  match cs, r with
  | (l, _) :: cs', x :: r' =>
      if p l then x :: cells_where p cs' r' else cells_where p cs' r'
  | _, _ => []
  end.

(** [dat.dropna(axis=0, how="any", subset=[x for x in dat.columns if p x])] *)
Definition dropna (p : string -> bool) (dat : frame) : frame :=
  Frame (columns dat)
        (filter (fun r => forallb notnull (cells_where p (columns dat) r) = true) (rows dat)).

Definition not_among (cs : list string) (l : string) : bool :=
  bool_decide (l ∉ cs).

(** [dat.drop(cs, axis=1)] for labels [cs] that are all present *)
Definition drop_columns (cs : list string) (dat : frame) : frame :=
  Frame (filter (fun c => not_among cs c.1 = true) (columns dat))
        (cells_where (not_among cs) (columns dat) <$> rows dat).

(** [row[c] = f(row[c])] on the first column labelled [c] *)
Definition update (cs : list (string * dtype)) (c : string) (f : cell -> cell) (r : row) : row :=
  match col_index c cs with
  | Some i => alter f i r
  | None => r
  end.

(** ** Errors *)

Inductive error : Type :=
| KeyError (k : string)
| AttributeError (a : string)
| NotASeries (c : string)
  (** a label carried by several columns where the code needs one Series *)
| ExpectedNumeric (wrong_types : list string)
  (** "Columns ... are expected to be numeric" *)
| NoObjectsToConcatenate
  (** the [ValueError] of [pd.concat] on an empty list *)
| NoSNPsRemain
  (** "After applying filters, no SNPs remain." *)
| TooManySignedSumstats
  (** "Too many signed sumstat columns. ..." *)
| NoSignedSumstat
  (** "Could not find a signed summary statistic column." *)
| CannotDetermineN
  (** "Cannot determine N. This message indicates a bug. ..." *)
| AllAllelesMismatch
  (** "All SNPs have alleles that do not match --merge-alleles." *).

Inductive result (A : Type) : Type :=
| Ok (a : A)
| Err (e : error).
Arguments Ok {A} a.
Arguments Err {A} e.

#[global] Instance error_eq_dec : EqDecision error.
Proof. solve_decision. Defined.

#[global] Instance result_eq_dec {A : Type} `{EqDecision A} : EqDecision (result A).
Proof. solve_decision. Defined.

#[global] Instance result_bind : MBind result := fun A B k m =>
  match m with
  | Ok a => k a
  | Err e => Err e
  end.

(** ** Configuration *)

(** The fields of [args] that the modelled functions read. *)
Record args : Type := Args {
  merge_alleles : bool;      (** [--merge-alleles] names a panel file *)
  info_min : num;
  maf_min : num;
  keep_maf : bool;
  no_alleles : bool;
  n_min : option num;
  nstudy_min : option num;
  N_fixed : option num;      (** [args.N] *)
  N_cas : option num;
  N_con : option num
}.

(** truthiness of an optional float flag: set and not zero *)
Definition flag_set (x : option num) : bool :=
  match x with
  | Some v => Num.truthy v
  | None => false
  end.

(** [numeric_cols], lines 116-129 *)
Definition numeric_cols : list string :=
  ["P"; "N"; "N_CAS"; "N_CON"; "Z"; "OR"; "BETA"; "LOG_ODDS"; "INFO"; "FRQ";
   "SIGNED_SUMSTAT"; "NSTUDY"].

(** ** Row filters, lines 172-225 *)

(** What indexing or attribute access returns. *)
Inductive pd_obj : Type :=
| Series (s : list cell)
| DataFrame (d : frame).

(** [dat[c]] for a label that is present: a Series for one column, a
    DataFrame for several *)
Definition getitem (c : string) (dat : frame) : pd_obj :=
  let same := fun l => bool_decide (l = c) in
  if decide (length (filter (fun l => l = c) (labels (columns dat))) = 1%nat)
  then Series (col c dat)
  else DataFrame (Frame (filter (fun x => x.1 = c) (columns dat))
                        (cells_where same (columns dat) <$> rows dat)).

(** [dat.c] where the code goes on with a Series *)
Definition attr (c : string) (dat : frame) : result (list cell) :=
  if decide (c ∈ labels (columns dat))
  then match getitem c dat with
       | Series s => Ok s
       | DataFrame _ => Err (NotASeries c)
       end
  else Err (AttributeError c).

(** [filter_pvals]: [(P > 0) & (P <= 1)] *)
Definition filter_pvals (P : list cell) : list bool :=
  mand ((fun p => Num.lt Num.zero (to_num p)) <$> P)
       ((fun p => Num.le (to_num p) Num.one) <$> P).

(** [DataFrame.sum(axis=1)]: NaN cells are skipped *)
Definition row_sum (r : row) : num :=
  foldr (fun c acc => if isnull c then acc else Num.add (to_num c) acc) Num.zero r.

(** [filter_info]; the count of out-of-bounds values is only logged *)
Definition filter_info (info : pd_obj) (a : args) : list bool :=
  match info with
  | Series s => (fun x => Num.le (info_min a) (to_num x)) <$> s
  | DataFrame d =>
      (fun r => Num.le (Num.mul (info_min a) (Num.of_Z (Z.of_nat (length (columns d)))))
                       (row_sum r)) <$> rows d
  end.

(** [filter_frq]: the folded frequency is a local value; the function
    returns the mask [ii & ~jj] *)
Definition filter_frq (frq : list cell) (a : args) : list bool :=
  let jj := mor ((fun x => Num.lt (to_num x) Num.zero) <$> frq)
                ((fun x => Num.lt Num.one (to_num x)) <$> frq) in
  let frq := (fun x => Num.minimum (to_num x) (Num.sub Num.one (to_num x))) <$> frq in
  let ii := (fun x => Num.lt (maf_min a) x) <$> frq in
  mand ii (mnot jj).

(** [Series.isin(values)] *)
Definition isin (s values : list cell) : list bool :=
  (fun x => bool_decide (x ∈ values)) <$> s.

(** [Series.str.upper()] on an object column: NaN for what is not a string *)
Definition str_upper (c : cell) : cell :=
  match c with
  | Txt s => Txt (Str.upper s)
  | Num _ => NA
  end.

(** [x + y] on object columns: concatenation, NaN where either side is null *)
Definition cell_add (x y : cell) : cell :=
  match x, y with
  | Txt s, Txt t => Txt (s ++ t)
  | _, _ => NA
  end.

(** membership of a cell in a collection of strings *)
Definition in_strings (strs : list string) (c : cell) : bool :=
  match c with
  | Txt s => bool_decide (s ∈ strs)
  | Num _ => false
  end.

(** [filter_alleles]: [a.isin(sumstats.VALID_SNPS)].  The table
    [VALID_SNPS] of [ldsc.ldscore.sumstats] is a parameter. *)
Definition filter_alleles (VALID_SNPS : list string) (a : list cell) : list bool :=
  in_strings VALID_SNPS <$> a.

(** ** Insertion-ordered dicts *)

Abbreviation odict := (list (string * string)).

Fixpoint od_get (k : string) (d : odict) : option string :=
  match d with
  | [] => None
  | (k', v) :: d' => if decide (k' = k) then Some v else od_get k d'
  end.

(** [d[k] = v]: an existing key keeps its position *)
Fixpoint od_set (k v : string) (d : odict) : odict :=
  match d with
  | [] => [(k, v)]
  | (k', v') :: d' => if decide (k' = k) then (k, v) :: d' else (k', v') :: od_set k v d'
  end.

Definition od_keys (d : odict) : list string := d.*1.

(** ** The chunked filter pass, [parse_dat], lines 228-318 *)

(** [drops[k] += x] *)
Definition incr (k : string) (x : Z) (drops : gmap string Z) : gmap string Z :=
  <[k := (drops !!! k + x)%Z]> drops.

Definition drops0 : gmap string Z :=
  list_to_map [("NA", 0%Z); ("P", 0%Z); ("INFO", 0%Z); ("FRQ", 0%Z); ("A", 0%Z);
               ("SNP", 0%Z); ("MERGE", 0%Z)].

(** [dat.columns = [convert_colname[x] for x in dat.columns]] *)
Fixpoint rename_columns (convert_colname : odict) (cs : list (string * dtype))
  : result (list (string * dtype)) :=
  match cs with
  | [] => Ok []
  | (l, t) :: cs' =>
      match od_get l convert_colname with
      | Some l' => cs'' ← rename_columns convert_colname cs'; Ok ((l', t) :: cs'')
      | None => Err (KeyError l)
      end
  end.

(** lines 247-251 *)
Definition wrong_types (dat : frame) : list string :=
  (filter (fun c => c.1 ∈ numeric_cols ∧ c.2 ≠ DNumber) (columns dat)).*1.

(** [dat[c].dtype] exists when [dat[c]] is a Series: the comprehension of
    lines 247-251 fails with an [AttributeError] on a numeric label that
    several columns carry *)
Definition numeric_labels_unique (dat : frame) : Prop :=
  NoDup (filter (fun l => l ∈ numeric_cols) (labels (columns dat))).

(** [dat.c = dat.c.str.upper()]; the [.str] accessor needs an object column *)
Definition upper_column (c : string) (dat : frame) : result frame :=
  if decide (c ∈ labels (columns dat))
  then if decide ((c, DNumber) ∈ columns dat)
       then Err (AttributeError "str")
       else Ok (Frame (columns dat) (update (columns dat) c str_upper <$> rows dat))
  else Err (AttributeError c).

(** Lines 266-271: the INFO filter narrows the mask [ii]. *)
Definition info_step (a : args) (dat : frame) (st : gmap string Z * list bool)
  : gmap string Z * list bool :=
  let '(drops, ii) := st in
  if decide ("INFO" ∈ labels (columns dat)) then
    let old := msum ii in
    let ii := mand ii (filter_info (getitem "INFO" dat) a) in
    let new := msum ii in
    (incr "INFO" (old - new) drops, ii)
  else (drops, ii).

(** Lines 273-278: the FRQ filter.  [filter_frq] tests the truth value of
    [jj.sum()], which fails when [dat["FRQ"]] is a DataFrame. *)
Definition frq_step (a : args) (dat : frame) (st : gmap string Z * list bool)
  : result (gmap string Z * list bool) :=
  let '(drops, ii) := st in
  if decide ("FRQ" ∈ labels (columns dat)) then
    let old := msum ii in
    match getitem "FRQ" dat with
    | Series frq =>
        let ii := mand ii (filter_frq frq a) in
        let new := msum ii in
        Ok (incr "FRQ" (old - new) drops, ii)
    | DataFrame _ => Err (NotASeries "FRQ")
    end
  else Ok (drops, ii).

(** Lines 281-286: INFO, and FRQ unless [--keep-maf], leave the frame. *)
Definition drop_info_frq (a : args) (dat : frame) : frame :=
  drop_columns
    (filter (fun x => x ∈ labels (columns dat))
            (if keep_maf a then ["INFO"] else ["INFO"; "FRQ"])) dat.

(** Lines 280 and 287-290: the P-value filter. *)
Definition pval_step (dat : frame) (st : gmap string Z * list bool)
  : result (gmap string Z * list bool) :=
  let '(drops, ii) := st in
  let old := msum ii in
  P ← attr "P" dat;
  let ii := mand ii (filter_pvals P) in
  let new := msum ii in
  Ok (incr "P" (old - new) drops, ii).

(** Lines 291-297: the alleles are upper-cased in the frame, then filtered. *)
Definition allele_step (VALID_SNPS : list string) (a : args) (dat : frame)
    (st : gmap string Z * list bool) : result (gmap string Z * list bool * frame) :=
  let '(drops, ii) := st in
  let old := msum ii in
  if no_alleles a then Ok (drops, ii, dat)
  else
    dat ← upper_column "A1" dat;
    dat ← upper_column "A2" dat;
    A1 ← attr "A1" dat;
    A2 ← attr "A2" dat;
    let ii := mand ii (filter_alleles VALID_SNPS (zip_with cell_add A1 A2)) in
    let new := msum ii in
    Ok (incr "A" (old - new) drops, ii, dat).

(** Lines 266-302: the INFO, FRQ, P and allele filters on one chunk.
    [None] is the [continue] of a chunk without surviving rows. *)
Definition filter_chunk (VALID_SNPS : list string) (a : args)
    (drops : gmap string Z) (dat : frame) : result (gmap string Z * option frame) :=
  let ii := all_true dat in
  let st := info_step a dat (drops, ii) in
  st ← frq_step a dat st;
  let dat := drop_info_frq a dat in
  st ← pval_step dat st;
  st ← allele_step VALID_SNPS a dat st;
  let '(drops, ii, dat) := st in
  if decide (msum ii = 0%Z) then Ok (drops, None)
  else Ok (drops, Some (take_rows ii dat)).

(** Lines 241-243: the NA filter.  The labels of [dat] are still the raw
    headers of the file here; they are translated on line 245. *)
Definition na_filter (dat : frame) : frame :=
  dropna (fun x => bool_decide (x ≠ "INFO")) dat.

(** Lines 239-264 followed by [filter_chunk]: the body of the chunk loop.
    [alleles] is the reference panel, one [(SNP, MA)] pair per row. *)
Definition parse_chunk (VALID_SNPS : list string) (convert_colname : odict)
    (alleles : list (cell * cell)) (a : args)
    (drops : gmap string Z) (dat : frame) : result (gmap string Z * option frame) :=
  let old := len dat in
  let dat := na_filter dat in
  let drops := incr "NA" (old - len dat) drops in
  cs ← rename_columns convert_colname (columns dat);
  let dat := Frame cs (rows dat) in
  if decide (numeric_labels_unique dat) then
  if decide (wrong_types dat = []) then
    let ii := all_true dat in
    if merge_alleles a then
      let old := msum ii in
      SNP ← attr "SNP" dat;
      let ii := isin SNP alleles.*1 in
      let drops := incr "MERGE" (old - msum ii) drops in
      if decide (msum ii = 0%Z) then Ok (drops, None)
      else filter_chunk VALID_SNPS a drops (take_rows ii dat)
    else filter_chunk VALID_SNPS a drops dat
  else Err (ExpectedNumeric (wrong_types dat))
  else Err (AttributeError "dtype").

(** dtype of a column of [pd.concat]: numeric when every part is *)
Definition join_dtype (t u : dtype) : dtype :=
  match t, u with
  | DNumber, DNumber => DNumber
  | _, _ => DObject
  end.

(** [pd.concat(dat_list, axis=0).reset_index(drop=True)] for frames with the
    same column labels, as the chunks of one file are *)
Definition pd_concat (dat_list : list frame) : result frame :=
  match dat_list with
  | [] => Err NoObjectsToConcatenate
  | d :: ds =>
      Ok (Frame (foldl (fun cs d' =>
                          zip_with (fun c c' => (c.1, join_dtype c.2 c'.2)) cs (columns d'))
                       (columns d) ds)
                (concat (rows <$> dat_list)))
  end.

(** The state of the chunk loop. *)
Record loop_state : Type := LoopState {
  tot_snps : Z;
  dat_list : list frame;
  drops : gmap string Z
}.

#[global] Instance loop_state_eq_dec : EqDecision loop_state.
Proof. solve_decision. Defined.

Definition parse_loop (VALID_SNPS : list string) (convert_colname : odict)
    (alleles : list (cell * cell)) (a : args)
  : list frame -> loop_state -> result loop_state :=
  fix go dat_gen st :=
    match dat_gen with
    | [] => Ok st
    | dat :: dat_gen' =>
        step ← parse_chunk VALID_SNPS convert_colname alleles a (drops st) dat;
        let '(drops', kept) := step in
        go dat_gen'
           (LoopState (tot_snps st + len dat)
                      (match kept with
                       | Some d => (dat_list st ++ [d])%list
                       | None => dat_list st
                       end)
                      drops')
    end.

(** [parse_dat]; the counters and the total it logs are returned with the
    table *)
Definition parse_dat (VALID_SNPS : list string) (dat_gen : list frame)
    (convert_colname : odict) (alleles : list (cell * cell)) (a : args)
  : result (frame * loop_state) :=
  st ← parse_loop VALID_SNPS convert_colname alleles a dat_gen (LoopState 0 [] drops0);
  dat ← pd_concat (dat_list st);
  Ok (dat, st).

(** Lines 635-646 of [munge_sumstats]: the filter pass, the emptiness check
    and the removal of duplicated SNPs. *)
Definition duplicated (keys : list cell) : list bool :=
  imap (fun i k => bool_decide (k ∈ take i keys)) keys.

(** [dat.drop_duplicates(subset="SNP")]: pandas keeps the first row of each
    key ([keep="first"] is its default) *)
Definition drop_duplicates (dat : frame) : frame :=
  take_rows (mnot (duplicated (col "SNP" dat))) dat.

Definition read_and_filter (VALID_SNPS : list string) (dat_gen : list frame)
    (convert_colname : odict) (alleles : list (cell * cell)) (a : args)
  : result frame :=
  parsed ← parse_dat VALID_SNPS dat_gen convert_colname alleles a;
  let dat := parsed.1 in
  if decide (len dat = 0%Z) then Err NoSNPsRemain
  else Ok (drop_duplicates dat).

(** ** Sample size, [process_n], lines 321-364 *)

(** the values of a Series that are not NaN *)
Definition dropnan (s : list cell) : list num :=
  filter (fun x => Num.is_nan x = false) (to_num <$> s).

(** [Series.max()]: NaN is skipped, NaN for an empty Series *)
Definition series_max (s : list cell) : num :=
  match dropnan s with
  | [] => NaN
  | x :: xs => foldl Num.maximum x xs
  end.

(** [Series.mean()]: NaN is skipped, NaN for an empty Series; the sum is
    accumulated in binary64 from zero, in the order of the values, and
    divided by their number *)
Definition series_mean (s : list cell) : num :=
  match dropnan s with
  | [] => NaN
  | xs => Num.div64 (foldl Num.add64 Num.zero xs) (Num.of_Z (Z.of_nat (length xs)))
  end.

Definition num_le (x y : num) : Prop := Num.le x y = true.

#[global] Instance num_le_dec : RelDecision num_le.
Proof. intros x y. unfold num_le. apply _. Defined.

(** [Series.quantile(0.9)] with linear interpolation between the two
    neighbouring order statistics; NaN is skipped *)
Definition quantile_09 (s : list cell) : num :=
  let v := merge_sort num_le (dropnan s) in
  match v with
  | [] => NaN
  | _ =>
      let h := (9 * (Z.of_nat (length v) - 1))%Z in
      let lo := Z.to_nat (h / 10) in
      let a := default NaN (v !! lo) in
      let b := default a (v !! S lo) in
      Num.add a (Num.mul (Num.sub b a) (Num.frac (h mod 10) 10))
  end.

(** [dat[c] = s]: an existing column is overwritten, a new one is appended *)
Definition set_column (c : string) (s : list cell) (dat : frame) : frame :=
  match col_index c (columns dat) with
  | Some i =>
      Frame (alter (fun x => (x.1, DNumber)) i (columns dat))
            (zip_with (fun (r : row) x => <[i := x]> r) (rows dat) s)
  | None =>
      Frame (columns dat ++ [(c, DNumber)])%list
            (zip_with (fun (r : row) x => (r ++ [x])%list) (rows dat) s)
  end.

(** Lines 323-327: [N = N_CAS + N_CON], [P = N_CAS / N],
    [dat["N"] = N * P / P[N == N.max()].mean()], each operation rounded to
    binary64 *)
Definition case_control_n (N_CAS N_CON : list cell) : list cell :=
  let N := zip_with (fun x y => Num (Num.add64 (to_num x) (to_num y))) N_CAS N_CON in
  let P := zip_with (fun x y => Num (Num.div64 (to_num x) (to_num y))) N_CAS N in
  let at_max := (fun x => Num.eq (to_num x) (series_max N)) <$> N in
  let P_max := series_mean (select at_max P) in
  zip_with (fun x y => Num (Num.div64 (Num.mul64 (to_num x) (to_num y)) P_max)) N P.

Definition process_n (dat : frame) (a : args) : result frame :=
  dat ←
    (if decide ("N_CAS" ∈ labels (columns dat) ∧ "N_CON" ∈ labels (columns dat)) then
       N_CAS ← attr "N_CAS" dat;
       N_CON ← attr "N_CON" dat;
       Ok (drop_columns ["N_CAS"; "N_CON"]
             (set_column "N" (case_control_n N_CAS N_CON) dat))
     else Ok dat);
  dat ←
    (if decide ("N" ∈ labels (columns dat)) then
       N ← attr "N" dat;
       let n_min :=
         if flag_set (n_min a) then default NaN (n_min a)
         else Num.div (quantile_09 N) (Num.frac 3 2) in
       Ok (take_rows ((fun x => Num.le n_min (to_num x)) <$> N) dat)
     else if decide ("NSTUDY" ∈ labels (columns dat)) then
       NSTUDY ← attr "NSTUDY" dat;
       let nstudy_min :=
         if flag_set (nstudy_min a) then default NaN (nstudy_min a)
         else series_max NSTUDY in
       Ok (drop_columns ["NSTUDY"]
             (take_rows ((fun x => Num.le nstudy_min (to_num x)) <$> NSTUDY) dat))
     else Ok dat);
  if decide ("N" ∈ labels (columns dat)) then Ok dat
  else if flag_set (N_fixed a) then
    Ok (set_column "N" ((fun _ => Num (default NaN (N_fixed a))) <$> rows dat) dat)
  else if flag_set (N_cas a) && flag_set (N_con a) then
    Ok (set_column "N"
          ((fun _ => Num (Num.add (default NaN (N_cas a)) (default NaN (N_con a))))
             <$> rows dat) dat)
  else Err CannotDetermineN.

(** ** Allele reconciliation, [allele_merge], lines 429-456 *)

(** [pd.merge(alleles, dat, how="left", on="SNP", sort=False)]: the panel
    rows in their order, each followed by the cells of the table rows with
    the same SNP, or by NaN when there is none *)
Definition merge_left (alleles : list (cell * cell)) (dat : frame) : frame :=
  let rest := filter (fun c => not_among ["SNP"] c.1 = true) (columns dat) in
  Frame (("SNP", DObject) :: ("MA", DObject) :: rest)
        (concat
           ((fun p : cell * cell =>
               match filter (fun r => get (columns dat) "SNP" r = p.1) (rows dat) with
               | [] => [p.1 :: p.2 :: ((fun _ => NA) <$> rest)]
               | found =>
                   (fun r => p.1 :: p.2 :: cells_where (not_among ["SNP"]) (columns dat) r)
                     <$> found
               end) <$> alleles)).

(** [jj = zeros(len(ii)); jj.loc[ii] = match] *)
Fixpoint scatter (ii : list bool) (m : list bool) : list bool :=
  match ii with
  | [] => []
  | false :: ii' => false :: scatter ii' m
  | true :: ii' =>
      match m with
      | [] => false :: scatter ii' []
      | b :: m' => b :: scatter ii' m'
      end
  end.

(** [dat.loc[~jj, [i for i in dat.columns if i != "SNP"]] = float("nan")] *)
Fixpoint nullify (cs : list (string * dtype)) (r : row) : row :=
  match cs, r with
  | (l, _) :: cs', x :: r' => (if decide (l = "SNP") then x else NA) :: nullify cs' r'
  | _, _ => r
  end.

(** The table [MATCH_ALLELES] of [ldsc.ldscore.sumstats] is a parameter. *)
Definition allele_merge (MATCH_ALLELES : list string) (dat : frame)
    (alleles : list (cell * cell)) : result frame :=
  let dat := merge_left alleles dat in
  A1 ← attr "A1" dat;
  let ii := notnull <$> A1 in
  A2 ← attr "A2" dat;
  MA ← attr "MA" dat;
  let a1234 := zip_with cell_add (zip_with cell_add (select ii A1) (select ii A2))
                        (select ii MA) in
  let match_ := in_strings MATCH_ALLELES <$> a1234 in
  let jj := scatter ii match_ in
  let old := msum ii in
  let n_mismatch := msum (mnot match_) in
  if decide (n_mismatch < old)%Z then
    Ok (drop_columns ["MA"]
          (Frame (columns dat)
                 (zip_with (fun (keep : bool) r => if keep then r else nullify (columns dat) r)
                           jj (rows dat))))
  else Err AllAllelesMismatch.

(** ** Column resolution, lines 23-96, 140-158 and 465-539 *)

Definition null_values : gmap string num :=
  list_to_map [("LOG_ODDS", Num.zero); ("BETA", Num.zero); ("OR", Num.one); ("Z", Num.zero)].

Definition default_cnames : gmap string string :=
  list_to_map
    [("SNP", "SNP"); ("MARKERNAME", "SNP"); ("SNPID", "SNP"); ("RS", "SNP");
     ("RSID", "SNP"); ("RS_NUMBER", "SNP"); ("RS_NUMBERS", "SNP");
     ("NSTUDY", "NSTUDY"); ("N_STUDY", "NSTUDY"); ("NSTUDIES", "NSTUDY");
     ("N_STUDIES", "NSTUDY");
     ("P", "P"); ("PVALUE", "P"); ("P_VALUE", "P"); ("PVAL", "P"); ("P_VAL", "P");
     ("GC_PVALUE", "P");
     ("A1", "A1"); ("ALLELE1", "A1"); ("ALLELE_1", "A1"); ("EFFECT_ALLELE", "A1");
     ("REFERENCE_ALLELE", "A1"); ("INC_ALLELE", "A1"); ("EA", "A1");
     ("A2", "A2"); ("ALLELE2", "A2"); ("ALLELE_2", "A2"); ("OTHER_ALLELE", "A2");
     ("NON_EFFECT_ALLELE", "A2"); ("DEC_ALLELE", "A2"); ("NEA", "A2");
     ("N", "N"); ("NCASE", "N_CAS"); ("CASES_N", "N_CAS"); ("N_CASE", "N_CAS");
     ("N_CASES", "N_CAS"); ("N_CONTROLS", "N_CON"); ("N_CAS", "N_CAS");
     ("N_CON", "N_CON"); ("N_CASE", "N_CAS"); ("NCONTROL", "N_CON");
     ("CONTROLS_N", "N_CON"); ("N_CONTROL", "N_CON"); ("WEIGHT", "N");
     ("ZSCORE", "Z"); ("Z-SCORE", "Z"); ("GC_ZSCORE", "Z"); ("Z", "Z"); ("OR", "OR");
     ("B", "BETA"); ("BETA", "BETA"); ("LOG_ODDS", "LOG_ODDS"); ("EFFECTS", "BETA");
     ("EFFECT", "BETA"); ("SIGNED_SUMSTAT", "SIGNED_SUMSTAT");
     ("INFO", "INFO");
     ("EAF", "FRQ"); ("FRQ", "FRQ"); ("MAF", "FRQ"); ("FRQ_U", "FRQ"); ("F_U", "FRQ")].

(** [get_cname_map(flag, default, ignore)] *)
Definition get_cname_map (flag default : gmap string string) (ignore : list string)
  : gmap string string :=
  let clean_ignore := clean_header <$> ignore in
  let cname_map := filter (fun kv => kv.1 ∉ clean_ignore) flag in
  (* cname_map.update(...): the entries of the argument win *)
  filter (fun kv => kv.1 ∉ (clean_ignore ++ (map_to_list flag).*1)%list) default
    ∪ cname_map.

(** Lines 465-468: [[clean_header(x) for x in args.ignore.split(",")]], on the
    labels between the commas *)
Definition ignore_cnames (ignore : list string) : list string :=
  clean_header <$> ignore.

(** Lines 470-478: with [--signed-sumstats] or [--a1-inc] the defaults lose
    the entries for LOG_ODDS, BETA, Z and OR *)
Definition mod_default_cnames (signed_sumstats_given a1_inc : bool)
  : gmap string string :=
  if signed_sumstats_given || a1_inc
  then filter (fun kv => null_values !! kv.2 = None) default_cnames
  else default_cnames.

(** Lines 516-520: the dict comprehension over the file's header; the keys
    are the raw headers *)
Definition translation_step (cname_map : gmap string string) (d : odict)
    (x : string) : odict :=
  match cname_map !! clean_header x with
  | Some v => od_set x v d
  | None => d
  end.

Definition cname_translation (file_cnames : list string)
    (cname_map : gmap string string) : odict :=
  foldl (translation_step cname_map) [] file_cnames.

(** Lines 524-539: which column carries the sign.  The result is the updated
    translation, [sign_cname] and [signed_sumstat_null]. *)
Definition resolve_signed (signed_sumstats_given a1_inc : bool)
    (translation : odict) (signed_sumstat_null : option num)
  : result (odict * string * option num) :=
  if negb signed_sumstats_given && negb a1_inc then
    let sign_cnames :=
      (filter (fun kv => is_Some (null_values !! kv.2)) translation).*1 in
    if decide (1 < length sign_cnames)%nat then Err TooManySignedSumstats
    else
      match sign_cnames with
      | [] => Err NoSignedSumstat
      | sign_cname :: _ =>
          Ok (od_set sign_cname "SIGNED_SUMSTAT" translation, sign_cname,
              od_get sign_cname translation ≫= (null_values !!.))
      end
  else Ok (translation, "SIGNED_SUMSTATS", signed_sumstat_null).

(** Lines 463-480 and 516-539 for a run without [--daner] and [--daner-n]:
    from the header of the file to the translation handed to the reader. *)
Definition resolve_columns (file_cnames : list string)
    (flag_cnames : gmap string string) (ignore : list string)
    (signed_sumstats_given a1_inc : bool) (signed_sumstat_null : option num)
  : result (odict * string * option num) :=
  let cname_map :=
    get_cname_map flag_cnames (mod_default_cnames signed_sumstats_given a1_inc)
                  (ignore_cnames ignore) in
  resolve_signed signed_sumstats_given a1_inc
                 (cname_translation file_cnames cname_map) signed_sumstat_null.

(** ** The filters read row by row *)

Definition p_keep (p : cell) : bool :=
  Num.lt Num.zero (to_num p) && Num.le (to_num p) Num.one.

Definition info_keep (a : args) (x : cell) : bool :=
  Num.le (info_min a) (to_num x).

Definition frq_keep (a : args) (x : cell) : bool :=
  Num.lt (maf_min a) (Num.minimum (to_num x) (Num.sub Num.one (to_num x)))
  && negb (Num.lt (to_num x) Num.zero || Num.lt Num.one (to_num x)).

Definition alleles_keep (VALID_SNPS : list string) (a1 a2 : cell) : bool :=
  in_strings VALID_SNPS (cell_add (str_upper a1) (str_upper a2)).

(** the conjunction of the masks of [filter_chunk] at one row *)
Definition keep_row (VALID_SNPS : list string) (a : args)
    (cs : list (string * dtype)) (r : row) : bool :=
  (if decide ("INFO" ∈ labels cs) then info_keep a (get cs "INFO" r) else true)
  && (if decide ("FRQ" ∈ labels cs) then frq_keep a (get cs "FRQ" r) else true)
  && p_keep (get cs "P" r)
  && (if no_alleles a then true
      else alleles_keep VALID_SNPS (get cs "A1" r) (get cs "A2" r)).

(** the labels that [filter_chunk] drops *)
Definition dropped_labels (a : args) : list string :=
  if keep_maf a then ["INFO"] else ["INFO"; "FRQ"].

Definition kept_label (a : args) (l : string) : bool :=
  not_among (dropped_labels a) l.

(** the header of the frames that [filter_chunk] appends *)
Definition out_columns (a : args) (cs : list (string * dtype)) : list (string * dtype) :=
  filter (fun c => kept_label a c.1 = true) cs.

(** what [filter_chunk] makes of a surviving row *)
Definition out_row (a : args) (cs : list (string * dtype)) (r : row) : row :=
  let r' := cells_where (kept_label a) cs r in
  if no_alleles a then r'
  else update (out_columns a cs) "A2" str_upper (update (out_columns a cs) "A1" str_upper r').

(** the row has a value in every column but a column labelled "INFO" *)
Definition na_keep (cs : list (string * dtype)) (r : row) : bool :=
  forallb notnull (cells_where (fun x => bool_decide (x ≠ "INFO")) cs r).

(** the row is in the reference panel, when one is configured *)
Definition panel_keep (alleles : list (cell * cell)) (a : args)
    (cs : list (string * dtype)) (r : row) : bool :=
  if merge_alleles a then bool_decide (get cs "SNP" r ∈ alleles.*1) else true.

(** the row survives the body of the chunk loop; [raw] is the header as read
    and [cs] the translated header *)
Definition chunk_keep (VALID_SNPS : list string) (alleles : list (cell * cell))
    (a : args) (raw cs : list (string * dtype)) (r : row) : bool :=
  na_keep raw r && panel_keep alleles a cs r && keep_row VALID_SNPS a cs r.

(** The rows that one chunk contributes to the result. *)
Definition chunk_rows (V : list string) (cc : odict) (alleles : list (cell * cell))
    (a : args) (dat : frame) : list row :=
  match rename_columns cc (columns dat) with
  | Ok cs => out_row a cs <$> filter (fun r => chunk_keep V alleles a (columns dat) cs r = true)
                                     (rows dat)
  | Err _ => []
  end.

(** Every entry of the translation is the resolution of its raw header. *)
Definition translation_ok (cname_map : gmap string string) (d : odict) : Prop :=
  NoDup (od_keys d) /\ forall k v, (k, v) ∈ d -> cname_map !! clean_header k = Some v.

(** every row has one cell per column *)
Definition well_shaped (dat : frame) : Prop :=
  Forall (fun r : row => length r = length (columns dat)) (rows dat).

(** ** The rescaled sample size read row by row *)






(** ** Allele reconciliation read row by row *)

(** the row of the table with the SNP [snp], if there is one *)
Definition table_row (dat : frame) (snp : cell) : option row :=
  head (filter (fun r => get (columns dat) "SNP" r = snp) (rows dat)).

(** the allele-match test of a panel row [(SNP, MA)]: the table has the SNP
    and [A1 + A2 + MA] is in [MATCH_ALLELES] *)
Definition alleles_match (MATCH_ALLELES : list string) (dat : frame)
    (p : cell * cell) : bool :=
  match table_row dat p.1 with
  | Some r =>
      in_strings MATCH_ALLELES
        (cell_add (cell_add (get (columns dat) "A1" r) (get (columns dat) "A2" r)) p.2)
  | None => false
  end.

(** the row of the join for one panel row, when the table has at most one
    row per SNP *)
Definition merged_row (dat : frame) (p : cell * cell) : row :=
  match table_row dat p.1 with
  | Some r => p.1 :: p.2 :: cells_where (not_among ["SNP"]) (columns dat) r
  | None =>
      p.1 :: p.2
      :: ((fun _ => NA) <$> filter (fun c => not_among ["SNP"] c.1 = true) (columns dat))
  end.

(** the header of the join *)
Definition merged_columns (dat : frame) : list (string * dtype) :=
  ("SNP", DObject) :: ("MA", DObject)
  :: filter (fun c => not_among ["SNP"] c.1 = true) (columns dat).

(** the table that reaches [allele_merge]: distinct column labels, among
    them SNP, A1 and A2 and not MA *)
Definition merge_ready (dat : frame) : Prop :=
  NoDup (labels (columns dat)) /\ ("SNP" ∈ labels (columns dat)) /\ 
  ("A1" ∈ labels (columns dat)) /\ ("A2" ∈ labels (columns dat)) /\ 
  ("MA" ∉ labels (columns dat)).

(** ** Clean tables *)

(** Lines 635-648 of [munge_sumstats]: the filter pass, the removal of
    duplicated SNPs and the sample-size step. *)
Definition filter_and_process_n (VALID_SNPS : list string) (dat_gen : list frame)
    (convert_colname : odict) (alleles : list (cell * cell)) (a : args)
  : result frame :=
  dat ← read_and_filter VALID_SNPS dat_gen convert_colname alleles a;
  process_n dat a.

(** A translated header that the filter pass accepts: distinct labels, SNP
    and P, the two allele columns as text unless [--no-alleles], numeric
    fields in numeric columns. *)
Definition clean_columns (a : args) (cs : list (string * dtype)) : Prop :=
  NoDup (labels cs) /\ ("SNP" ∈ labels cs) /\ ("P" ∈ labels cs) /\
  (no_alleles a = false ->
   ("A1" ∈ labels cs) /\ ("A2" ∈ labels cs) /\
   (("A1", DNumber) ∉ cs) /\ (("A2", DNumber) ∉ cs)) /\
  wrong_types (Frame cs []) = [].

(** A row of a cleaned table: no missing value, the SNP in the panel when
    one is configured, INFO at least [info_min], FRQ in [[0, 1]] with a
    minor-allele frequency above [maf_min], P in (0, 1] and a
    strand-unambiguous allele pair. *)
Definition clean_row (VALID_SNPS : list string) (alleles : list (cell * cell))
    (a : args) (cs : list (string * dtype)) (r : row) : Prop :=
  Forall (fun x => notnull x = true) r /\
  panel_keep alleles a cs r = true /\
  keep_row VALID_SNPS a cs r = true.

(** a chunk as [read_csv] hands it over: the header [raw] of the file, at
    least one record, clean rows; [cs] is the translated header *)
Definition clean_chunk (VALID_SNPS : list string) (alleles : list (cell * cell))
    (a : args) (raw cs : list (string * dtype)) (d : frame) : Prop :=
  columns d = raw /\ rows d <> [] /\
  Forall (clean_row VALID_SNPS alleles a cs) (rows d).

(** what the filter pass makes of a chunk when it keeps every row *)
Definition out_frame (a : args) (cs : list (string * dtype)) (d : frame) : frame :=
  Frame (out_columns a cs) (out_row a cs <$> rows d).

(** ** Concrete tables used in the examples *)

(** Modelled from the spec: the table [VALID_SNPS] of [ldsc.ldscore.sumstats]
    is not part of the sources; section 4.4 describes it as the pairs of two
    distinct bases among A, C, G, T without the strand-palindromic pairs
    AT, TA, CG and GC. *)
Definition VALID_SNPS_spec : list string :=
  ["AC"; "AG"; "CA"; "CT"; "GA"; "GT"; "TC"; "TG"].

Definition args0 : args :=
  {| merge_alleles := false;
     info_min := Num.frac 9 10;
     maf_min := Num.frac 1 100;
     keep_maf := false;
     no_alleles := false;
     n_min := None;
     nstudy_min := None;
     N_fixed := None;
     N_cas := None;
     N_con := None |}.

(** The fields that carry a sign: the keys of [null_values]. *)
Definition signed_fields : list string := ["Z"; "OR"; "BETA"; "LOG_ODDS"].

(** The raw header [x] resolves to a signed-statistic field. *)
Definition resolves_signed (cname_map : gmap string string) (x : string) : Prop :=
  exists f, cname_map !! clean_header x = Some f /\ f ∈ signed_fields.

#[global] Instance resolves_signed_dec cname_map x : Decision (resolves_signed cname_map x).
Proof.
  unfold resolves_signed. destruct (cname_map !! clean_header x) as [f|].
  - destruct (decide (f ∈ signed_fields)) as [H|H].
    + left. exists f. split; [reflexivity|exact H].
    + right. intros (f' & [= <-] & H'). exact (H H').
  - right. intros (f' & [=] & _).
Defined.

(** The distinct raw headers of the file that resolve to a signed field. *)
Definition signed_headers (cname_map : gmap string string)
    (file_cnames : list string) : list string :=
  filter (resolves_signed cname_map) (remove_dups file_cnames).

(** [--keep-maf] *)
Definition args_keep_maf : args :=
  {| merge_alleles := false;
     info_min := Num.frac 9 10;
     maf_min := Num.frac 1 100;
     keep_maf := true;
     no_alleles := false;
     n_min := None;
     nstudy_min := None;
     N_fixed := None;
     N_cas := None;
     N_con := None |}.

(** the translation of a header without flags and without an ignore list *)
Definition default_translation (file_cnames : list string) : odict :=
  match resolve_columns file_cnames ∅ [] false false None with
  | Ok (t, _, _) => t
  | Err _ => []
  end.

(** A file [SNP P A1 A2 N BETA info] with two records; the second one lacks
    its [info] value. *)
Definition header_info : list (string * dtype) :=
  [("SNP", DObject); ("P", DNumber); ("A1", DObject); ("A2", DObject);
   ("N", DNumber); ("BETA", DNumber); ("info", DNumber)].

Definition row_info_present : row :=
  [Txt "rs1"; Num (Num.frac 5 100); Txt "A"; Txt "G"; Num (Num.of_Z 1000);
   Num (Num.frac 3 10); Num (Num.frac 95 100)].

Definition row_info_missing : row :=
  [Txt "rs2"; Num (Num.frac 5 100); Txt "A"; Txt "G"; Num (Num.of_Z 1000);
   Num (Num.frac 3 10); NA].

Definition chunk_info : frame := Frame header_info [row_info_present; row_info_missing].

(** The same file with the header [INFO] in capitals. *)
Definition header_INFO : list (string * dtype) :=
  [("SNP", DObject); ("P", DNumber); ("A1", DObject); ("A2", DObject);
   ("N", DNumber); ("BETA", DNumber); ("INFO", DNumber)].

Definition chunk_INFO : frame := Frame header_INFO [row_info_present; row_info_missing].

(** A file [SNP P A1 A2 N BETA] whose only record has the P-value 2. *)
Definition header_plain : list (string * dtype) :=
  [("SNP", DObject); ("P", DNumber); ("A1", DObject); ("A2", DObject);
   ("N", DNumber); ("BETA", DNumber)].

Definition chunk_bad_p : frame :=
  Frame header_plain
        [[Txt "rs1"; Num (Num.of_Z 2); Txt "A"; Txt "G"; Num (Num.of_Z 1000);
          Num (Num.frac 3 10)]].

(** A file [SNP P A1 A2 N BETA FRQ] with one record of frequency 0.8. *)
Definition header_frq : list (string * dtype) :=
  [("SNP", DObject); ("P", DNumber); ("A1", DObject); ("A2", DObject);
   ("N", DNumber); ("BETA", DNumber); ("FRQ", DNumber)].

Definition chunk_frq : frame :=
  Frame header_frq
        [[Txt "rs1"; Num (Num.frac 5 100); Txt "A"; Txt "G"; Num (Num.of_Z 1000);
          Num (Num.frac 3 10); Num (Num.frac 4 5)]].

(** A table with two records of total 1000: 100 cases and 900 controls, 300
    cases and 700 controls. *)
Definition header_cc : list (string * dtype) :=
  [("SNP", DObject); ("N_CAS", DNumber); ("N_CON", DNumber)].

Definition table_cc : frame :=
  Frame header_cc
        [[Txt "rs1"; Num (Num.of_Z 100); Num (Num.of_Z 900)];
         [Txt "rs2"; Num (Num.of_Z 300); Num (Num.of_Z 700)]].




(** Modelled from the spec: the table [MATCH_ALLELES] of
    [ldsc.ldscore.sumstats] is not part of the sources; section 4.7 describes
    it as the concatenations of the table's allele pair and the panel's pair
    that are the same pair or its strand complement, in either order. *)
Definition complement (c : ascii) : ascii :=
  if Ascii.eqb c "A" then "T"%char
  else if Ascii.eqb c "T" then "A"%char
  else if Ascii.eqb c "C" then "G"%char
  else if Ascii.eqb c "G" then "C"%char
  else c.

Definition pair_matches (x y : string) : bool :=
  match x, y with
  | String a (String b EmptyString), String c (String d EmptyString) =>
      (Ascii.eqb a c && Ascii.eqb b d)
      || (Ascii.eqb a (complement c) && Ascii.eqb b (complement d))
      || (Ascii.eqb a d && Ascii.eqb b c)
      || (Ascii.eqb a (complement d) && Ascii.eqb b (complement c))
  | _, _ => false
  end.

Definition MATCH_ALLELES_spec : list string :=
  x ← VALID_SNPS_spec;
  y ← VALID_SNPS_spec;
  if pair_matches x y then [x ++ y] else [].

(** A table of two variants and a panel of three: rs1 has its alleles in the
    other order than the panel, rs2 has other alleles, rs3 is not in the
    table. *)
Definition table_merge : frame :=
  Frame [("SNP", DObject); ("A1", DObject); ("A2", DObject); ("N", DNumber); ("Z", DNumber)]
        [[Txt "rs2"; Txt "A"; Txt "G"; Num (Num.of_Z 1000); Num (Num.frac 3 2)];
         [Txt "rs1"; Txt "G"; Txt "A"; Num (Num.of_Z 1000); Num (Num.frac 5 2)]].

Definition panel_merge : list (cell * cell) :=
  [(Txt "rs1", Txt "AG"); (Txt "rs2", Txt "AC"); (Txt "rs3", Txt "AG")].

(** Three records with N = 100, 126 and 200, and the table of the two
    records that survive a first run. *)
Definition record_n (snp : string) (n : Z) : row :=
  [Txt snp; Num (Num.frac 5 100); Txt "A"; Txt "G"; Num (Num.of_Z n); Num (Num.frac 3 10)].

Definition table_n3 : frame :=
  Frame header_plain [record_n "rs1" 100; record_n "rs2" 126; record_n "rs3" 200].

Definition table_n2 : frame :=
  Frame header_plain [record_n "rs2" 126; record_n "rs3" 200].

Definition header_out : list (string * dtype) :=
  [("SNP", DObject); ("P", DNumber); ("A1", DObject); ("A2", DObject);
   ("N", DNumber); ("SIGNED_SUMSTAT", DNumber)].

(** what [parse_dat] returns for [chunk_frq] under [--keep-maf] *)
Definition parsed_frq : frame * loop_state :=
  match parse_dat VALID_SNPS_spec [chunk_frq]
          (default_translation (labels header_frq)) [] args_keep_maf with
  | Ok x => x
  | Err _ => (Frame [] [], LoopState 0 [] ∅)
  end.

Definition row_frq_out : row :=
  [Txt "rs1"; Num (Num.frac 5 100); Txt "A"; Txt "G"; Num (Num.of_Z 1000);
   Num (Num.frac 3 10); Num (Num.frac 4 5)].

(** ** Further concrete tables *)

(** the header of [chunk_frq] after the translation of the defaults *)
Definition header_frq_translated : list (string * dtype) :=
  [("SNP", DObject); ("P", DNumber); ("A1", DObject); ("A2", DObject);
   ("N", DNumber); ("SIGNED_SUMSTAT", DNumber); ("FRQ", DNumber)].



Definition row_merge_out : row :=
  [Txt "rs1"; Num (Num.frac 5 100); Txt "A"; Txt "G"; Num (Num.of_Z 1000);
   Num (Num.frac 3 10)].

(** the header of [chunk_INFO] after the translation of the defaults *)
Definition header_INFO_translated : list (string * dtype) :=
  [("SNP", DObject); ("P", DNumber); ("A1", DObject); ("A2", DObject);
   ("N", DNumber); ("SIGNED_SUMSTAT", DNumber); ("INFO", DNumber)].

(** what [parse_dat] returns for [chunk_INFO] *)
Definition parsed_INFO : frame * loop_state :=
  match parse_dat VALID_SNPS_spec [chunk_INFO]
          (default_translation (labels header_INFO)) [] args0 with
  | Ok x => x
  | Err _ => (Frame [] [], LoopState 0 [] ∅)
  end.

(** ** The counters of the filter pass *)

(** the sum of the removal counters that [parse_dat] logs *)
Definition dropped (d : gmap string Z) : Z :=
  (d !!! "NA" + d !!! "MERGE" + d !!! "INFO" + d !!! "FRQ" + d !!! "P" + d !!! "A")%Z.

(** A file [SNP P A1 A2 N BETA] whose P column was read as text, and a
    chunk of it without records. *)
Definition header_text_p : list (string * dtype) :=
  [("SNP", DObject); ("P", DObject); ("A1", DObject); ("A2", DObject);
   ("N", DNumber); ("BETA", DNumber)].

Definition header_text_p_translated : list (string * dtype) :=
  [("SNP", DObject); ("P", DObject); ("A1", DObject); ("A2", DObject);
   ("N", DNumber); ("SIGNED_SUMSTAT", DNumber)].

Definition chunk_text_p : frame := Frame header_text_p [].

(** ** The sample-size step read by cases *)

(** the threshold of the filter on N, lines 331-336: [--n-min] when it is
    given and not zero, else the 90th percentile of N divided by 1.5 *)
Definition n_threshold (a : args) (N : list cell) : num :=
  if flag_set (n_min a) then default NaN (n_min a)
  else Num.div (quantile_09 N) (Num.frac 3 2).

(** the threshold of the filter on NSTUDY, lines 342-345 *)
Definition nstudy_threshold (a : args) (NSTUDY : list cell) : num :=
  if flag_set (nstudy_min a) then default NaN (nstudy_min a)
  else series_max NSTUDY.

(** the sample size taken from the flags, lines 352-358: [--N], else
    [--N-cas] plus [--N-con]; a flag that is zero counts as not given *)
Definition fixed_n (a : args) : option num :=
  if flag_set (N_fixed a) then Some (default NaN (N_fixed a))
  else if flag_set (N_cas a) && flag_set (N_con a)
       then Some (Num.add (default NaN (N_cas a)) (default NaN (N_con a)))
       else None.

(** the table after lines 322-329: N from the case and control counts when
    both columns are there *)
Definition with_case_control_n (dat : frame) : frame :=
  if decide ("N_CAS" ∈ labels (columns dat) ∧ "N_CON" ∈ labels (columns dat))
  then drop_columns ["N_CAS"; "N_CON"]
         (set_column "N" (case_control_n (col "N_CAS" dat) (col "N_CON" dat)) dat)
  else dat.

(** the table after lines 340-350: the filter on NSTUDY, which runs only
    when there is no column N *)
Definition nstudy_filtered (a : args) (dat : frame) : frame :=
  if decide ("NSTUDY" ∈ labels (columns dat))
  then drop_columns ["NSTUDY"]
         (take_rows ((fun x => Num.le (nstudy_threshold a (col "NSTUDY" dat)) (to_num x))
                       <$> col "NSTUDY" dat) dat)
  else dat.

(** A table [SNP NSTUDY] with three records, and [--N 1000]. *)
Definition table_nstudy : frame :=
  Frame [("SNP", DObject); ("NSTUDY", DNumber)]
        [[Txt "rs1"; Num (Num.of_Z 3)]; [Txt "rs2"; Num (Num.of_Z 5)];
         [Txt "rs3"; Num (Num.of_Z 5)]].

Definition args_fixed_n : args :=
  {| merge_alleles := false;
     info_min := Num.frac 9 10;
     maf_min := Num.frac 1 100;
     keep_maf := false;
     no_alleles := false;
     n_min := None;
     nstudy_min := None;
     N_fixed := Some (Num.of_Z 1000);
     N_cas := None;
     N_con := None |}.

(** the number in the second cell of a record *)
Definition second_number (r : row) : Qc :=
  match r with
  | [_; Num (Fin q)] => q
  | _ => 0%Qc
  end.

(** * The column flags and the checks of [munge_sumstats], lines 384-426
      and 460-585 *)

(** ** Strings *)

(** [s.split(sep)] for a separator of one character *)
Fixpoint split_on (sep : ascii) (s : string) : list string :=
  match s with
  | EmptyString => [EmptyString]
  | String c s' =>
      if Ascii.eqb c sep then EmptyString :: split_on sep s'
      else match split_on sep s' with
           | h :: t => String c h :: t
           | [] => [String c EmptyString]
           end
  end.

(** [s[n:]] *)
Fixpoint str_drop (n : nat) (s : string) : string :=
  match n, s with
  | O, _ => s
  | S n', String _ s' => str_drop n' s'
  | S _, EmptyString => EmptyString
  end.

(** ** Errors of the configuration *)

Inductive config_error : Type :=
| FlagValueError
  (** the [ValueError()] of [parse_flag_cnames] *)
| IndexError
  (** [[...][0]] on an empty list *)
| FloatValueError (s : string)
  (** [float(s)] on what is not a number *)
| CouldNotFindNca
| CouldNotFindNco
  (** "Could not find Nca/Nco column expected for daner-n format" *)
| DescribeKeyError (field : string)
  (** [describe_cname[field]] for an unknown field *)
| SignedSumstat (e : error)
  (** the two errors of the choice of the signed column *)
| CouldNotFind (c : string)
  (** "Could not find {C} column." *)
| FoundColumnsNamed (num : nat) (c : string)
  (** "Found {num} columns named {C}" *)
| FoundDifferentColumns (num : nat) (c : string)
  (** "Found {num} different {C} columns" *)
| CouldNotDetermineN
  (** "Could not determine N." *)
| CouldNotFindAlleles
  (** "Could not find A1/A2 columns." *).

#[global] Instance config_error_eq_dec : EqDecision config_error.
Proof. solve_decision. Defined.

Inductive checked (A : Type) : Type :=
| Good (a : A)
| Bad (e : config_error).
Arguments Good {A} a.
Arguments Bad {A} e.

#[global] Instance checked_eq_dec {A : Type} `{EqDecision A} : EqDecision (checked A).
Proof. solve_decision. Defined.

#[global] Instance checked_bind : MBind checked := fun A B k m =>
  match m with
  | Good a => k a
  | Bad e => Bad e
  end.

(** ** The flags that name columns *)

Module Cli.

(** The fields of [args] that the column resolution reads; [None] is a flag
    that was not given. *)
Record flags : Type := Flags {
  nstudy : option string;
  snp : option string;
  N_col : option string;
  N_cas_col : option string;
  N_con_col : option string;
  a1 : option string;
  a2 : option string;
  p : option string;
  frq : option string;
  info : option string;
  info_list : option string;
  signed_sumstats : option string;
  ignore : option string;
  a1_inc : bool;
  daner : bool;
  daner_n : bool;
  no_alleles : bool;
  N : option num;
  N_cas : option num;
  N_con : option num
}.

End Cli.

(** truthiness of an optional string: given and not empty *)
Definition str_set (x : option string) : bool :=
  match x with
  | Some s => negb (String.eqb s EmptyString)
  | None => false
  end.

(** [cname_options], lines 390-401 *)
Definition cname_options (args : Cli.flags) : list (option string * string) :=
  [(Cli.nstudy args, "NSTUDY"); (Cli.snp args, "SNP"); (Cli.N_col args, "N");
   (Cli.N_cas_col args, "N_CAS"); (Cli.N_con_col args, "N_CON"); (Cli.a1 args, "A1");
   (Cli.a2 args, "A2"); (Cli.p args, "P"); (Cli.frq args, "FRQ"); (Cli.info args, "INFO")].

(** a dict comprehension or [dict.update]: later entries win *)
Definition dict_update (d : gmap string string) (kvs : list (string * string))
  : gmap string string :=
  foldl (fun m kv => <[kv.1 := kv.2]> m) d kvs.

(** [parse_flag_cnames]; [float] is Python's conversion of a string to a
    float, [None] where it raises a [ValueError] *)
Definition parse_flag_cnames (float : string -> option num) (args : Cli.flags)
  : checked (gmap string string * option num) :=
  let flag_cnames :=
    dict_update ∅
      (omap (fun x : option string * string =>
               match x.1 with
               | Some h => Some (clean_header h, x.2)
               | None => None
               end) (cname_options args)) in
  let flag_cnames :=
    if str_set (Cli.info_list args)
    then dict_update flag_cnames
           ((fun x => (clean_header x, "INFO"))
              <$> split_on "," (default EmptyString (Cli.info_list args)))
    else flag_cnames in
  if str_set (Cli.signed_sumstats args) then
    match split_on "," (default EmptyString (Cli.signed_sumstats args)) with
    | [cname; null_value] =>
        match float null_value with
        | Some null_value =>
            Good (<[clean_header cname := "SIGNED_SUMSTAT"]> flag_cnames, Some null_value)
        | None => Bad FlagValueError
        end
    | _ => Bad FlagValueError
    end
  else Good (flag_cnames, None).

(** ** The daner formats, lines 481-514 *)

(** [[x for x in file_cnames if x.startswith(prefix)][0]] *)
Definition first_with_prefix (prefix : string) (file_cnames : list string)
  : checked string :=
  match filter (fun x => String.prefix prefix x = true) file_cnames with
  | x :: _ => Good x
  | [] => Bad IndexError
  end.

(** [float(s)], with its [ValueError] *)
Definition to_float (float : string -> option num) (s : string) : checked num :=
  match float s with
  | Some x => Good x
  | None => Bad (FloatValueError s)
  end.

(** Lines 481-498.  The two loops meant to drop the columns of N, N_CAS,
    N_CON and FRQ compare the values of the map with the string "c", so they
    delete the entries whose value is "c".  The result is the map and the
    new [args.N_cas] and [args.N_con]. *)
Definition daner_step (float : string -> option num) (file_cnames : list string)
    (cname_map : gmap string string) : checked (gmap string string * num * num) :=
  frq_u ← first_with_prefix "FRQ_U_" file_cnames;
  frq_a ← first_with_prefix "FRQ_A_" file_cnames;
  N_cas ← to_float float (str_drop 6 frq_a);
  N_con ← to_float float (str_drop 6 frq_u);
  let cname_map :=
    foldl (fun (m : gmap string string) (_ : string) =>
             filter (fun kv : string * string => kv.2 <> "c") m)
          cname_map ["N"; "N_CAS"; "N_CON"; "FRQ"] in
  Good (<[frq_u := "FRQ"]> cname_map, N_cas, N_con).

(** Lines 500-514 *)
Definition daner_n_step (file_cnames : list string) (cname_map : gmap string string)
  : checked (gmap string string) :=
  frq_u ← first_with_prefix "FRQ_U_" file_cnames;
  let cname_map := <[frq_u := "FRQ"]> cname_map in
  if decide ("Nca" ∈ file_cnames) then
    let dan_cas := clean_header "Nca" in
    if decide ("Nco" ∈ file_cnames) then
      let dan_con := clean_header "Nco" in
      Good (<[dan_con := "N_CON"]> (<[dan_cas := "N_CAS"]> cname_map))
    else Bad CouldNotFindNco
  else Bad CouldNotFindNca.

(** ** The checks of the translation, lines 521-585 *)

(** the keys of [describe_cname], lines 98-114 *)
Definition describe_cname : list string :=
  ["SNP"; "P"; "A1"; "A2"; "N"; "N_CAS"; "N_CON"; "Z"; "OR"; "BETA"; "LOG_ODDS"; "INFO";
   "FRQ"; "SIGNED_SUMSTAT"; "NSTUDY"].

(** [list(cname_translation.values())] *)
Definition od_values (d : odict) : list string := d.*2.

(** [l.count(x)] *)
Definition count_of (x : string) (l : list string) : nat :=
  length (filter (fun y => y = x) l).

(** Lines 521-523: the comprehension fails on the first field without a
    description *)
Definition cname_description (translation : odict) : checked unit :=
  match filter (fun v => v ∉ describe_cname) (od_values translation) with
  | v :: _ => Bad (DescribeKeyError v)
  | [] => Good tt
  end.

(** [del d[k]] for the keys in [ks] *)
Definition od_del (ks : list string) (d : odict) : odict :=
  filter (fun kv => kv.1 ∉ ks) d.

(** Lines 541-585: the translation after the choice of the signed column is
    checked and loses its NSTUDY entries when N is known for each SNP. *)
Definition check_columns (args : Cli.flags) (file_cnames : list string)
    (translation : odict) : checked odict :=
  let values := od_values translation in
  let req_cols := if negb (Cli.a1_inc args) then ["SNP"; "P"; "SIGNED_SUMSTAT"]
                  else ["SNP"; "P"] in
  match filter (fun c => c ∉ values) req_cols with
  | c :: _ => Bad (CouldNotFind c)
  | [] =>
  match filter (fun field => (1 < count_of field file_cnames)%nat) (od_keys translation) with
  | field :: _ => Bad (FoundColumnsNamed (count_of field file_cnames) field)
  | [] =>
  match filter (fun head => (1 < count_of head values)%nat) values with
  | head :: _ => Bad (FoundDifferentColumns (count_of head values) head)
  | [] =>
  if negb (flag_set (Cli.N args))
     && negb (flag_set (Cli.N_cas args) && flag_set (Cli.N_con args))
     && bool_decide ("N" ∉ values)
     && existsb (fun x => bool_decide (x ∉ values)) ["N_CAS"; "N_CON"]
  then Bad CouldNotDetermineN
  else
    let translation :=
      if (bool_decide ("N" ∈ values)
          || forallb (fun x => bool_decide (x ∈ values)) ["N_CAS"; "N_CON"])
         && bool_decide ("NSTUDY" ∈ values)
      then od_del (filter (fun kv => kv.2 = "NSTUDY") translation).*1 translation
      else translation in
    let values := od_values translation in
    if negb (Cli.no_alleles args)
       && negb (forallb (fun x => bool_decide (x ∈ values)) ["A1"; "A2"])
    then Bad CouldNotFindAlleles
    else Good translation
  end end end.

(** [args.N_cas = N_cas; args.N_con = N_con] *)
Definition set_counts (N_cas N_con : num) (args : Cli.flags) : Cli.flags :=
  {| Cli.nstudy := Cli.nstudy args; Cli.snp := Cli.snp args; Cli.N_col := Cli.N_col args;
     Cli.N_cas_col := Cli.N_cas_col args; Cli.N_con_col := Cli.N_con_col args;
     Cli.a1 := Cli.a1 args; Cli.a2 := Cli.a2 args; Cli.p := Cli.p args;
     Cli.frq := Cli.frq args; Cli.info := Cli.info args;
     Cli.info_list := Cli.info_list args; Cli.signed_sumstats := Cli.signed_sumstats args;
     Cli.ignore := Cli.ignore args; Cli.a1_inc := Cli.a1_inc args;
     Cli.daner := Cli.daner args; Cli.daner_n := Cli.daner_n args;
     Cli.no_alleles := Cli.no_alleles args; Cli.N := Cli.N args;
     Cli.N_cas := Some N_cas; Cli.N_con := Some N_con |}.

(** the errors of [resolve_signed] among those of the configuration *)
Definition lift_signed {A : Type} (r : result A) : checked A :=
  match r with
  | Ok x => Good x
  | Err e => Bad (SignedSumstat e)
  end.

(** Lines 463-585 of [munge_sumstats]: from the header of the file and the
    flags to the translation handed to the reader, with [sign_cname],
    [signed_sumstat_null] and the flags after [--daner]. *)
Definition munge_columns (float : string -> option num) (args : Cli.flags)
    (file_cnames : list string) : checked (odict * string * option num * Cli.flags) :=
  parsed ← parse_flag_cnames float args;
  let '(flag_cnames, signed_sumstat_null) := parsed in
  let ignore :=
    if str_set (Cli.ignore args)
    then ignore_cnames (split_on "," (default EmptyString (Cli.ignore args)))
    else [] in
  let given := bool_decide (is_Some (Cli.signed_sumstats args)) in
  let cname_map :=
    get_cname_map flag_cnames (mod_default_cnames given (Cli.a1_inc args)) ignore in
  st ← (if Cli.daner args then
          r ← daner_step float file_cnames cname_map;
          let '(cname_map, N_cas, N_con) := r in
          Good (cname_map, set_counts N_cas N_con args)
        else Good (cname_map, args));
  let '(cname_map, args) := st in
  cname_map ← (if Cli.daner_n args then daner_n_step file_cnames cname_map
               else Good cname_map);
  let translation := cname_translation file_cnames cname_map in
  _ ← cname_description translation;
  signed ← lift_signed (resolve_signed given (Cli.a1_inc args) translation
                          signed_sumstat_null);
  let '(translation, sign_cname, signed_sumstat_null) := signed in
  translation ← check_columns args file_cnames translation;
  Good (translation, sign_cname, signed_sumstat_null, args).

(** an entry of the flags: the key is canonical and the value is a field
    with a description *)
Definition flag_entry (k v : string) : Prop :=
  canonical k = true /\ v ∈ describe_cname.

(** ** Concrete flags used in the examples *)

(** a conversion that reads the unsigned decimal integers, standing for
    Python's [float] on such strings *)
Fixpoint digits_value (s : string) (acc : Z) : option Z :=
  match s with
  | EmptyString => Some acc
  | String c s' =>
      let n := Z.of_nat (nat_of_ascii c) in
      if bool_decide (48 <= n <= 57)%Z then digits_value s' (10 * acc + (n - 48))%Z
      else None
  end.

Definition float_of_digits (s : string) : option num :=
  match s with
  | EmptyString => None
  | _ => Num.of_Z <$> digits_value s 0
  end.

(** no flag given *)
Definition cli0 : Cli.flags :=
  {| Cli.nstudy := None; Cli.snp := None; Cli.N_col := None; Cli.N_cas_col := None;
     Cli.N_con_col := None; Cli.a1 := None; Cli.a2 := None; Cli.p := None;
     Cli.frq := None; Cli.info := None; Cli.info_list := None;
     Cli.signed_sumstats := None; Cli.ignore := None; Cli.a1_inc := false;
     Cli.daner := false; Cli.daner_n := false; Cli.no_alleles := false;
     Cli.N := None; Cli.N_cas := None; Cli.N_con := None |}.

(** [--snp rs-id --signed-sumstats effect.size,0] *)
Definition cli_signed : Cli.flags :=
  {| Cli.nstudy := None; Cli.snp := Some "rs-id"; Cli.N_col := None; Cli.N_cas_col := None;
     Cli.N_con_col := None; Cli.a1 := None; Cli.a2 := None; Cli.p := None;
     Cli.frq := None; Cli.info := None; Cli.info_list := None;
     Cli.signed_sumstats := Some "effect.size,0"; Cli.ignore := None; Cli.a1_inc := false;
     Cli.daner := false; Cli.daner_n := false; Cli.no_alleles := false;
     Cli.N := None; Cli.N_cas := None; Cli.N_con := None |}.

(** the dict of [parse_flag_cnames] for [cli_signed] *)
Definition flags_signed : gmap string string :=
  {["RS_ID" := "SNP"; "EFFECT_SIZE" := "SIGNED_SUMSTAT"]}.

(** the header of a file in daner format with 1000 cases and 2000 controls *)
Definition header_daner : list string :=
  ["SNP"; "A1"; "A2"; "FRQ_A_1000"; "FRQ_U_2000"; "INFO"; "OR"; "P"].

(** the column map after [--daner] on [header_daner], from the defaults *)
Definition cname_map_daner : gmap string string :=
  match daner_step float_of_digits header_daner default_cnames with
  | Good x => x.1.1
  | Bad _ => ∅
  end.

(** * The sign of Z, lines 372-381 and 651-656 *)

(** [np.abs] *)
Definition num_abs (x : num) : num :=
  if Num.lt x Num.zero then Num.neg x else x.



(** [Z * (-1) ** (SIGNED_SUMSTAT < signed_sumstat_null)], line 655 *)
Definition flip_sign (signed_sumstat_null : num) (Z SIGNED_SUMSTAT : list cell)
  : list cell :=
  zip_with (fun z s =>
              Num (Num.mul (to_num z)
                           (if Num.lt (to_num s) signed_sumstat_null
                            then Num.of_Z (-1) else Num.of_Z 1)))
           Z SIGNED_SUMSTAT.

(** two magnitudes of Z and the signed statistics of their records *)
Definition z_magnitudes : list Qc := [Q2Qc (5 # 2); Q2Qc (3 # 2)].

Definition signed_statistics : list cell := [Num (Num.of_Z (-1)); Num (Num.frac 3 10)].

(** ** The ignore list and the daner formats *)

#[global] Instance cli_flags_eq_dec : EqDecision Cli.flags.
Proof. solve_decision. Defined.

(** the canonical headers that [--daner] and [--daner-n] map themselves:
    the first header of the file that starts with FRQ_U_, and for
    [--daner-n] the columns Nca and Nco *)
Definition daner_column (args : Cli.flags) (file_cnames : list string) (k : string)
  : Prop :=
  ((Cli.daner args = true \/ Cli.daner_n args = true) /\
   first_with_prefix "FRQ_U_" file_cnames = Good k) \/
  (Cli.daner_n args = true /\ (k = "NCA" \/ k = "NCO")).

(** [--ignore p.val] on a file that has the columns P-Val and P *)
Definition cli_ignore : Cli.flags :=
  {| Cli.nstudy := None; Cli.snp := None; Cli.N_col := None; Cli.N_cas_col := None;
     Cli.N_con_col := None; Cli.a1 := None; Cli.a2 := None; Cli.p := None;
     Cli.frq := None; Cli.info := None; Cli.info_list := None;
     Cli.signed_sumstats := None; Cli.ignore := Some "p.val"; Cli.a1_inc := false;
     Cli.daner := false; Cli.daner_n := false; Cli.no_alleles := false;
     Cli.N := None; Cli.N_cas := None; Cli.N_con := None |}.

Definition header_two_p : list string :=
  ["SNP"; "P-Val"; "P"; "A1"; "A2"; "N"; "BETA"].

(** the translation of [header_two_p] under [cli_ignore] *)
Definition translation_two_p : odict :=
  [("SNP", "SNP"); ("P", "P"); ("A1", "A1"); ("A2", "A2"); ("N", "N");
   ("BETA", "SIGNED_SUMSTAT")].

(** [--daner --ignore FRQ_U_2000] *)
Definition cli_daner_ignore : Cli.flags :=
  {| Cli.nstudy := None; Cli.snp := None; Cli.N_col := None; Cli.N_cas_col := None;
     Cli.N_con_col := None; Cli.a1 := None; Cli.a2 := None; Cli.p := None;
     Cli.frq := None; Cli.info := None; Cli.info_list := None;
     Cli.signed_sumstats := None; Cli.ignore := Some "FRQ_U_2000"; Cli.a1_inc := false;
     Cli.daner := true; Cli.daner_n := false; Cli.no_alleles := false;
     Cli.N := None; Cli.N_cas := None; Cli.N_con := None |}.

(** a header in which the column BETA occurs twice *)
Definition header_beta_twice : list string :=
  ["SNP"; "P"; "A1"; "A2"; "N"; "BETA"; "BETA"].
(** * Theorems *)

(** closes a decidable closed goal by evaluating its decision procedure *)
Ltac by_evaluation := apply (bool_decide_unpack _); vm_compute; exact I.

Lemma clean_header_cons (c : ascii) (s : string) :
  clean_header (String c s)
  = match clean_char c with
    | Some u => String u (clean_header s)
    | None => clean_header s
    end.
Proof.
  unfold clean_header, Str.replace, Str.upper, clean_char.
  cbn [Str.map Str.remove]. cbv zeta.
  destruct (Ascii.eqb _ "010"); reflexivity.
Qed.

Lemma clean_char_canonical (c u : ascii) :
  clean_char c = Some u -> canonical_char u = true.
Proof.
  intros H. destruct c as [[] [] [] [] [] [] [] []]; vm_compute in H;
    try discriminate H; injection H as <-; reflexivity.
Qed.

Lemma canonical_char_clean (c : ascii) :
  canonical_char c = true -> clean_char c = Some c.
Proof.
  intros H. destruct c as [[] [] [] [] [] [] [] []]; vm_compute in H;
    try discriminate H; reflexivity.
Qed.

Lemma clean_header_canonical (s : string) : canonical (clean_header s) = true.
Proof.
  induction s as [|c s IH]; [reflexivity|].
  rewrite clean_header_cons. destruct (clean_char c) as [u|] eqn:Hc; [|exact IH].
  cbn [canonical]. rewrite (clean_char_canonical c u Hc). exact IH.
Qed.

Lemma clean_header_fixed (s : string) :
  canonical s = true -> clean_header s = s.
Proof.
  induction s as [|c s IH]; [reflexivity|].
  cbn [canonical]. intros [Hc Hs]%andb_true_iff.
  rewrite clean_header_cons, (canonical_char_clean c Hc), (IH Hs). reflexivity.
Qed.

Lemma clean_header_idempotent (s : string) :
  clean_header (clean_header s) = clean_header s.
Proof. apply clean_header_fixed, clean_header_canonical. Qed.

(** [clean_header] looks at a character only through [clean_char]. *)
Lemma clean_header_pointwise (f : ascii -> ascii) (s : string) :
  (forall c, clean_char (f c) = clean_char c) ->
  clean_header (Str.map f s) = clean_header s.
Proof.
  intros Hf. induction s as [|c s IH]; [reflexivity|].
  cbn [Str.map]. rewrite !clean_header_cons, Hf, IH. reflexivity.
Qed.

(** C8 (as amended).  Header normalization is idempotent, and it identifies
    headers that differ only in letter case and in the separator used among
    '-', '.' and '_': 'rs-Id', 'RS.ID' and 'rs_id' all normalize to "RS_ID".
    Separators are replaced, never removed. *)
Theorem clean_header_idempotent_case_separator :
  (forall s, clean_header (clean_header s) = clean_header s) /\
  (forall s, clean_header (Str.upper s) = clean_header s) /\
  (forall s, clean_header (Str.replace "-" "_" s) = clean_header s) /\
  (forall s, clean_header (Str.replace "." "_" s) = clean_header s) /\
  (forall s, clean_header (Str.replace "." "-" s) = clean_header s) /\
  clean_header "rs-Id" = "RS_ID" /\
  clean_header "RS.ID" = "RS_ID" /\
  clean_header "rs_id" = "RS_ID".
Proof.
  split; [exact clean_header_idempotent|].
  repeat split; try reflexivity; intros s;
    [apply (clean_header_pointwise Str.upper_char) | | | ];
    try (unfold Str.replace; apply clean_header_pointwise);
    intros c; destruct c as [[] [] [] [] [] [] [] []]; vm_compute; reflexivity.
Qed.

(** C8, counterexample.  'rs-Id' and 'RSID' do not normalize to the same
    label: the first becomes "RS_ID", the second stays "RSID". *)
Lemma clean_header_keeps_separator :
  clean_header "rs-Id" = "RS_ID" /\ clean_header "RS.ID" = "RS_ID" /\
  clean_header "RSID" = "RSID" /\
  ~ (clean_header "rs-Id" = clean_header "RS.ID" /\
     clean_header "RS.ID" = clean_header "RSID").
Proof.
  repeat split; intros [_ H]; vm_compute in H; discriminate H.
Qed.

(** ** Insertion-ordered dicts *)

Lemma od_get_set (k k' v : string) (d : odict) :
  od_get k (od_set k' v d) = if decide (k' = k) then Some v else od_get k d.
Proof.
  induction d as [|[k0 v0] d IH]; cbn.
  - reflexivity.
  - destruct (decide (k0 = k')) as [->|Hne]; cbn.
    + destruct (decide (k' = k)); reflexivity.
    + rewrite IH. destruct (decide (k0 = k)) as [->|]; [|reflexivity].
      destruct (decide (k' = k)); [congruence|reflexivity].
Qed.

Lemma od_keys_set (k v : string) (d : odict) :
  od_keys (od_set k v d) = if decide (k ∈ od_keys d) then od_keys d else (od_keys d ++ [k])%list.
Proof.
  unfold od_keys. induction d as [|[k0 v0] d IH]; cbn.
  - destruct (decide (k ∈ [])) as [H|]; [inversion H|reflexivity].
  - destruct (decide (k0 = k)) as [->|Hne]; cbn.
    + rewrite decide_True by left. reflexivity.
    + rewrite IH. destruct (decide (k ∈ d.*1)) as [Hin|Hnin].
      * rewrite decide_True by (right; exact Hin). reflexivity.
      * rewrite decide_False; [reflexivity|].
        intros [?|?]%elem_of_cons; congruence.
Qed.

Lemma od_get_None (k : string) (d : odict) : od_get k d = None <-> k ∉ od_keys d.
Proof.
  unfold od_keys. induction d as [|[k0 v0] d IH]; cbn.
  - split; [intros _ H; inversion H|reflexivity].
  - destruct (decide (k0 = k)) as [->|Hne].
    + split; [discriminate|]. intros H. destruct H. left.
    + rewrite IH. rewrite not_elem_of_cons. intuition congruence.
Qed.

(** ** Column resolution *)

Lemma get_cname_map_ignored (flag default : gmap string string)
    (ignore : list string) (k : string) :
  k ∈ clean_header <$> ignore -> get_cname_map flag default ignore !! k = None.
Proof.
  intros Hin. unfold get_cname_map.
  apply lookup_union_None. split; apply map_lookup_filter_None; right;
    intros v _ Hk; cbn in Hk; apply Hk.
  - apply elem_of_app. left. exact Hin.
  - exact Hin.
Qed.

Lemma ignore_cnames_clean (ignore : list string) :
  clean_header <$> ignore_cnames ignore = clean_header <$> ignore.
Proof.
  unfold ignore_cnames. rewrite <- list_fmap_compose.
  apply list_fmap_ext. intros _ x _. cbn. apply clean_header_idempotent.
Qed.

Lemma cname_translation_fold_None (cname_map : gmap string string)
    (file_cnames : list string) (d : odict) (x : string) :
  cname_map !! clean_header x = None -> od_get x d = None ->
  od_get x (foldl (translation_step cname_map) d file_cnames) = None.
Proof.
  intros Hx. revert d. induction file_cnames as [|y ys IH]; intros d Hd; cbn.
  - exact Hd.
  - apply IH. unfold translation_step.
    destruct (cname_map !! clean_header y) as [v|] eqn:Hy; [|exact Hd].
    rewrite od_get_set. destruct (decide (y = x)) as [->|]; [congruence|exact Hd].
Qed.

Lemma cname_translation_None (cname_map : gmap string string)
    (file_cnames : list string) (x : string) :
  cname_map !! clean_header x = None ->
  od_get x (cname_translation file_cnames cname_map) = None.
Proof. intros Hx. apply cname_translation_fold_None; [exact Hx|reflexivity]. Qed.

Lemma resolve_signed_keeps_None (g a1 : bool) (t t' : odict) (nv nv' : option num)
    (sc x : string) :
  resolve_signed g a1 t nv = Ok (t', sc, nv') -> od_get x t = None -> od_get x t' = None.
Proof.
  unfold resolve_signed. intros H Hx.
  destruct (negb g && negb a1); [|congruence].
  destruct (decide _); [discriminate|].
  destruct ((filter _ t).*1) as [|k ks] eqn:Hk; [discriminate|].
  injection H as <- <- <-. rewrite od_get_set.
  destruct (decide (k = x)) as [->|]; [|exact Hx].
  exfalso. apply od_get_None in Hx. apply Hx.
  assert (x ∈ (filter (fun kv : string * string => is_Some (null_values !! kv.2)) t).*1) as Hin
    by (rewrite Hk; left).
  apply list_elem_of_fmap in Hin as ([k' v'] & -> & Hin).
  apply list_elem_of_filter in Hin as [_ Hin].
  apply list_elem_of_fmap. exists (k', v'). split; [reflexivity|exact Hin].
Qed.

Lemma null_values_signed_fields (f : string) :
  is_Some (null_values !! f) <-> f ∈ signed_fields.
Proof.
  unfold null_values, signed_fields. split.
  - intros [v Hv]. apply elem_of_list_to_map_2 in Hv.
    repeat (apply elem_of_cons in Hv as [[= -> _]|Hv]; [set_solver|]). inversion Hv.
  - intros H. repeat (apply elem_of_cons in H as [->|H]; [vm_compute; eauto|]).
    inversion H.
Qed.

Lemma od_set_elem (k v k' v' : string) (d : odict) :
  (k, v) ∈ od_set k' v' d -> (k, v) = (k', v') \/ (k, v) ∈ d.
Proof.
  induction d as [|[k0 v0] d IH]; cbn.
  - intros H%list_elem_of_singleton. left; exact H.
  - destruct (decide (k0 = k')) as [->|Hne].
    + intros [->|H]%elem_of_cons; [left; reflexivity|right; right; exact H].
    + intros [->|H]%elem_of_cons; [right; left|].
      destruct (IH H) as [?|?]; [left; assumption|right; right; assumption].
Qed.

Lemma od_set_NoDup (k v : string) (d : odict) :
  NoDup (od_keys d) -> NoDup (od_keys (od_set k v d)).
Proof.
  intros Hd. rewrite od_keys_set. destruct (decide (k ∈ od_keys d)); [exact Hd|].
  apply NoDup_app. split; [exact Hd|]. split.
  - intros x Hx ->%list_elem_of_singleton. contradiction.
  - apply NoDup_singleton.
Qed.

Section translation.
Variable cname_map : gmap string string.

Lemma translation_fold_ok (file_cnames : list string) (d : odict) :
  translation_ok cname_map d -> translation_ok cname_map (foldl (translation_step cname_map) d file_cnames).
Proof.
  revert d. induction file_cnames as [|y ys IH]; intros d Hd; cbn; [exact Hd|].
  apply IH. unfold translation_step. destruct (cname_map !! clean_header y) as [v|] eqn:Hy; [|exact Hd].
  destruct Hd as [Hnd Hval]. split; [apply od_set_NoDup; exact Hnd|].
  intros k v' [[= -> ->]|H]%od_set_elem; [exact Hy|auto].
Qed.

Lemma translation_fold_keys (file_cnames : list string) (d : odict) (k : string) :
  k ∈ od_keys (foldl (translation_step cname_map) d file_cnames) <->
  k ∈ od_keys d \/ (k ∈ file_cnames /\ is_Some (cname_map !! clean_header k)).
Proof.
  revert d. induction file_cnames as [|y ys IH]; intros d; cbn.
  - split; [auto|]. intros [H|[H _]]; [exact H|inversion H].
  - rewrite IH. unfold translation_step.
    destruct (cname_map !! clean_header y) as [v|] eqn:Hy.
    + rewrite od_keys_set. destruct (decide (y ∈ od_keys d)) as [Hin|Hnin].
      * split; [intros [H|[H1 H2]]; [auto|right; split; [right|]; assumption]|].
        intros [H|[[->|H1]%elem_of_cons H2]]; auto.
      * rewrite elem_of_app, list_elem_of_singleton.
        split.
        -- intros [[H| ->]|[H1 H2]]; [auto| |right; split; [right|]; assumption].
           right. split; [left|]. rewrite Hy. eauto.
        -- intros [H|[[->|H1]%elem_of_cons H2]]; auto.
    + split; [intros [H|[H1 H2]]; [auto|right; split; [right|]; assumption]|].
      intros [H|[[->|H1]%elem_of_cons H2]]; auto.
      rewrite Hy in H2. destruct H2 as [? [=]].
Qed.

Lemma sign_cnames_filter (d : odict) :
  (forall k v, (k, v) ∈ d -> cname_map !! clean_header k = Some v) ->
  (filter (fun kv : string * string => is_Some (null_values !! kv.2)) d).*1
  = filter (resolves_signed cname_map) (od_keys d).
Proof.
  unfold od_keys. induction d as [|[k v] d IH]; intros Hval; [reflexivity|].
  rewrite fmap_cons. cbn [fst].
  assert (cname_map !! clean_header k = Some v) as Hk by (apply Hval; left).
  assert (is_Some (null_values !! v) <-> resolves_signed cname_map k) as Hiff.
  { rewrite null_values_signed_fields. unfold resolves_signed. rewrite Hk. split.
    - intros H. exists v. auto.
    - intros (f & [= <-] & H). exact H. }
  specialize (IH (fun k' v' H => Hval k' v' (list_elem_of_further _ _ _ H))).
  destruct (decide (resolves_signed cname_map k)) as [H|H].
  - rewrite (filter_cons_True (resolves_signed cname_map)) by exact H.
    rewrite filter_cons_True by (cbn; tauto).
    rewrite fmap_cons. cbn [fst]. f_equal. exact IH.
  - rewrite (filter_cons_False (resolves_signed cname_map)) by exact H.
    rewrite filter_cons_False by (cbn; tauto). exact IH.
Qed.

Lemma translation_keys_perm (file_cnames : list string) :
  od_keys (cname_translation file_cnames cname_map)
  ≡ₚ filter (fun x => is_Some (cname_map !! clean_header x)) (remove_dups file_cnames).
Proof.
  apply NoDup_Permutation.
  - apply (translation_fold_ok file_cnames []). split; [constructor|].
    intros k v H; inversion H.
  - apply NoDup_filter, NoDup_remove_dups.
  - intros k. unfold cname_translation.
    rewrite translation_fold_keys, list_elem_of_filter, elem_of_remove_dups.
    split; [intros [H|[? ?]]; [inversion H|auto]|intros [? ?]; auto].
Qed.

Lemma sign_cnames_length (file_cnames : list string) :
  length (filter (fun kv : string * string => is_Some (null_values !! kv.2))
            (cname_translation file_cnames cname_map)).*1
  = length (signed_headers cname_map file_cnames).
Proof.
  rewrite sign_cnames_filter.
  2:{ apply (translation_fold_ok file_cnames []). split; [constructor|].
      intros k v H; inversion H. }
  unfold signed_headers.
  rewrite (translation_keys_perm file_cnames), list_filter_filter.
  f_equal. apply list_filter_iff. intros x. split; [tauto|].
  intros H. split; [exact H|]. destruct H as (f & -> & _). eauto.
Qed.

End translation.

(** C5 (as amended).  Without [--signed-sumstats] and without [--a1-inc],
    column resolution fails with "Too many signed sumstat columns" exactly
    when more than one distinct raw header of the file resolves to a signed
    field (Z, OR, BETA, LOG_ODDS), and with "Could not find a signed summary
    statistic column" exactly when none does.  A header that occurs several
    times in the file counts once: the translation is a dict keyed by the
    raw header. *)
Theorem signed_column_errors
    (cname_map : gmap string string) (file_cnames : list string)
    (signed_sumstat_null : option num) :
  let outcome :=
    resolve_signed false false (cname_translation file_cnames cname_map)
                   signed_sumstat_null in
  (outcome = Err TooManySignedSumstats <->
   (1 < length (signed_headers cname_map file_cnames))%nat) /\
  (outcome = Err NoSignedSumstat <->
   length (signed_headers cname_map file_cnames) = 0%nat).
Proof.
  cbv zeta. unfold resolve_signed. cbn [negb andb].
  rewrite <- (sign_cnames_length cname_map file_cnames).
  destruct (decide _) as [Hgt|Hle].
  - split; [tauto|]. split; [discriminate|]. intros H. rewrite H in Hgt. lia.
  - destruct ((filter _ _).*1) as [|k ks]; cbn [length] in *.
    + split; [split; [discriminate|lia]|tauto].
    + split; (split; [discriminate|lia]).
Qed.

(** ** Masks *)

Lemma select_fmap {A : Type} (p : A -> bool) (l : list A) :
  select (p <$> l) l = filter (fun x => p x = true) l.
Proof.
  induction l as [|x l IH]; [reflexivity|]. cbn [fmap list_fmap select].
  fold (p <$> l). rewrite IH. destruct (p x) eqn:Hp.
  - rewrite filter_cons_True by exact Hp. reflexivity.
  - rewrite filter_cons_False by congruence. reflexivity.
Qed.

(** ** Duplicated SNPs *)

Lemma duplicated_lookup (keys : list cell) (i : nat) :
  mnot (duplicated keys) !! i
  = (fun k => negb (bool_decide (k ∈ take i keys))) <$> keys !! i.
Proof.
  unfold mnot, duplicated. rewrite list_lookup_fmap, list_lookup_imap.
  destruct (keys !! i); reflexivity.
Qed.

Lemma mand_fmap {A : Type} (f g : A -> bool) (l : list A) :
  mand (f <$> l) (g <$> l) = (fun x => f x && g x) <$> l.
Proof.
  unfold mand. rewrite zip_with_fmap_l, zip_with_fmap_r, zip_with_diag. reflexivity.
Qed.

Lemma mor_fmap {A : Type} (f g : A -> bool) (l : list A) :
  mor (f <$> l) (g <$> l) = (fun x => f x || g x) <$> l.
Proof.
  unfold mor. rewrite zip_with_fmap_l, zip_with_fmap_r, zip_with_diag. reflexivity.
Qed.

Lemma msum_fmap {A : Type} (p : A -> bool) (l : list A) :
  msum (p <$> l) = Z.of_nat (length (filter (fun x => p x = true) l)).
Proof.
  unfold msum. f_equal. induction l as [|x l IH]; [reflexivity|].
  rewrite fmap_cons. destruct (p x) eqn:Hp.
  - rewrite !filter_cons_True by done. cbn. f_equal. exact IH.
  - rewrite !filter_cons_False by (try done; congruence). exact IH.
Qed.

Lemma select_fmap_fmap {A B : Type} (p : A -> bool) (g : A -> B) (l : list A) :
  select (p <$> l) (g <$> l) = g <$> filter (fun x => p x = true) l.
Proof.
  induction l as [|x l IH]; [reflexivity|]. rewrite !fmap_cons. cbn [select].
  rewrite IH. destruct (p x) eqn:Hp.
  - rewrite filter_cons_True by exact Hp. reflexivity.
  - rewrite filter_cons_False by congruence. reflexivity.
Qed.

(** ** The filters as row predicates *)

Lemma filter_pvals_fmap {A : Type} (f : A -> cell) (l : list A) :
  filter_pvals (f <$> l) = (fun x => p_keep (f x)) <$> l.
Proof.
  unfold filter_pvals. rewrite <- !list_fmap_compose. apply mand_fmap.
Qed.

Lemma filter_frq_fmap {A : Type} (a : args) (f : A -> cell) (l : list A) :
  filter_frq (f <$> l) a = (fun x => frq_keep a (f x)) <$> l.
Proof.
  unfold filter_frq, mnot. rewrite <- !list_fmap_compose.
  rewrite mor_fmap, <- list_fmap_compose. apply mand_fmap.
Qed.

Lemma filter_info_series_fmap {A : Type} (a : args) (f : A -> cell) (l : list A) :
  filter_info (Series (f <$> l)) a = (fun x => info_keep a (f x)) <$> l.
Proof. cbn. rewrite <- list_fmap_compose. reflexivity. Qed.

(** ** Cells of a row *)

Lemma get_nil (cs : list (string * dtype)) (c : string) : get cs c [] = NA.
Proof. unfold get. destruct (col_index c cs); reflexivity. Qed.

Lemma get_cons_eq (cs : list (string * dtype)) (c : string) (t : dtype)
    (x : cell) (r : row) :
  get ((c, t) :: cs) c (x :: r) = x.
Proof. unfold get. cbn. rewrite decide_True by reflexivity. reflexivity. Qed.

Lemma get_cons_ne (cs : list (string * dtype)) (c l : string) (t : dtype)
    (x : cell) (r : row) :
  l <> c -> get ((l, t) :: cs) c (x :: r) = get cs c r.
Proof.
  intros Hne. unfold get. cbn. rewrite decide_False by exact Hne.
  destruct (col_index c cs); reflexivity.
Qed.

Lemma col_index_Some (cs : list (string * dtype)) (c : string) (i : nat) :
  col_index c cs = Some i -> labels cs !! i = Some c.
Proof.
  revert i. induction cs as [|[l t] cs IH]; intros i; cbn; [discriminate|].
  destruct (decide (l = c)) as [->|Hne].
  - intros [= <-]. reflexivity.
  - destruct (col_index c cs) as [j|]; [|discriminate]. intros [= <-]. cbn. auto.
Qed.

Lemma col_index_is_Some (cs : list (string * dtype)) (c : string) :
  is_Some (col_index c cs) <-> c ∈ labels cs.
Proof.
  induction cs as [|[l t] cs IH]; cbn.
  - split; [intros [? [=]]|intros H; inversion H].
  - destruct (decide (l = c)) as [->|Hne].
    + split; [left|eauto].
    + rewrite elem_of_cons, <- IH. destruct (col_index c cs); cbn.
      * split; eauto.
      * split; [intros [? [=]]|intros [?|[? [=]]]; congruence].
Qed.

Lemma get_not_in (cs : list (string * dtype)) (c : string) (r : row) :
  c ∉ labels cs -> get cs c r = NA.
Proof.
  intros H. unfold get. destruct (col_index c cs) eqn:Hc; [|reflexivity].
  destruct H. apply col_index_is_Some. eauto.
Qed.

Lemma get_cells_where (p : string -> bool) (cs : list (string * dtype))
    (c : string) (r : row) :
  p c = true ->
  get (filter (fun x => p x.1 = true) cs) c (cells_where p cs r) = get cs c r.
Proof.
  intros Hc. revert r. induction cs as [|[l t] cs IH]; intros r.
  - reflexivity.
  - destruct r as [|x r].
    + cbn [cells_where]. rewrite !get_nil. reflexivity.
    + cbn [cells_where]. destruct (p l) eqn:Hl.
      * rewrite filter_cons_True by exact Hl.
        destruct (decide (l = c)) as [->|Hne].
        -- rewrite !get_cons_eq. reflexivity.
        -- rewrite !get_cons_ne by exact Hne. apply IH.
      * rewrite filter_cons_False by (cbn; congruence).
        rewrite get_cons_ne by congruence. apply IH.
Qed.

Lemma get_update_eq (cs : list (string * dtype)) (c : string) (f : cell -> cell)
    (r : row) :
  f NA = NA -> get cs c (update cs c f r) = f (get cs c r).
Proof.
  intros Hf. unfold get, update. destruct (col_index c cs) as [i|]; [|congruence].
  rewrite list_lookup_alter_eq. destruct (r !! i); cbn; congruence.
Qed.

Lemma get_update_ne (cs : list (string * dtype)) (c c' : string) (f : cell -> cell)
    (r : row) :
  c <> c' -> get cs c (update cs c' f r) = get cs c r.
Proof.
  intros Hne. unfold get, update.
  destruct (col_index c cs) as [i|] eqn:Hi; [|reflexivity].
  destruct (col_index c' cs) as [j|] eqn:Hj; [|reflexivity].
  rewrite list_lookup_alter_ne; [reflexivity|].
  intros ->. apply col_index_Some in Hi, Hj. congruence.
Qed.

Lemma labels_filter (p : string -> bool) (cs : list (string * dtype)) (c : string) :
  c ∈ labels (filter (fun x => p x.1 = true) cs) <-> c ∈ labels cs /\ p c = true.
Proof.
  unfold labels. rewrite !list_elem_of_fmap. split.
  - intros ([l t] & -> & [H1 H2]%list_elem_of_filter). split; [|exact H1].
    exists (l, t). auto.
  - intros [([l t] & -> & H1) H2]. exists (l, t). split; [reflexivity|].
    apply list_elem_of_filter. auto.
Qed.

Lemma cells_where_ext (p q : string -> bool) (cs : list (string * dtype)) (r : row) :
  (forall l, l ∈ labels cs -> p l = q l) -> cells_where p cs r = cells_where q cs r.
Proof.
  revert r. induction cs as [|[l t] cs IH]; intros r Hpq; [reflexivity|].
  destruct r as [|x r]; [reflexivity|]. cbn [cells_where].
  rewrite <- (Hpq l) by left. rewrite IH by (intros l' Hl'; apply Hpq; right; exact Hl').
  reflexivity.
Qed.

Lemma filter_columns_ext (p q : string -> bool) (cs : list (string * dtype)) :
  (forall l, l ∈ labels cs -> p l = q l) ->
  filter (fun x => p x.1 = true) cs = filter (fun x => q x.1 = true) cs.
Proof.
  induction cs as [|[l t] cs IH]; intros Hpq; [reflexivity|].
  specialize (IH (fun l' Hl' => Hpq l' (list_elem_of_further _ _ _ Hl'))).
  pose proof (Hpq l (list_elem_of_here _ _)) as Hl. cbn in Hl.
  destruct (p l) eqn:Hp.
  - rewrite !filter_cons_True by (cbn; congruence). f_equal. exact IH.
  - rewrite !filter_cons_False by (cbn; congruence). exact IH.
Qed.

Lemma attr_Ok (c : string) (dat : frame) (s : list cell) :
  attr c dat = Ok s -> s = col c dat /\ c ∈ labels (columns dat).
Proof.
  unfold attr, getitem. destruct (decide (c ∈ _)) as [Hin|]; [|discriminate].
  destruct (decide (_ = 1%nat)); [|discriminate]. intros [= <-]. auto.
Qed.

(** ** The chunk filters, step by step *)

Lemma count_label_pos (c : string) (l : list string) :
  c ∈ l -> (1 <= length (filter (fun x => x = c) l))%nat.
Proof.
  intros H. assert (c ∈ filter (fun x => x = c) l) as H' by (apply list_elem_of_filter; auto).
  destruct (filter _ l); [inversion H'|cbn; lia].
Qed.

Lemma getitem_series (c : string) (dat : frame) :
  c ∈ labels (columns dat) ->
  (length (filter (fun l => l = c) (labels (columns dat))) <= 1)%nat ->
  getitem c dat = Series (col c dat).
Proof.
  intros Hin Hle. unfold getitem. pose proof (count_label_pos c _ Hin).
  rewrite decide_True by lia. reflexivity.
Qed.

Lemma drop_info_frq_eq (a : args) (dat : frame) :
  drop_info_frq a dat
  = Frame (out_columns a (columns dat)) (cells_where (kept_label a) (columns dat) <$> rows dat).
Proof.
  unfold drop_info_frq, drop_columns, out_columns. fold (dropped_labels a).
  assert (forall l, l ∈ labels (columns dat) ->
            bool_decide (l ∉ filter (fun x => x ∈ labels (columns dat)) (dropped_labels a))
            = kept_label a l) as Hext.
  { intros l Hl. unfold kept_label. apply bool_decide_ext.
    rewrite list_elem_of_filter. tauto. }
  f_equal.
  - apply (filter_columns_ext _ _ _ Hext).
  - apply list_fmap_ext. intros _ r _. apply cells_where_ext, Hext.
Qed.

Section steps.
Variables (V : list string) (a : args).

Lemma info_step_mask (dat : frame) (d : gmap string Z) (m : row -> bool) :
  (length (filter (fun l => l = "INFO") (labels (columns dat))) <= 1)%nat ->
  (info_step a dat (d, m <$> rows dat)).2
  = (fun r => m r && (if decide ("INFO" ∈ labels (columns dat))
                      then info_keep a (get (columns dat) "INFO" r) else true))
      <$> rows dat.
Proof.
  intros Hle. unfold info_step.
  destruct (decide ("INFO" ∈ labels (columns dat))) as [Hin|Hnin]; cbn [snd].
  - rewrite (getitem_series _ _ Hin Hle). unfold col.
    rewrite filter_info_series_fmap. apply mand_fmap.
  - apply list_fmap_ext. intros _ r _. rewrite andb_true_r. reflexivity.
Qed.

Lemma frq_step_mask (dat : frame) (d d' : gmap string Z) (m : row -> bool)
    (ii : list bool) :
  frq_step a dat (d, m <$> rows dat) = Ok (d', ii) ->
  ii = (fun r => m r && (if decide ("FRQ" ∈ labels (columns dat))
                         then frq_keep a (get (columns dat) "FRQ" r) else true))
         <$> rows dat.
Proof.
  unfold frq_step, getitem.
  destruct (decide ("FRQ" ∈ labels (columns dat))) as [Hin|Hnin].
  - destruct (decide (_ = 1%nat)); [|discriminate]. intros [= _ <-].
    unfold col. rewrite filter_frq_fmap. apply mand_fmap.
  - intros [= _ <-]. apply list_fmap_ext. intros _ r _. rewrite andb_true_r. reflexivity.
Qed.

Lemma pval_step_mask (cs : list (string * dtype)) (rs : list row) (g : row -> row)
    (d d' : gmap string Z) (m : row -> bool) (ii : list bool) :
  pval_step (Frame cs (g <$> rs)) (d, m <$> rs) = Ok (d', ii) ->
  ii = (fun r => m r && p_keep (get cs "P" (g r))) <$> rs.
Proof.
  unfold pval_step. destruct (attr "P" _) as [P|] eqn:HP; [|discriminate].
  apply attr_Ok in HP as [-> _]. cbn [mbind result_bind]. intros [= _ <-].
  unfold col. cbn [columns rows]. rewrite <- list_fmap_compose, filter_pvals_fmap.
  apply mand_fmap.
Qed.

Lemma upper_column_Ok (c : string) (dat dat' : frame) :
  upper_column c dat = Ok dat' ->
  dat' = Frame (columns dat) (update (columns dat) c str_upper <$> rows dat).
Proof.
  unfold upper_column. destruct (decide _); [|discriminate].
  destruct (decide _); [discriminate|]. intros [= <-]. reflexivity.
Qed.

Lemma allele_step_mask (cs : list (string * dtype)) (rs : list row) (g : row -> row)
    (d d' : gmap string Z) (m : row -> bool) (ii : list bool) (dat' : frame) :
  allele_step V a (Frame cs (g <$> rs)) (d, m <$> rs) = Ok (d', ii, dat') ->
  ii = (fun r => m r && (if no_alleles a then true
                         else alleles_keep V (get cs "A1" (g r)) (get cs "A2" (g r))))
         <$> rs /\
  dat' = Frame cs ((fun r => if no_alleles a then g r
                             else update cs "A2" str_upper (update cs "A1" str_upper (g r)))
                     <$> rs).
Proof.
  unfold allele_step. destruct (no_alleles a).
  - intros [= _ <- <-]. split; [|reflexivity].
    apply list_fmap_ext. intros _ r _. rewrite andb_true_r. reflexivity.
  - destruct (upper_column "A1" _) as [d1|] eqn:H1; [|discriminate].
    apply upper_column_Ok in H1 as ->. cbn [columns rows mbind result_bind].
    destruct (upper_column "A2" _) as [d2|] eqn:H2; [|discriminate].
    apply upper_column_Ok in H2 as ->. cbn [columns rows mbind result_bind].
    destruct (attr "A1" _) as [A1|] eqn:HA1; [|discriminate].
    apply attr_Ok in HA1 as [-> _]. cbn [mbind result_bind].
    destruct (attr "A2" _) as [A2|] eqn:HA2; [|discriminate].
    apply attr_Ok in HA2 as [-> _]. cbn [mbind result_bind].
    intros [= _ <- <-]. unfold col. cbn [columns rows].
    rewrite <- !list_fmap_compose. split; [|reflexivity].
    rewrite zip_with_fmap_l, zip_with_fmap_r, zip_with_diag.
    unfold filter_alleles. rewrite <- list_fmap_compose.
    rewrite mand_fmap. apply list_fmap_ext. intros _ r _. cbn.
    f_equal. unfold alleles_keep. f_equal.
    rewrite get_update_ne by discriminate.
    rewrite !get_update_eq by reflexivity.
    rewrite get_update_ne by discriminate. reflexivity.
Qed.

End steps.

Lemma kept_label_other (a : args) (c : string) :
  c <> "INFO" -> c <> "FRQ" -> kept_label a c = true.
Proof.
  intros H1 H2. unfold kept_label, dropped_labels. apply bool_decide_eq_true.
  destruct (keep_maf a); intros H;
    repeat (apply elem_of_cons in H as [?|H]; [congruence|]); inversion H.
Qed.

Lemma select_nil_iff {A : Type} (p : A -> bool) (l : list A) :
  msum (p <$> l) = 0%Z <-> filter (fun x => p x = true) l = [].
Proof.
  rewrite msum_fmap. destruct (filter _ l) as [|x l']; cbn [length].
  - split; reflexivity.
  - split; [lia|discriminate].
Qed.

Lemma filter_chunk_rows (V : list string) (a : args) (drops drops' : gmap string Z)
    (dat : frame) (res : option frame) :
  (length (filter (fun l => l = "INFO") (labels (columns dat))) <= 1)%nat ->
  filter_chunk V a drops dat = Ok (drops', res) ->
  res = let kept := filter (fun r => keep_row V a (columns dat) r = true) (rows dat) in
        if decide (kept = []) then None
        else Some (Frame (out_columns a (columns dat)) (out_row a (columns dat) <$> kept)).
Proof.
  intros Hinfo. unfold filter_chunk.
  pose proof (info_step_mask a dat drops (fun _ => true) Hinfo) as H1.
  unfold all_true.
  destruct (info_step a dat _) as [d1 ii1]. cbn [snd] in H1. subst ii1.
  destruct (frq_step a dat _) as [[d2 ii2]|] eqn:H2; [|discriminate].
  apply frq_step_mask in H2. subst ii2. cbn [mbind result_bind].
  rewrite drop_info_frq_eq.
  destruct (pval_step _ _) as [[d3 ii3]|] eqn:H3; [|discriminate].
  apply pval_step_mask in H3. subst ii3. cbn [mbind result_bind].
  destruct (allele_step _ _ _ _) as [[[d4 ii4] dat4]|] eqn:H4; [|discriminate].
  apply allele_step_mask in H4 as [-> ->]. cbn [mbind result_bind].
  assert (forall r,
    true && (if decide ("INFO" ∈ labels (columns dat))
             then info_keep a (get (columns dat) "INFO" r) else true)
    && (if decide ("FRQ" ∈ labels (columns dat))
        then frq_keep a (get (columns dat) "FRQ" r) else true)
    && p_keep (get (out_columns a (columns dat)) "P"
                 (cells_where (kept_label a) (columns dat) r))
    && (if no_alleles a then true
        else alleles_keep V
               (get (out_columns a (columns dat)) "A1"
                  (cells_where (kept_label a) (columns dat) r))
               (get (out_columns a (columns dat)) "A2"
                  (cells_where (kept_label a) (columns dat) r)))
    = keep_row V a (columns dat) r) as Hkeep.
  { intros r. unfold keep_row, out_columns.
    rewrite !get_cells_where by (apply kept_label_other; discriminate).
    reflexivity. }
  rewrite (list_fmap_ext _ _ (rows dat) (fun _ r _ => Hkeep r)).
  cbv zeta.
  destruct (decide (msum _ = 0%Z)) as [Hz|Hnz].
  - intros [= _ <-]. apply select_nil_iff in Hz. rewrite decide_True by exact Hz.
    reflexivity.
  - intros [= _ <-]. rewrite select_nil_iff in Hnz. rewrite decide_False by exact Hnz.
    unfold take_rows. cbn [columns rows]. rewrite select_fmap_fmap. reflexivity.
Qed.
Lemma filter_nil_intro {A : Type} (P : A -> Prop) `{forall x, Decision (P x)} (l : list A) :
  (forall x, x ∈ l -> ~ P x) -> filter P l = [].
Proof.
  intros Hl. destruct (filter P l) as [|y l'] eqn:Hf; [reflexivity|].
  assert (y ∈ filter P l) as [Hy Hin]%list_elem_of_filter by (rewrite Hf; left).
  destruct (Hl y Hin Hy).
Qed.

Lemma NoDup_count_le {A : Type} `{EqDecision A} (c : A) (l : list A) :
  NoDup l -> (length (filter (fun x => x = c) l) <= 1)%nat.
Proof.
  induction 1 as [|x l Hx Hl IH]; [cbn; lia|].
  destruct (decide (x = c)) as [->|Hne].
  - rewrite filter_cons_True by reflexivity.
    assert (filter (fun x => x = c) l = []) as ->; [|cbn; lia].
    destruct (filter _ l) as [|y l'] eqn:Hf; [reflexivity|].
    assert (y ∈ filter (fun x => x = c) l) as [-> Hy]%list_elem_of_filter
      by (rewrite Hf; left).
    contradiction.
  - rewrite filter_cons_False by exact Hne. exact IH.
Qed.

Lemma numeric_label_count (dat : frame) (c : string) :
  numeric_labels_unique dat -> c ∈ numeric_cols ->
  (length (filter (fun l => l = c) (labels (columns dat))) <= 1)%nat.
Proof.
  intros Hu Hc. unfold numeric_labels_unique in Hu.
  apply (NoDup_count_le c) in Hu. rewrite list_filter_filter in Hu.
  erewrite list_filter_iff; [exact Hu|].
  intros x. split; [intros ->; auto|tauto].
Qed.

Lemma parse_chunk_rows (V : list string) (cc : odict) (alleles : list (cell * cell))
    (a : args) (drops drops' : gmap string Z) (dat : frame) (res : option frame) :
  parse_chunk V cc alleles a drops dat = Ok (drops', res) ->
  exists cs,
    rename_columns cc (columns dat) = Ok cs /\
    numeric_labels_unique (Frame cs []) /\
    wrong_types (Frame cs []) = [] /\
    res = let kept := filter (fun r => chunk_keep V alleles a (columns dat) cs r = true)
                             (rows dat) in
          if decide (kept = []) then None
          else Some (Frame (out_columns a cs) (out_row a cs <$> kept)).
Proof.
  unfold parse_chunk, na_filter, dropna. cbn [columns rows].
  destruct (rename_columns cc (columns dat)) as [cs|] eqn:Hcs; [|discriminate].
  cbn [mbind result_bind]. fold (na_keep (columns dat)).
  destruct (decide (numeric_labels_unique _)) as [Hu|]; [|discriminate].
  destruct (decide (wrong_types _ = [])) as [Hw|]; [|discriminate].
  intros H. exists cs. split; [reflexivity|]. split; [exact Hu|]. split; [exact Hw|].
  assert (forall rs, (length (filter (fun l => l = "INFO") (labels (columns (Frame cs rs)))) <= 1)%nat)
    as Hinfo.
  { intros rs. apply (numeric_label_count (Frame cs [])); [exact Hu|].
    unfold numeric_cols. set_solver. }
  cbv zeta. unfold chunk_keep, panel_keep.
  destruct (merge_alleles a).
  - destruct (attr "SNP" _) as [SNP|] eqn:HS; [|discriminate].
    apply attr_Ok in HS as [-> _]. cbn [mbind result_bind] in H.
    unfold col, isin in H. cbn [columns rows] in H.
    rewrite <- list_fmap_compose in H.
    destruct (decide (msum _ = 0%Z)) as [Hz|Hnz].
    + injection H as _ <-. apply select_nil_iff in Hz.
      rewrite decide_True; [reflexivity|].
      rewrite list_filter_filter in Hz.
      apply filter_nil_intro. intros r Hr Hkeep.
      apply andb_true_iff in Hkeep as [[Hna Hp]%andb_true_iff _].
      assert (r ∈ @nil row) as Hnil; [|inversion Hnil].
      rewrite <- Hz. apply list_elem_of_filter. auto.
    + apply filter_chunk_rows in H; [|apply Hinfo]. subst res.
      unfold take_rows. cbn [columns rows]. rewrite select_fmap, !list_filter_filter.
      erewrite list_filter_iff; [reflexivity|].
      intros r. cbn. rewrite !andb_true_iff. tauto.
  - apply filter_chunk_rows in H; [|apply Hinfo]. subst res.
    cbn [columns rows]. rewrite !list_filter_filter.
    erewrite list_filter_iff; [reflexivity|].
    intros r. cbn. rewrite !andb_true_iff. tauto.
Qed.

(** ** The chunk loop *)

Lemma parse_chunk_chunk_rows (V : list string) (cc : odict) (alleles : list (cell * cell))
    (a : args) (drops drops' : gmap string Z) (dat : frame) (res : option frame) :
  parse_chunk V cc alleles a drops dat = Ok (drops', res) ->
  match res with
  | Some d => rows d = chunk_rows V cc alleles a dat /\ rows d <> []
  | None => chunk_rows V cc alleles a dat = []
  end.
Proof.
  intros (cs & Hcs & _ & _ & ->)%parse_chunk_rows. unfold chunk_rows. rewrite Hcs.
  cbv zeta. destruct (decide (filter _ _ = [])) as [->|Hne]; [reflexivity|].
  cbn [rows]. split; [reflexivity|].
  destruct (filter _ (rows dat)); [congruence|discriminate].
Qed.

Lemma parse_loop_rows (V : list string) (cc : odict) (alleles : list (cell * cell))
    (a : args) (dat_gen : list frame) (st st' : loop_state) :
  parse_loop V cc alleles a dat_gen st = Ok st' ->
  Forall (fun d => rows d <> []) (dat_list st) ->
  Forall (fun d => rows d <> []) (dat_list st') /\
  concat (rows <$> dat_list st')
  = (concat (rows <$> dat_list st) ++ concat (chunk_rows V cc alleles a <$> dat_gen))%list /\
  tot_snps st' = (tot_snps st + Z.of_nat (length (concat (rows <$> dat_gen))))%Z.
Proof.
  revert st. induction dat_gen as [|dat dat_gen IH]; intros st; cbn [parse_loop].
  - intros [= <-] Hne. cbn. rewrite app_nil_r. split; [exact Hne|]. split; [reflexivity|lia].
  - destruct (parse_chunk V cc alleles a (drops st) dat) as [[d' res]|] eqn:Hc; [|discriminate].
    cbn [mbind result_bind]. intros H Hne. apply parse_chunk_chunk_rows in Hc.
    apply IH in H as (H1 & H2 & H3); cbn [dat_list tot_snps] in *.
    + split; [exact H1|]. split.
      * rewrite H2. rewrite fmap_cons. cbn [concat]. destruct res as [d|].
        -- destruct Hc as [Hc _]. rewrite fmap_app, concat_app. cbn. rewrite app_nil_r, Hc.
           rewrite <- app_assoc. reflexivity.
        -- rewrite Hc. reflexivity.
      * rewrite H3. rewrite fmap_cons. cbn [concat]. rewrite length_app. unfold len. lia.
    + destruct res as [d|]; [|exact Hne]. apply Forall_app. split; [exact Hne|].
      constructor; [apply Hc|constructor].
Qed.

(** What [parse_dat] returns: the surviving rows of the chunks, in the order
    of the chunks, and never an empty table. *)
Lemma parse_dat_rows (V : list string) (cc : odict) (alleles : list (cell * cell))
    (a : args) (dat_gen : list frame) (dat : frame) (st : loop_state) :
  parse_dat V dat_gen cc alleles a = Ok (dat, st) ->
  rows dat = concat (chunk_rows V cc alleles a <$> dat_gen) /\ rows dat <> [].
Proof.
  unfold parse_dat.
  destruct (parse_loop _ _ _ _ _ _) as [st'|] eqn:Hl; [|discriminate].
  cbn [mbind result_bind]. apply parse_loop_rows in Hl as (Hne & Hrows & _); [|constructor].
  cbn in Hrows. unfold pd_concat. destruct (dat_list st') as [|d ds] eqn:Hd; [discriminate|].
  cbn [mbind result_bind]. intros [= <- <-]. cbn [rows]. split; [exact Hrows|].
  inversion Hne as [|? ? Hd0 _]; subst. cbn. destruct (rows d); [congruence|discriminate].
Qed.

(** The check of line 636 never fires: [parse_dat] either fails or returns
    at least one row. *)
Lemma empty_check_unreachable (V : list string) (cc : odict)
    (alleles : list (cell * cell)) (a : args) (dat_gen : list frame) (dat : frame)
    (st : loop_state) :
  parse_dat V dat_gen cc alleles a = Ok (dat, st) -> len dat <> 0%Z.
Proof.
  intros [_ Hne]%parse_dat_rows. unfold len. destruct (rows dat); [congruence|cbn; lia].
Qed.
(** ** The errors of the filter pass *)

Lemma attr_Err (c : string) (dat : frame) (e : error) :
  attr c dat = Err e -> e <> NoSNPsRemain.
Proof.
  unfold attr. destruct (decide _); [destruct (getitem c dat)|]; intros [= <-]; discriminate.
Qed.

Lemma upper_column_Err (c : string) (dat : frame) (e : error) :
  upper_column c dat = Err e -> e <> NoSNPsRemain.
Proof.
  unfold upper_column. repeat destruct (decide _); intros [= <-]; discriminate.
Qed.

Lemma rename_columns_Err (cc : odict) (cs : list (string * dtype)) (e : error) :
  rename_columns cc cs = Err e -> e <> NoSNPsRemain.
Proof.
  induction cs as [|[l t] cs IH]; cbn; [discriminate|].
  destruct (od_get l cc); [|intros [= <-]; discriminate].
  destruct (rename_columns cc cs); cbn; [discriminate|]. intros [= <-]. apply IH. reflexivity.
Qed.

Lemma filter_chunk_Err (V : list string) (a : args) (drops : gmap string Z)
    (dat : frame) (e : error) :
  filter_chunk V a drops dat = Err e -> e <> NoSNPsRemain.
Proof.
  unfold filter_chunk.
  destruct (frq_step a dat _) as [[d2 ii2]|e2] eqn:H2; cbn [mbind result_bind].
  2:{ intros [= <-]. revert H2. unfold frq_step. destruct (info_step _ _ _).
      destruct (decide _); [destruct (getitem _ _)|]; intros [= <-]; discriminate. }
  destruct (pval_step _ _) as [[d3 ii3]|e3] eqn:H3; cbn [mbind result_bind].
  2:{ intros [= <-]. revert H3. unfold pval_step.
      destruct (attr "P" _) eqn:HP; cbn [mbind result_bind]; [discriminate|].
      intros [= <-]. eapply attr_Err, HP. }
  destruct (allele_step _ _ _ _) as [[[d4 ii4] dat4]|e4] eqn:H4; cbn [mbind result_bind].
  - destruct (decide _); discriminate.
  - intros [= <-]. revert H4. unfold allele_step. destruct (no_alleles a); [discriminate|].
    destruct (upper_column "A1" _) eqn:H1; cbn [mbind result_bind];
      [|intros [= <-]; eapply upper_column_Err, H1].
    destruct (upper_column "A2" _) eqn:H5; cbn [mbind result_bind];
      [|intros [= <-]; eapply upper_column_Err, H5].
    destruct (attr "A1" _) eqn:H6; cbn [mbind result_bind];
      [|intros [= <-]; eapply attr_Err, H6].
    destruct (attr "A2" _) eqn:H7; cbn [mbind result_bind];
      [|intros [= <-]; eapply attr_Err, H7].
    discriminate.
Qed.

Lemma parse_chunk_Err (V : list string) (cc : odict) (alleles : list (cell * cell))
    (a : args) (drops : gmap string Z) (dat : frame) (e : error) :
  parse_chunk V cc alleles a drops dat = Err e -> e <> NoSNPsRemain.
Proof.
  unfold parse_chunk.
  destruct (rename_columns _ _) eqn:Hr; cbn [mbind result_bind];
    [|intros [= <-]; eapply rename_columns_Err, Hr].
  destruct (decide _); [|intros [= <-]; discriminate].
  destruct (decide _); [|intros [= <-]; discriminate].
  destruct (merge_alleles a); [|apply filter_chunk_Err].
  destruct (attr "SNP" _) eqn:HS; cbn [mbind result_bind];
    [|intros [= <-]; eapply attr_Err, HS].
  destruct (decide _); [discriminate|apply filter_chunk_Err].
Qed.

Lemma parse_dat_Err (V : list string) (cc : odict) (alleles : list (cell * cell))
    (a : args) (dat_gen : list frame) (e : error) :
  parse_dat V dat_gen cc alleles a = Err e -> e <> NoSNPsRemain.
Proof.
  unfold parse_dat.
  destruct (parse_loop _ _ _ _ _ _) as [st'|e'] eqn:Hl; cbn [mbind result_bind].
  - destruct (pd_concat _) eqn:Hc; cbn [mbind result_bind]; [discriminate|].
    intros [= <-]. unfold pd_concat in Hc. destruct (dat_list st'); [|discriminate].
    injection Hc as <-. discriminate.
  - intros [= <-]. revert Hl. generalize (LoopState 0 [] drops0).
    induction dat_gen as [|dat dat_gen IH]; intros st; cbn [parse_loop]; [discriminate|].
    destruct (parse_chunk _ _ _ _ _ _) as [[d' res]|e''] eqn:Hc; cbn [mbind result_bind].
    + apply IH.
    + intros [= <-]. eapply parse_chunk_Err, Hc.
Qed.

(** The "After applying filters, no SNPs remain." error is never raised. *)
Lemma no_snps_remain_unreachable (V : list string) (cc : odict)
    (alleles : list (cell * cell)) (a : args) (dat_gen : list frame) :
  read_and_filter V dat_gen cc alleles a <> Err NoSNPsRemain.
Proof.
  unfold read_and_filter.
  destruct (parse_dat _ _ _ _ _) as [[dat st]|e] eqn:Hp; cbn [mbind result_bind].
  - apply empty_check_unreachable in Hp. cbn [fst]. rewrite decide_False by exact Hp.
    discriminate.
  - intros [= ->]. eapply parse_dat_Err; [exact Hp|reflexivity].
Qed.

(** When no row of any chunk survives, the run ends in the error that
    [pd.concat] raises on an empty list. *)
Lemma no_survivor_concat_error (V : list string) (cc : odict)
    (alleles : list (cell * cell)) (a : args) (dat_gen : list frame) (st : loop_state) :
  parse_loop V cc alleles a dat_gen (LoopState 0 [] drops0) = Ok st ->
  concat (chunk_rows V cc alleles a <$> dat_gen) = [] ->
  read_and_filter V dat_gen cc alleles a = Err NoObjectsToConcatenate.
Proof.
  intros Hl Hnone. unfold read_and_filter, parse_dat. rewrite Hl. cbn [mbind result_bind].
  apply parse_loop_rows in Hl as (Hne & Hrows & _); [|constructor].
  cbn in Hrows. rewrite Hnone in Hrows.
  destruct (dat_list st) as [|d ds]; [reflexivity|]. exfalso.
  inversion Hne as [|? ? Hd _]; subst. cbn in Hrows.
  apply app_eq_nil in Hrows as [? _]. contradiction.
Qed.
(** ** The NA filter and the header of the INFO column *)

(** C2, at the failing input.  In the file [SNP P A1 A2 N BETA info] the
    header [info] resolves to INFO, and the record whose only missing value
    is its [info] is removed by the NA filter and counted under "NA".  With
    the header written [INFO] the NA filter keeps the record. *)
Theorem na_filter_exempts_only_the_header_INFO :
  od_get "info" (default_translation (labels header_info)) = Some "INFO" /\
  rows (na_filter chunk_info) = [row_info_present] /\
  (res ← parse_dat VALID_SNPS_spec [chunk_info]
           (default_translation (labels header_info)) [] args0;
   Ok (drops res.2 !! "NA", drops res.2 !! "INFO")) = Ok (Some 1%Z, Some 0%Z) /\
  rows (na_filter chunk_INFO) = [row_info_present; row_info_missing] /\
  (res ← parse_dat VALID_SNPS_spec [chunk_INFO]
           (default_translation (labels header_INFO)) [] args0;
   Ok (drops res.2 !! "NA", drops res.2 !! "INFO")) = Ok (Some 0%Z, Some 1%Z).
Proof. repeat split; by_evaluation. Qed.

(** The NA filter in general: a row stays exactly when it has a value in
    every column whose raw header is not the string "INFO". *)
Lemma na_filter_rows (dat : frame) (r : row) :
  r ∈ rows (na_filter dat) <-> r ∈ rows dat /\ na_keep (columns dat) r = true.
Proof.
  unfold na_filter, dropna, na_keep. cbn [rows]. rewrite list_elem_of_filter. tauto.
Qed.

(** C6, at the failing input.  The only record of the file has P = 2, so no
    row survives the filter pass; the run ends in the [ValueError] of
    [pd.concat] on an empty list, not in "After applying filters, no SNPs
    remain." *)
Theorem no_surviving_row_raises_concat_error :
  chunk_rows VALID_SNPS_spec (default_translation (labels header_plain)) [] args0 chunk_bad_p
  = [] /\
  read_and_filter VALID_SNPS_spec [chunk_bad_p]
    (default_translation (labels header_plain)) [] args0
  = Err NoObjectsToConcatenate /\
  read_and_filter VALID_SNPS_spec []
    (default_translation (labels header_plain)) [] args0
  = Err NoObjectsToConcatenate.
Proof. repeat split; by_evaluation. Qed.
(** ** The FRQ filter *)

Lemma lt_Fin (x y : Qc) : Num.lt (Fin x) (Fin y) = true <-> (x < y)%Qc.
Proof.
  cbn. change (x < y)%Qc with ((x ?= y)%Qc = Lt).
  destruct (x ?= y)%Qc; split; congruence.
Qed.

Lemma lt_Fin_false (x y : Qc) : Num.lt (Fin x) (Fin y) = false <-> (y <= x)%Qc.
Proof.
  rewrite <- not_true_iff_false, lt_Fin. split.
  - apply Qcnot_lt_le.
  - intros H1 H2. exact (Qcle_not_lt _ _ H1 H2).
Qed.

(** A frequency passes [filter_frq] only if it is a finite number of
    [[0, 1]] whose folded form exceeds [maf_min]. *)
Lemma frq_keep_inv (a : args) (x : cell) :
  frq_keep a x = true ->
  exists f : Qc,
    x = Num (Fin f) /\ (0 <= f)%Qc /\ (f <= 1)%Qc /\
    Num.lt (maf_min a) (Num.minimum (Fin f) (Num.sub Num.one (Fin f))) = true.
Proof.
  unfold frq_keep. intros [Hmaf Hjj]%andb_true_iff.
  apply negb_true_iff, orb_false_iff in Hjj as [H0 H1].
  destruct x as [s|[f| | |]]; cbn [to_num] in *.
  - destruct (maf_min a); discriminate.
  - exists f. split; [reflexivity|]. split; [|split].
    + apply lt_Fin_false in H0. exact H0.
    + apply lt_Fin_false in H1. exact H1.
    + exact Hmaf.
  - discriminate.
  - discriminate.
  - destruct (maf_min a); discriminate.
Qed.

Lemma out_row_get (a : args) (cs : list (string * dtype)) (c : string) (r : row) :
  c <> "A1" -> c <> "A2" -> kept_label a c = true ->
  get (out_columns a cs) c (out_row a cs r) = get cs c r.
Proof.
  intros H1 H2 Hk. unfold out_row. destruct (no_alleles a).
  - apply get_cells_where. exact Hk.
  - rewrite !get_update_ne by congruence. apply get_cells_where. exact Hk.
Qed.

(** Where a row of the result comes from. *)
Lemma parse_dat_row_origin (V : list string) (cc : odict) (alleles : list (cell * cell))
    (a : args) (dat_gen : list frame) (dat : frame) (st : loop_state) (r : row) :
  parse_dat V dat_gen cc alleles a = Ok (dat, st) -> r ∈ rows dat ->
  exists chunk cs r0,
    chunk ∈ dat_gen /\ rename_columns cc (columns chunk) = Ok cs /\
    r0 ∈ rows chunk /\ chunk_keep V alleles a (columns chunk) cs r0 = true /\
    r = out_row a cs r0.
Proof.
  intros [Hrows _]%parse_dat_rows Hr. rewrite Hrows in Hr.
  apply list_elem_of_In, in_concat in Hr as (l & Hl & Hr).
  apply list_elem_of_In in Hl, Hr.
  apply list_elem_of_fmap in Hl as (chunk & -> & Hchunk).
  unfold chunk_rows in Hr.
  destruct (rename_columns cc (columns chunk)) as [cs|] eqn:Hcs; [|inversion Hr].
  apply list_elem_of_fmap in Hr as (r0 & -> & [Hkeep Hr0]%list_elem_of_filter).
  exists chunk, cs, r0. auto.
Qed.

(** The mask of [filter_frq] is true only at a finite frequency of [[0, 1]]
    whose folded form exceeds [maf_min]. *)
Lemma filter_frq_true (a : args) (frq : list cell) (i : nat) :
  filter_frq frq a !! i = Some true ->
  exists f : Qc,
    frq !! i = Some (Num (Fin f)) /\ (0 <= f)%Qc /\ (f <= 1)%Qc /\
    Num.lt (maf_min a) (Num.minimum (Fin f) (Num.sub Num.one (Fin f))) = true.
Proof.
  rewrite <- (list_fmap_id frq) at 1. rewrite filter_frq_fmap, list_lookup_fmap.
  destruct (frq !! i) as [x|]; [|discriminate]. cbn. intros [= Hx].
  apply frq_keep_inv in Hx as (f & -> & H). exists f. auto.
Qed.

(** C1 (as amended).  The mask of the FRQ filter is true only at a frequency
    of [[0, 1]] with [min(FRQ, 1 - FRQ) > maf_min].  Every row that
    [parse_dat] returns comes from a row of a chunk whose FRQ, when the file
    has such a column, is such a number.  With [--keep-maf] the FRQ stored
    in the returned row is that same number, as read; without it the
    returned frame has no FRQ column. *)
Theorem frq_filter_retained_rows (V : list string) (cc : odict)
    (alleles : list (cell * cell)) (a : args) (dat_gen : list frame) (dat : frame)
    (st : loop_state) (r : row) :
  parse_dat V dat_gen cc alleles a = Ok (dat, st) -> r ∈ rows dat ->
  (forall frq i, filter_frq frq a !! i = Some true ->
     exists f : Qc,
       frq !! i = Some (Num (Fin f)) /\ (0 <= f)%Qc /\ (f <= 1)%Qc /\
       Num.lt (maf_min a) (Num.minimum (Fin f) (Num.sub Num.one (Fin f))) = true) /\
  exists chunk cs r0,
    chunk ∈ dat_gen /\ rename_columns cc (columns chunk) = Ok cs /\
    r0 ∈ rows chunk /\ r = out_row a cs r0 /\
    ("FRQ" ∈ labels cs ->
     exists f : Qc,
       get cs "FRQ" r0 = Num (Fin f) /\ (0 <= f)%Qc /\ (f <= 1)%Qc /\
       Num.lt (maf_min a) (Num.minimum (Fin f) (Num.sub Num.one (Fin f))) = true /\
       (keep_maf a = true -> get (out_columns a cs) "FRQ" r = Num (Fin f)) /\
       (keep_maf a = false -> "FRQ" ∉ labels (out_columns a cs))).
Proof.
  intros Hp Hr. split; [intros frq i; apply filter_frq_true|].
  destruct (parse_dat_row_origin _ _ _ _ _ _ _ _ Hp Hr)
    as (chunk & cs & r0 & Hchunk & Hcs & Hr0 & Hkeep & ->).
  exists chunk, cs, r0. do 4 (split; [assumption || reflexivity|]).
  intros Hfrq. unfold chunk_keep, keep_row in Hkeep.
  apply andb_true_iff in Hkeep as [_ Hkeep].
  apply andb_true_iff in Hkeep as [Hkeep _].
  apply andb_true_iff in Hkeep as [Hkeep _].
  apply andb_true_iff in Hkeep as [_ Hkeep].
  rewrite decide_True in Hkeep by exact Hfrq.
  apply frq_keep_inv in Hkeep as (f & Hf & H0 & H1 & Hmaf).
  exists f. do 4 (split; [assumption|]). split.
  - intros Hk. rewrite out_row_get; [exact Hf|discriminate|discriminate|].
    unfold kept_label, dropped_labels. rewrite Hk. reflexivity.
  - intros Hk. unfold out_columns. rewrite labels_filter. intros [_ H].
    unfold kept_label, dropped_labels in H. rewrite Hk in H. discriminate H.
Qed.

(** C1, counterexample.  With [--keep-maf], the record with FRQ = 0.8 is
    retained (its folded frequency 0.2 exceeds 0.01) and the FRQ stored in
    the result is 0.8, which is neither the folded value nor at most 0.5. *)
Lemma frq_stored_unfolded :
  (res ← parse_dat VALID_SNPS_spec [chunk_frq]
           (default_translation (labels header_frq)) [] args_keep_maf;
   Ok (col "FRQ" res.1)) = Ok [Num (Num.frac 4 5)] /\
  Num.minimum (Num.frac 4 5) (Num.sub Num.one (Num.frac 4 5)) = Num.frac 1 5 /\
  Num.frac 4 5 <> Num.frac 1 5 /\
  Num.le (Num.frac 4 5) (Num.frac 1 2) = false.
Proof. repeat split; by_evaluation. Qed.

Lemma frq_filter_retained_rows_witness :
  (forall frq i, filter_frq frq args_keep_maf !! i = Some true ->
     exists f : Qc,
       frq !! i = Some (Num (Fin f)) /\ (0 <= f)%Qc /\ (f <= 1)%Qc /\
       Num.lt (maf_min args_keep_maf)
              (Num.minimum (Fin f) (Num.sub Num.one (Fin f))) = true) /\
  exists chunk cs r0,
    chunk ∈ [chunk_frq] /\
    rename_columns (default_translation (labels header_frq)) (columns chunk) = Ok cs /\
    r0 ∈ rows chunk /\ row_frq_out = out_row args_keep_maf cs r0 /\
    ("FRQ" ∈ labels cs ->
     exists f : Qc,
       get cs "FRQ" r0 = Num (Fin f) /\ (0 <= f)%Qc /\ (f <= 1)%Qc /\
       Num.lt (maf_min args_keep_maf)
              (Num.minimum (Fin f) (Num.sub Num.one (Fin f))) = true /\
       (keep_maf args_keep_maf = true ->
        get (out_columns args_keep_maf cs) "FRQ" row_frq_out = Num (Fin f)) /\
       (keep_maf args_keep_maf = false ->
        "FRQ" ∉ labels (out_columns args_keep_maf cs))).
Proof.
  apply (frq_filter_retained_rows VALID_SNPS_spec
           (default_translation (labels header_frq)) [] args_keep_maf [chunk_frq]
           parsed_frq.1 parsed_frq.2 row_frq_out).
  - vm_compute. reflexivity.
  - vm_compute. left.
Defined.
(** ** Sample size from case and control counts *)

Lemma Qc_compare_eq (x y : Qc) : (x ?= y)%Qc = Eq <-> x = y.
Proof.
  split.
  - intros H. apply Qc_is_canon. apply Qeq_alt. exact H.
  - intros ->. apply Qeq_alt. reflexivity.
Qed.


Lemma eq_Fin (x y : Qc) : Num.eq (Fin x) (Fin y) = true <-> x = y.
Proof.
  cbn. rewrite <- Qc_compare_eq. destruct (x ?= y)%Qc; split; congruence.
Qed.

Lemma dropnan_Fin {A : Type} (f : A -> Qc) (l : list A) :
  dropnan ((fun x => Num (Fin (f x))) <$> l) = (fun x => Fin (f x)) <$> l.
Proof.
  unfold dropnan. rewrite <- list_fmap_compose.
  induction l as [|x l IH]; [reflexivity|].
  rewrite !fmap_cons, filter_cons_True by reflexivity. f_equal. exact IH.
Qed.

Lemma foldl_maximum_Fin (m : Qc) (qs : list Qc) (q0 : Qc) :
  (q0 <= m)%Qc -> (forall q, q ∈ qs -> (q <= m)%Qc) -> q0 = m \/ m ∈ qs ->
  foldl Num.maximum (Fin q0) (Fin <$> qs) = Fin m.
Proof.
  revert q0. induction qs as [|q qs IH]; intros q0 H0 Hle Hm.
  - destruct Hm as [->|Hm]; [reflexivity|inversion Hm].
  - rewrite fmap_cons. cbn [foldl]. unfold Num.maximum at 2.
    assert (q <= m)%Qc as Hq by (apply Hle; left).
    assert (forall q', q' ∈ qs -> (q' <= m)%Qc) as Hle'
      by (intros q' Hq'; apply Hle; right; exact Hq').
    destruct (Num.lt (Fin q0) (Fin q)) eqn:Hlt.
    + apply IH; [exact Hq|exact Hle'|].
      destruct Hm as [->|[->|Hm]%elem_of_cons]; auto.
      apply lt_Fin in Hlt. destruct (Qcle_not_lt _ _ Hq Hlt).
    + apply IH; [exact H0|exact Hle'|].
      destruct Hm as [->|[->|Hm]%elem_of_cons]; auto.
      apply lt_Fin_false in Hlt. left. apply Qcle_antisym; assumption.
Qed.

Lemma series_max_Fin {A : Type} (f : A -> Qc) (l : list A) (x : A) :
  x ∈ l -> (forall y, y ∈ l -> (f y <= f x)%Qc) ->
  series_max ((fun y => Num (Fin (f y))) <$> l) = Fin (f x).
Proof.
  intros Hx Hle. unfold series_max. rewrite dropnan_Fin.
  destruct l as [|y l]; [inversion Hx|]. rewrite fmap_cons.
  change ((fun y => Fin (f y)) <$> l) with ((Fin ∘ f) <$> l).
  rewrite (list_fmap_compose f Fin l).
  apply foldl_maximum_Fin.
  - apply Hle. left.
  - intros q (z & -> & Hz)%list_elem_of_fmap. apply Hle. right. exact Hz.
  - apply elem_of_cons in Hx as [->|Hx]; [left; reflexivity|right].
    apply list_elem_of_fmap. eauto.
Qed.

(** ** Columns set and dropped by [process_n] *)

Lemma labels_alter (f : string * dtype -> string * dtype) (i : nat)
    (cs : list (string * dtype)) :
  (forall x, (f x).1 = x.1) -> labels (alter f i cs) = labels cs.
Proof.
  intros Hf. unfold labels. revert i. induction cs as [|x cs IH]; intros [|i]; cbn;
    try reflexivity.
  - rewrite Hf. reflexivity.
  - f_equal. apply IH.
Qed.

Lemma col_index_labels (c : string) (cs cs' : list (string * dtype)) :
  labels cs = labels cs' -> col_index c cs = col_index c cs'.
Proof.
  revert cs'. induction cs as [|[l t] cs IH]; intros [|[l' t'] cs']; cbn;
    try discriminate; [reflexivity|].
  intros [= -> H]. rewrite (IH cs' H). reflexivity.
Qed.

Lemma col_index_lt (c : string) (cs : list (string * dtype)) (i : nat) :
  col_index c cs = Some i -> (i < length cs)%nat.
Proof.
  intros H%col_index_Some. apply lookup_lt_Some in H. unfold labels in H.
  rewrite length_fmap in H. exact H.
Qed.

Lemma col_index_app_new (c : string) (cs : list (string * dtype)) (t : dtype) :
  col_index c cs = None -> col_index c (cs ++ [(c, t)]) = Some (length cs).
Proof.
  induction cs as [|[l t'] cs IH]; cbn.
  - intros _. rewrite decide_True by reflexivity. reflexivity.
  - destruct (decide (l = c)); [discriminate|].
    destruct (col_index c cs); [discriminate|]. intros _. rewrite IH by reflexivity.
    reflexivity.
Qed.

Lemma labels_set_column (c : string) (s : list cell) (dat : frame) (l : string) :
  l ∈ labels (columns (set_column c s dat)) <-> l = c \/ l ∈ labels (columns dat).
Proof.
  unfold set_column. destruct (col_index c (columns dat)) as [i|] eqn:Hi; cbn [columns].
  - rewrite labels_alter by reflexivity. split; [auto|].
    intros [->|H]; [|exact H]. apply col_index_is_Some. eauto.
  - unfold labels. rewrite fmap_app, elem_of_app. cbn.
    rewrite list_elem_of_singleton. tauto.
Qed.

Lemma col_set_column (c : string) (s : list cell) (dat : frame) :
  well_shaped dat -> length s = length (rows dat) ->
  col c (set_column c s dat) = s.
Proof.
  unfold well_shaped, col, set_column. intros Hwf.
  destruct (col_index c (columns dat)) as [i|] eqn:Hi; cbn [columns rows].
  - pose proof (col_index_lt _ _ _ Hi) as Hlt.
    assert (forall r, get (alter (fun x => (x.1, DNumber)) i (columns dat)) c r
                      = default NA (r !! i)) as Hget.
    { intros r. unfold get.
      rewrite (col_index_labels c _ (columns dat)) by (apply labels_alter; reflexivity).
      rewrite Hi. reflexivity. }
    rewrite (list_fmap_ext _ _ _ (fun _ r _ => Hget r)).
    revert s. induction Hwf as [|r rs Hr _ IH]; intros [|x s]; cbn; try discriminate;
      [reflexivity|].
    intros [= Hlen]. rewrite list_lookup_insert_eq by lia. cbn. f_equal. apply IH, Hlen.
  - assert (forall r, get (columns dat ++ [(c, DNumber)])%list c r
                      = default NA (r !! length (columns dat))) as Hget.
    { intros r. unfold get. rewrite col_index_app_new by exact Hi. reflexivity. }
    rewrite (list_fmap_ext _ _ _ (fun _ r _ => Hget r)).
    revert s. induction Hwf as [|r rs Hr _ IH]; intros [|x s]; cbn; try discriminate;
      [reflexivity|].
    intros [= Hlen]. rewrite lookup_app_r by lia. rewrite Hr, Nat.sub_diag. cbn.
    f_equal. apply IH, Hlen.
Qed.

Lemma col_drop_columns (c : string) (cs : list string) (dat : frame) :
  c ∉ cs -> col c (drop_columns cs dat) = col c dat.
Proof.
  intros Hc. unfold col, drop_columns. cbn [columns rows].
  rewrite <- list_fmap_compose. apply list_fmap_ext. intros _ r _. cbn.
  apply (get_cells_where (not_among cs)).
  apply bool_decide_eq_true. exact Hc.
Qed.

Lemma labels_drop_columns (cs : list string) (dat : frame) (l : string) :
  l ∈ labels (columns (drop_columns cs dat)) <-> l ∈ labels (columns dat) /\ l ∉ cs.
Proof.
  unfold drop_columns. cbn [columns].
  rewrite (labels_filter (not_among cs)). unfold not_among.
  rewrite bool_decide_eq_true. reflexivity.
Qed.

Lemma col_take_rows (c : string) (ii : list bool) (dat : frame) :
  col c (take_rows ii dat) = select ii (col c dat).
Proof.
  unfold col, take_rows. cbn [columns rows]. generalize (rows dat) as rs.
  induction ii as [|b ii IH]; intros [|r rs]; try reflexivity.
  rewrite fmap_cons. cbn [select]. destruct b.
  - rewrite fmap_cons, IH. reflexivity.
  - apply IH.
Qed.

Lemma length_case_control_n (N_CAS N_CON : list cell) :
  length N_CAS = length N_CON -> length (case_control_n N_CAS N_CON) = length N_CAS.
Proof.
  intros H. unfold case_control_n. rewrite !length_zip_with. lia.
Qed.

(** ** The left join on the panel *)

Lemma filter_key_NoDup {A K : Type} `{EqDecision K} (f : A -> K) (k : K) (l : list A) :
  NoDup (f <$> l) -> (length (filter (fun x => f x = k) l) <= 1)%nat.
Proof.
  induction l as [|x l IH]; [cbn; lia|].
  rewrite fmap_cons. intros [Hx Hl]%NoDup_cons.
  destruct (decide (f x = k)) as [Hk|Hk].
  - rewrite filter_cons_True by exact Hk.
    rewrite (filter_nil_intro (fun x => f x = k) l); [cbn; lia|].
    intros y Hy Hfy. apply Hx. rewrite Hk, <- Hfy. apply list_elem_of_fmap. eauto.
  - rewrite filter_cons_False by exact Hk. apply IH, Hl.
Qed.

Lemma concat_singletons {A B : Type} (g : A -> B) (l : list A) :
  concat ((fun x => [g x]) <$> l) = g <$> l.
Proof. induction l as [|x l IH]; [reflexivity|]. cbn. f_equal. exact IH. Qed.

Lemma merge_left_rows (alleles : list (cell * cell)) (dat : frame) :
  NoDup (col "SNP" dat) ->
  merge_left alleles dat = Frame (merged_columns dat) (merged_row dat <$> alleles).
Proof.
  intros Hnd. unfold merge_left, merged_columns. f_equal.
  rewrite <- (concat_singletons (merged_row dat) alleles).
  f_equal. apply list_fmap_ext. intros _ p _. unfold merged_row, table_row.
  pose proof (filter_key_NoDup (get (columns dat) "SNP") p.1 (rows dat) Hnd) as Hlen.
  destruct (filter _ (rows dat)) as [|r [|r' l]]; cbn in *; [reflexivity|reflexivity|lia].
Qed.

Lemma get_all_NA (cs : list (string * dtype)) (c : string) (r : row) :
  Forall (fun x => x = NA) r -> get cs c r = NA.
Proof.
  intros Hr. unfold get. destruct (col_index c cs) as [i|]; [|reflexivity].
  destruct (r !! i) as [x|] eqn:Hx; [|reflexivity]. cbn.
  rewrite Forall_forall in Hr. apply Hr. apply list_elem_of_lookup. eauto.
Qed.

Lemma merged_row_get (dat : frame) (p : cell * cell) (c : string) :
  c <> "SNP" -> c <> "MA" ->
  get (merged_columns dat) c (merged_row dat p)
  = match table_row dat p.1 with
    | Some r => get (columns dat) c r
    | None => NA
    end.
Proof.
  intros H1 H2. unfold merged_columns, merged_row.
  destruct (table_row dat p.1) as [r|].
  - rewrite !get_cons_ne by congruence. apply (get_cells_where (not_among ["SNP"])).
    apply bool_decide_eq_true. intros H%list_elem_of_singleton. contradiction.
  - rewrite !get_cons_ne by congruence. apply get_all_NA.
    apply Forall_fmap, Forall_true. reflexivity.
Qed.

Lemma merged_row_snp (dat : frame) (p : cell * cell) :
  get (merged_columns dat) "SNP" (merged_row dat p) = p.1.
Proof.
  unfold merged_columns, merged_row. destruct (table_row dat p.1); apply get_cons_eq.
Qed.

Lemma merged_row_ma (dat : frame) (p : cell * cell) :
  get (merged_columns dat) "MA" (merged_row dat p) = p.2.
Proof.
  unfold merged_columns, merged_row.
  destruct (table_row dat p.1); rewrite get_cons_ne by discriminate; apply get_cons_eq.
Qed.

Lemma NoDup_count_one {A : Type} `{EqDecision A} (c : A) (l : list A) :
  NoDup l -> c ∈ l -> length (filter (fun x => x = c) l) = 1%nat.
Proof.
  intros Hnd Hin. pose proof (NoDup_count_le c l Hnd).
  pose proof (filter_nil_not_elem_of (fun x => x = c) l c) as Hnil.
  destruct (filter (fun x => x = c) l) as [|x l'] eqn:Hf.
  - destruct (Hnil eq_refl eq_refl Hin).
  - cbn in *. lia.
Qed.

Lemma attr_NoDup (c : string) (dat : frame) :
  NoDup (labels (columns dat)) -> c ∈ labels (columns dat) -> attr c dat = Ok (col c dat).
Proof.
  intros Hnd Hin. unfold attr, getitem. rewrite decide_True by exact Hin.
  rewrite decide_True by (apply NoDup_count_one; assumption). reflexivity.
Qed.

Lemma merged_columns_NoDup (dat : frame) :
  merge_ready dat -> NoDup (labels (merged_columns dat)).
Proof.
  intros (Hnd & _ & _ & _ & Hma). unfold merged_columns. cbn.
  assert (forall l, l ∈ labels (filter (fun c => not_among ["SNP"] c.1 = true) (columns dat))
                    <-> l ∈ labels (columns dat) /\ l <> "SNP") as Hrest.
  { intros l. rewrite (labels_filter (not_among ["SNP"])). unfold not_among.
    rewrite bool_decide_eq_true, list_elem_of_singleton. reflexivity. }
  apply NoDup_cons. split.
  - rewrite elem_of_cons. intros [H|H%Hrest]; [discriminate|]. destruct H as [_ H]. congruence.
  - apply NoDup_cons. split.
    + intros [H _]%Hrest. contradiction.
    + eapply sublist_NoDup; [exact Hnd|]. unfold labels.
      apply fmap_sublist, sublist_filter.
Qed.
Lemma scatter_fmap {A : Type} (p q : A -> bool) (l : list A) :
  scatter (p <$> l) (q <$> filter (fun x => p x = true) l)
  = (fun x => p x && q x) <$> l.
Proof.
  induction l as [|x l IH]; [reflexivity|].
  rewrite !fmap_cons. destruct (p x) eqn:Hp.
  - rewrite filter_cons_True by exact Hp. rewrite fmap_cons. cbn [scatter andb].
    f_equal. exact IH.
  - rewrite filter_cons_False by congruence. cbn [scatter andb].
    f_equal. exact IH.
Qed.

Lemma mismatch_count {A : Type} (q : A -> bool) (l : list A) :
  (msum (mnot (q <$> l)) < Z.of_nat (length l))%Z <-> existsb q l = true.
Proof.
  unfold mnot. rewrite <- list_fmap_compose, msum_fmap.
  induction l as [|x l IH]; cbn [existsb length].
  - cbn. split; [lia|discriminate].
  - unfold compose in *. destruct (q x) eqn:Hq; cbn [orb].
    + rewrite filter_cons_False by (rewrite Hq; discriminate).
      pose proof (length_filter (fun x => negb (q x) = true) l). split; [reflexivity|lia].
    + rewrite filter_cons_True by (rewrite Hq; reflexivity). cbn [length].
      rewrite <- IH. lia.
Qed.

Lemma existsb_filter {A : Type} (p q : A -> bool) (l : list A) :
  existsb q (filter (fun x => p x = true) l) = existsb (fun x => p x && q x) l.
Proof.
  induction l as [|x l IH]; [reflexivity|]. cbn [existsb]. destruct (p x) eqn:Hp.
  - rewrite filter_cons_True by exact Hp. cbn [existsb andb]. f_equal. exact IH.
  - rewrite filter_cons_False by congruence. exact IH.
Qed.

Lemma in_strings_notnull (M : list string) (x y z : cell) :
  notnull x && in_strings M (cell_add (cell_add x y) z)
  = in_strings M (cell_add (cell_add x y) z).
Proof. destruct x as [s|[| | |]]; reflexivity. Qed.

(** [allele_merge] on a table with one row per SNP: one row per panel row,
    nulled where the allele-match test fails, and an error when it fails
    everywhere. *)
Lemma allele_merge_rows (M : list string) (dat : frame) (alleles : list (cell * cell)) :
  NoDup (col "SNP" dat) -> merge_ready dat ->
  allele_merge M dat alleles
  = if existsb (alleles_match M dat) alleles
    then Ok (drop_columns ["MA"]
               (Frame (merged_columns dat)
                      ((fun p => if alleles_match M dat p then merged_row dat p
                                 else nullify (merged_columns dat) (merged_row dat p))
                         <$> alleles)))
    else Err AllAllelesMismatch.
Proof.
  intros Hsnp Hready. pose proof (merged_columns_NoDup dat Hready) as Hnd.
  destruct Hready as (_ & _ & HA1 & HA2 & HMA).
  assert (forall c, c ∈ labels (columns dat) -> c <> "SNP" -> c ∈ labels (merged_columns dat))
    as Hin.
  { intros c Hc Hne. unfold merged_columns. cbn. right. right.
    apply (labels_filter (not_among ["SNP"])). split; [exact Hc|].
    apply bool_decide_eq_true. intros H%list_elem_of_singleton. contradiction. }
  unfold allele_merge. rewrite (merge_left_rows alleles dat Hsnp).
  rewrite (attr_NoDup "A1") by first [exact Hnd|apply Hin; [exact HA1|discriminate]].
  cbn [mbind result_bind].
  rewrite (attr_NoDup "A2") by first [exact Hnd|apply Hin; [exact HA2|discriminate]].
  cbn [mbind result_bind].
  rewrite (attr_NoDup "MA") by first [exact Hnd|right; left].
  cbn [mbind result_bind columns rows]. unfold col. cbn [columns rows].
  rewrite <- !list_fmap_compose.
  set (a1 := get (merged_columns dat) "A1" ∘ merged_row dat).
  set (a2 := get (merged_columns dat) "A2" ∘ merged_row dat).
  set (ma := get (merged_columns dat) "MA" ∘ merged_row dat).
  rewrite !select_fmap_fmap.
  rewrite !zip_with_fmap_l, !zip_with_fmap_r, !zip_with_diag.
  rewrite zip_with_fmap_l, zip_with_diag.
  rewrite <- list_fmap_compose.
  rewrite (scatter_fmap (notnull ∘ a1)).
  rewrite (msum_fmap (notnull ∘ a1)).
  assert (forall p, (notnull ∘ a1) p
                    && (in_strings M ∘ (fun x => cell_add (cell_add (a1 x) (a2 x)) (ma x))) p
                    = alleles_match M dat p) as Hkeep.
  { intros p. unfold a1, a2, ma, compose. rewrite in_strings_notnull.
    rewrite merged_row_ma, !merged_row_get by discriminate.
    unfold alleles_match. destruct (table_row dat p.1); reflexivity. }
  rewrite (list_fmap_ext _ _ alleles (fun _ p _ => Hkeep p)).
  assert (existsb (alleles_match M dat) alleles
          = existsb (in_strings M ∘ (fun x => cell_add (cell_add (a1 x) (a2 x)) (ma x)))
                    (filter (fun x => (notnull ∘ a1) x = true) alleles)) as ->.
  { rewrite existsb_filter. clear -Hkeep.
    induction alleles as [|p l IH]; [reflexivity|]. cbn [existsb].
    rewrite Hkeep, IH. reflexivity. }
  destruct (existsb _ _) eqn:Hex.
  - rewrite decide_True by (apply mismatch_count; exact Hex).
    rewrite zip_with_fmap_l, zip_with_diag. reflexivity.
  - rewrite decide_False; [reflexivity|]. intros H%mismatch_count. congruence.
Qed.
Lemma get_nullify (cs : list (string * dtype)) (c : string) (r : row) :
  c <> "SNP" -> get cs c (nullify cs r) = NA.
Proof.
  intros Hc. revert r. induction cs as [|[l t] cs IH]; intros r.
  - unfold get. reflexivity.
  - destruct r as [|x r]; [apply get_nil|]. cbn [nullify].
    destruct (decide (l = c)) as [->|Hne].
    + rewrite get_cons_eq. rewrite decide_False by exact Hc. reflexivity.
    + rewrite get_cons_ne by exact Hne. apply IH.
Qed.

Lemma get_nullify_snp (cs : list (string * dtype)) (r : row) :
  get cs "SNP" (nullify cs r) = get cs "SNP" r.
Proof.
  revert r. induction cs as [|[l t] cs IH]; intros r; [reflexivity|].
  destruct r as [|x r]; [reflexivity|]. cbn [nullify].
  destruct (decide (l = "SNP")) as [->|Hne].
  - rewrite !get_cons_eq. reflexivity.
  - rewrite !get_cons_ne by exact Hne. apply IH.
Qed.

Lemma get_drop_columns (cs : list string) (dat : frame) (c : string) (r : row) :
  c ∉ cs ->
  get (columns (drop_columns cs dat)) c (cells_where (not_among cs) (columns dat) r)
  = get (columns dat) c r.
Proof.
  intros Hc. unfold drop_columns. cbn [columns].
  apply (get_cells_where (not_among cs)). apply bool_decide_eq_true. exact Hc.
Qed.

(** C3.  For a table with one row per SNP, [allele_merge] returns one row
    per panel row, in the panel's order and with the panel's SNP.  A panel
    row whose SNP is absent from the table or whose alleles fail the
    allele-match test has NaN in every column but SNP; a panel row that
    passes carries the fields of its table row.  The "All SNPs have alleles
    that do not match --merge-alleles" error is raised exactly when no panel
    row passes the test. *)
Theorem allele_merge_aligned (MATCH_ALLELES : list string) (dat : frame)
    (alleles : list (cell * cell)) :
  NoDup (col "SNP" dat) -> merge_ready dat ->
  (forall out, allele_merge MATCH_ALLELES dat alleles = Ok out ->
     length (rows out) = length alleles /\
     col "SNP" out = alleles.*1 /\
     forall i r p, rows out !! i = Some r -> alleles !! i = Some p ->
       (alleles_match MATCH_ALLELES dat p = false ->
        forall c, c <> "SNP" -> get (columns out) c r = NA) /\
       (alleles_match MATCH_ALLELES dat p = true ->
        exists r0, table_row dat p.1 = Some r0 /\
          forall c, c <> "SNP" -> get (columns out) c r = get (columns dat) c r0)) /\
  (allele_merge MATCH_ALLELES dat alleles = Err AllAllelesMismatch <->
   forall p, p ∈ alleles -> alleles_match MATCH_ALLELES dat p = false).
Proof.
  intros Hsnp Hready. rewrite (allele_merge_rows _ _ _ Hsnp Hready).
  assert (existsb (alleles_match MATCH_ALLELES dat) alleles = false <->
          forall p, p ∈ alleles -> alleles_match MATCH_ALLELES dat p = false) as Hnone.
  { rewrite <- not_true_iff_false, existsb_exists. split.
    - intros H p Hp. apply not_true_iff_false. intros Hm. apply H. exists p.
      split; [apply list_elem_of_In; exact Hp|exact Hm].
    - intros H (p & Hp%list_elem_of_In & Hm). rewrite (H p Hp) in Hm. discriminate. }
  destruct (existsb _ alleles) eqn:Hex.
  2:{ split; [discriminate|]. split; [intros _; apply Hnone; reflexivity|reflexivity]. }
  split.
  2:{ split; [discriminate|]. intros H%Hnone. discriminate. }
  set (F := Frame (merged_columns dat) _).
  intros out Hout. assert (out = drop_columns ["MA"] F) as -> by congruence. clear Hout.
  assert ("MA" ∉ labels (columns dat)) as HMA by apply Hready.
  split; [|split].
  - unfold drop_columns, F. cbn [rows]. rewrite !length_fmap. reflexivity.
  - rewrite col_drop_columns by (intros H%list_elem_of_singleton; discriminate).
    unfold col, F. cbn [columns rows]. rewrite <- list_fmap_compose.
    apply list_fmap_ext. intros _ p _. unfold compose.
    destruct (alleles_match _ dat p); [|rewrite get_nullify_snp]; apply merged_row_snp.
  - intros i r p Hr Hp. unfold drop_columns in Hr. cbn [rows] in Hr.
    unfold F in Hr. cbn [columns rows] in Hr.
    rewrite !list_lookup_fmap, Hp in Hr. cbn [fmap option_fmap option_map] in Hr.
    assert (r = cells_where (not_among ["MA"]) (merged_columns dat)
                  (if alleles_match MATCH_ALLELES dat p then merged_row dat p
                   else nullify (merged_columns dat) (merged_row dat p))) as ->
      by congruence.
    clear Hr.
    assert (forall c r', c <> "SNP" ->
              get (columns (drop_columns ["MA"] F)) c
                  (cells_where (not_among ["MA"]) (merged_columns dat) r')
              = if decide (c = "MA") then NA else get (merged_columns dat) c r') as Hget.
    { intros c r' Hc. destruct (decide (c = "MA")) as [->|Hne].
      - apply get_not_in. intros [_ H]%labels_drop_columns. apply H. left.
      - apply (get_drop_columns ["MA"] F).
        intros H%list_elem_of_singleton. contradiction. }
    split.
    + intros Hm c Hc. rewrite Hm, Hget by exact Hc.
      destruct (decide (c = "MA")); [reflexivity|]. apply get_nullify. exact Hc.
    + intros Hm. rewrite Hm. unfold alleles_match in Hm.
      destruct (table_row dat p.1) as [r0|] eqn:Hrow; [|discriminate].
      exists r0. split; [reflexivity|]. intros c Hc. rewrite Hget by exact Hc.
      destruct (decide (c = "MA")) as [->|Hne].
      * symmetry. apply get_not_in. exact HMA.
      * rewrite merged_row_get, Hrow by assumption. reflexivity.
Qed.
Lemma allele_merge_aligned_witness :
  allele_merge MATCH_ALLELES_spec table_merge panel_merge
  = Ok (Frame [("SNP", DObject); ("A1", DObject); ("A2", DObject); ("N", DNumber);
               ("Z", DNumber)]
              [[Txt "rs1"; Txt "G"; Txt "A"; Num (Num.of_Z 1000); Num (Num.frac 5 2)];
               [Txt "rs2"; NA; NA; NA; NA];
               [Txt "rs3"; NA; NA; NA; NA]]) /\
  (allele_merge MATCH_ALLELES_spec table_merge panel_merge = Err AllAllelesMismatch <->
   forall p, p ∈ panel_merge -> alleles_match MATCH_ALLELES_spec table_merge p = false).
Proof.
  split; [by_evaluation|].
  apply (allele_merge_aligned MATCH_ALLELES_spec table_merge panel_merge).
  - apply (bool_decide_unpack _). vm_compute. exact I.
  - unfold merge_ready. apply (bool_decide_unpack _). vm_compute. exact I.
Defined.

(** The table that [drop_duplicates] returns has one row per SNP, which is
    what [allele_merge_aligned] asks of its table. *)
Lemma drop_duplicates_NoDup (dat : frame) : NoDup (col "SNP" (drop_duplicates dat)).
Proof.
  unfold drop_duplicates. rewrite col_take_rows. unfold mnot, duplicated.
  generalize (col "SNP" dat) as keys. intros keys.
  assert (forall (pre : list cell),
            let kept := select (negb <$> imap (fun i k =>
                                  bool_decide (k ∈ (pre ++ take i keys)%list)) keys) keys in
            NoDup kept /\ forall k, k ∈ kept -> k ∉ pre) as H.
  { induction keys as [|k keys IH]; intros pre; cbv zeta.
    - cbn. split; [constructor|]. intros k H; inversion H.
    - rewrite imap_cons, fmap_cons. cbn [select take]. rewrite app_nil_r.
      assert (imap ((fun i k0 => bool_decide (k0 ∈ (pre ++ take i (k :: keys))%list)) ∘ S) keys
              = imap (fun i k0 => bool_decide (k0 ∈ ((pre ++ [k]) ++ take i keys)%list)) keys)
        as ->.
      { apply imap_ext. intros i x _. cbn. rewrite <- app_assoc. reflexivity. }
      destruct (IH (pre ++ [k])%list) as [Hnd Hnot].
      destruct (bool_decide (k ∈ pre)) eqn:Hk; cbn [negb].
      + split; [exact Hnd|]. intros k' Hk' Hin. apply (Hnot k' Hk').
        apply elem_of_app. left. exact Hin.
      + apply bool_decide_eq_false in Hk. split.
        * apply NoDup_cons. split; [|exact Hnd]. intros Hin. apply (Hnot k Hin).
          apply elem_of_app. right. left.
        * intros k' [->|Hk']%elem_of_cons; [exact Hk|].
          intros Hin. apply (Hnot k' Hk'). apply elem_of_app. left. exact Hin. }
  destruct (H []) as [Hnd _]. exact Hnd.
Qed.
(** ** Running the filters on a clean table *)

(** C7, counterexample.  The table of the records rs2 and rs3 is what a
    first run leaves of three records with N = 100, 126 and 200: it has no
    missing value, P = 0.05, the allele pair AG and distinct SNPs.  A run on
    that table removes rs2: its N = 126 is below the new threshold, the 90th
    percentile 192.6 of the remaining N divided by 1.5. *)
Lemma second_run_drops_low_n :
  filter_and_process_n VALID_SNPS_spec [table_n3]
    (default_translation (labels header_plain)) [] args0
  = Ok (Frame header_out [record_n "rs2" 126; record_n "rs3" 200]) /\
  Forall (clean_row VALID_SNPS_spec [] args0 header_out) (rows table_n2) /\
  NoDup (col "SNP" table_n2) /\
  filter_and_process_n VALID_SNPS_spec [table_n2]
    (default_translation (labels header_plain)) [] args0
  = Ok (Frame header_out [record_n "rs3" 200]) /\
  length (rows table_n2) <> length [record_n "rs3" 200].
Proof.
  split; [by_evaluation|]. split.
  { unfold clean_row. apply (bool_decide_unpack _). vm_compute. exact I. }
  split; [apply (bool_decide_unpack _); vm_compute; exact I|].
  split; [by_evaluation|]. cbn. lia.
Qed.
Lemma filter_all_intro {A : Type} (P : A -> Prop) `{forall x, Decision (P x)} (l : list A) :
  (forall x, x ∈ l -> P x) -> filter P l = l.
Proof.
  induction l as [|x l IH]; intros Hl; [reflexivity|].
  rewrite filter_cons_True by (apply Hl; left). f_equal.
  apply IH. intros y Hy. apply Hl. right. exact Hy.
Qed.

Lemma cells_where_subset (p : string -> bool) (cs : list (string * dtype)) (r : row)
    (x : cell) :
  x ∈ cells_where p cs r -> x ∈ r.
Proof.
  revert r. induction cs as [|[l t] cs IH]; intros r; [intros H; inversion H|].
  destruct r as [|y r]; [intros H; inversion H|]. cbn [cells_where].
  destruct (p l).
  - intros [->|H]%elem_of_cons; [left|right; apply IH; exact H].
  - intros H. right. apply IH. exact H.
Qed.

Lemma na_keep_clean (cs : list (string * dtype)) (r : row) :
  Forall (fun x => notnull x = true) r -> na_keep cs r = true.
Proof.
  intros Hr. unfold na_keep. apply forallb_forall. intros x Hx%list_elem_of_In.
  rewrite Forall_forall in Hr. apply Hr. eapply cells_where_subset. exact Hx.
Qed.

Lemma out_columns_NoDup (a : args) (cs : list (string * dtype)) :
  NoDup (labels cs) -> NoDup (labels (out_columns a cs)).
Proof.
  intros Hnd. eapply sublist_NoDup; [exact Hnd|]. unfold labels, out_columns.
  apply fmap_sublist, sublist_filter.
Qed.

Lemma out_columns_label (a : args) (cs : list (string * dtype)) (c : string) :
  c <> "INFO" -> c <> "FRQ" -> c ∈ labels cs -> c ∈ labels (out_columns a cs).
Proof.
  intros H1 H2 Hc. unfold out_columns. apply (labels_filter (kept_label a)).
  split; [exact Hc|apply kept_label_other; assumption].
Qed.

Lemma out_columns_elem (a : args) (cs : list (string * dtype)) (x : string * dtype) :
  x ∈ out_columns a cs -> x ∈ cs.
Proof. unfold out_columns. intros [_ H]%list_elem_of_filter. exact H. Qed.

(** On a clean header none of the steps of [filter_chunk] fails. *)
Lemma filter_chunk_no_error (V : list string) (a : args) (drops : gmap string Z)
    (dat : frame) :
  clean_columns a (columns dat) -> exists res, filter_chunk V a drops dat = Ok res.
Proof.
  intros (Hnd & _ & HP & Hal & _). unfold filter_chunk.
  destruct (info_step a dat _) as [d1 ii1].
  assert (exists st, frq_step a dat (d1, ii1) = Ok st) as [[d2 ii2] ->].
  { unfold frq_step. destruct (decide ("FRQ" ∈ _)) as [Hin|]; [|eauto].
    unfold getitem. rewrite decide_True by (apply NoDup_count_one; assumption). eauto. }
  cbn [mbind result_bind]. rewrite drop_info_frq_eq.
  set (cs' := out_columns a (columns dat)).
  assert (NoDup (labels cs')) as Hnd' by (apply out_columns_NoDup; exact Hnd).
  unfold pval_step. rewrite (attr_NoDup "P");
    [|exact Hnd'|apply out_columns_label; [discriminate|discriminate|exact HP]].
  cbn [mbind result_bind]. unfold allele_step.
  destruct (no_alleles a) eqn:Hno.
  - cbn [mbind result_bind]. destruct (decide _); eauto.
  - destruct (Hal eq_refl) as (HA1 & HA2 & Ht1 & Ht2).
    assert ("A1" ∈ labels cs') as HA1'
      by (apply out_columns_label; [discriminate|discriminate|exact HA1]).
    assert ("A2" ∈ labels cs') as HA2'
      by (apply out_columns_label; [discriminate|discriminate|exact HA2]).
    unfold upper_column at 2. cbn [columns rows].
    rewrite decide_True by exact HA1'.
    rewrite decide_False by (intros H%out_columns_elem; contradiction).
    cbn [mbind result_bind]. unfold upper_column. cbn [columns rows].
    rewrite decide_True by exact HA2'.
    rewrite decide_False by (intros H%out_columns_elem; contradiction).
    cbn [mbind result_bind].
    rewrite (attr_NoDup "A1") by assumption. cbn [mbind result_bind].
    rewrite (attr_NoDup "A2") by assumption. cbn [mbind result_bind].
    destruct (decide _); eauto.
Qed.

Lemma numeric_labels_unique_NoDup (dat : frame) :
  NoDup (labels (columns dat)) -> numeric_labels_unique dat.
Proof.
  intros Hnd. unfold numeric_labels_unique. eapply sublist_NoDup; [exact Hnd|].
  apply sublist_filter.
Qed.

Lemma parse_chunk_no_error (V : list string) (cc : odict) (alleles : list (cell * cell))
    (a : args) (drops : gmap string Z) (dat : frame) (cs : list (string * dtype)) :
  rename_columns cc (columns dat) = Ok cs -> clean_columns a cs ->
  exists res, parse_chunk V cc alleles a drops dat = Ok res.
Proof.
  intros Hcs Hclean. unfold parse_chunk, na_filter, dropna. cbn [columns rows].
  rewrite Hcs. cbn [mbind result_bind].
  pose proof Hclean as (Hnd & HSNP & _ & _ & Hw).
  rewrite decide_True by (apply numeric_labels_unique_NoDup; exact Hnd).
  rewrite decide_True by exact Hw.
  destruct (merge_alleles a).
  - rewrite (attr_NoDup "SNP") by assumption. cbn [mbind result_bind].
    destruct (decide _); [eauto|]. apply filter_chunk_no_error. exact Hclean.
  - apply filter_chunk_no_error. exact Hclean.
Qed.

(** A chunk of clean rows passes the body of the loop whole. *)
Lemma parse_chunk_clean (V : list string) (cc : odict) (alleles : list (cell * cell))
    (a : args) (drops : gmap string Z) (dat : frame) (cs : list (string * dtype)) :
  rename_columns cc (columns dat) = Ok cs -> clean_columns a cs ->
  rows dat <> [] -> Forall (clean_row V alleles a cs) (rows dat) ->
  exists drops',
    parse_chunk V cc alleles a drops dat
    = Ok (drops', Some (Frame (out_columns a cs) (out_row a cs <$> rows dat))).
Proof.
  intros Hcs Hclean Hne Hrows.
  destruct (parse_chunk_no_error V cc alleles a drops dat cs Hcs Hclean) as [[d' res] Hres].
  exists d'. rewrite Hres. f_equal. f_equal.
  apply parse_chunk_rows in Hres as (cs' & Hcs' & _ & _ & ->).
  assert (cs' = cs) as -> by congruence. cbv zeta.
  rewrite filter_all_intro.
  - rewrite decide_False by exact Hne. reflexivity.
  - intros r Hr. rewrite Forall_forall in Hrows.
    destruct (Hrows r Hr) as (Hna & Hp & Hk). unfold chunk_keep.
    rewrite (na_keep_clean _ _ Hna), Hp, Hk. reflexivity.
Qed.
Section clean_run.
Variables (V : list string) (cc : odict) (alleles : list (cell * cell)) (a : args).
Variables (raw cs : list (string * dtype)).
Hypothesis Hcs : rename_columns cc raw = Ok cs.
Hypothesis Hclean : clean_columns a cs.

Lemma parse_loop_clean (dat_gen : list frame) (st : loop_state) :
  Forall (clean_chunk V alleles a raw cs) dat_gen ->
  exists st',
    parse_loop V cc alleles a dat_gen st = Ok st' /\
    dat_list st' = (dat_list st ++ (out_frame a cs <$> dat_gen))%list.
Proof.
  revert st. induction dat_gen as [|d ds IH]; intros st Hall.
  - exists st. rewrite app_nil_r. split; reflexivity.
  - apply Forall_cons in Hall as [(Hcols & Hne & Hrows) Hall]. cbn [parse_loop].
    assert (rename_columns cc (columns d) = Ok cs) as Hcs' by (rewrite Hcols; exact Hcs).
    destruct (parse_chunk_clean V cc alleles a (drops st) d cs Hcs' Hclean Hne Hrows)
      as [d' ->].
    cbn [mbind result_bind].
    destruct (IH (LoopState (tot_snps st + len d) (dat_list st ++ [out_frame a cs d]) d') Hall)
      as (st' & Hst' & Hlist).
    exists st'. split; [exact Hst'|]. rewrite Hlist. cbn [dat_list].
    rewrite <- app_assoc. reflexivity.
Qed.

Lemma join_same_columns (cs0 : list (string * dtype)) (ds : list frame) :
  Forall (fun d => columns d = cs0) ds ->
  foldl (fun cs1 d' => zip_with (fun c c' => (c.1, join_dtype c.2 c'.2)) cs1 (columns d'))
        cs0 ds = cs0.
Proof.
  induction 1 as [|d ds Hd _ IH]; [reflexivity|]. cbn [foldl]. rewrite Hd.
  rewrite zip_with_diag.
  rewrite (list_fmap_ext _ id cs0), list_fmap_id; [exact IH|].
  intros _ [l t] _. cbn. destruct t; reflexivity.
Qed.

Lemma pd_concat_clean (d : frame) (ds : list frame) :
  pd_concat (out_frame a cs <$> d :: ds)
  = Ok (Frame (out_columns a cs) (out_row a cs <$> concat (rows <$> d :: ds))).
Proof.
  rewrite fmap_cons. unfold pd_concat. f_equal. f_equal.
  - apply join_same_columns. apply Forall_fmap, Forall_true. intros d'. reflexivity.
  - rewrite <- fmap_cons. generalize (d :: ds). intros l.
    induction l as [|x l IH]; [reflexivity|].
    rewrite !fmap_cons. cbn [concat]. rewrite fmap_app, <- IH. reflexivity.
Qed.

End clean_run.

Lemma duplicated_NoDup (keys : list cell) :
  NoDup keys -> mnot (duplicated keys) = (fun _ => true) <$> keys.
Proof.
  intros Hnd. apply list_eq. intros i. rewrite duplicated_lookup, list_lookup_fmap.
  destruct (keys !! i) as [k|] eqn:Hk; [|reflexivity]. cbn. f_equal.
  apply negb_true_iff, bool_decide_eq_false.
  intros (j & Hj & Hlt)%elem_of_take.
  pose proof (NoDup_lookup _ _ _ _ Hnd Hk Hj). lia.
Qed.

Lemma drop_duplicates_id (dat : frame) :
  NoDup (col "SNP" dat) -> drop_duplicates dat = dat.
Proof.
  intros Hnd. unfold drop_duplicates. rewrite (duplicated_NoDup _ Hnd).
  unfold col, take_rows. rewrite <- list_fmap_compose.
  rewrite (select_fmap (fun _ => true)), filter_all_intro by reflexivity.
  destruct dat; reflexivity.
Qed.

(** C7 (as amended).  A table whose chunks hold only clean rows and whose
    SNPs are distinct passes the filter pass and the removal of duplicates
    whole: the run does not fail and returns every row, in order, without
    the INFO column (and the FRQ column unless --keep-maf) and with
    upper-case alleles. *)
Theorem clean_table_keeps_every_row (V : list string) (cc : odict)
    (alleles : list (cell * cell)) (a : args) (raw cs : list (string * dtype))
    (dat_gen : list frame) :
  rename_columns cc raw = Ok cs -> clean_columns a cs ->
  dat_gen <> [] -> Forall (clean_chunk V alleles a raw cs) dat_gen ->
  NoDup (get cs "SNP" <$> concat (rows <$> dat_gen)) ->
  read_and_filter V dat_gen cc alleles a
  = Ok (Frame (out_columns a cs) (out_row a cs <$> concat (rows <$> dat_gen))) /\
  length (out_row a cs <$> concat (rows <$> dat_gen)) = length (concat (rows <$> dat_gen)).
Proof.
  intros Hcs Hclean Hne Hall Hnd. split; [|apply length_fmap].
  unfold read_and_filter, parse_dat.
  destruct (parse_loop_clean V cc alleles a raw cs Hcs Hclean dat_gen
              (LoopState 0 [] drops0) Hall) as (st & -> & Hlist).
  cbn [mbind result_bind]. cbn in Hlist. rewrite Hlist.
  destruct dat_gen as [|d ds]; [congruence|].
  rewrite pd_concat_clean. cbn [mbind result_bind fst].
  apply Forall_cons in Hall as [(_ & Hd & _) _].
  rewrite decide_False.
  - rewrite drop_duplicates_id; [reflexivity|].
    unfold col. cbn [columns rows]. rewrite <- list_fmap_compose.
    erewrite list_fmap_ext; [exact Hnd|].
    intros _ r _. cbn. apply out_row_get; [discriminate|discriminate|].
    apply kept_label_other; discriminate.
  - unfold len. cbn [rows]. rewrite length_fmap. cbn [fmap list_fmap concat].
    rewrite length_app. destruct (rows d); [congruence|cbn; lia].
Qed.

Lemma clean_table_keeps_every_row_witness :
  read_and_filter VALID_SNPS_spec [table_n2]
    (default_translation (labels header_plain)) [] args0
  = Ok (Frame (out_columns args0 header_out)
              (out_row args0 header_out <$> concat (rows <$> [table_n2]))) /\
  length (out_row args0 header_out <$> concat (rows <$> [table_n2]))
  = length (concat (rows <$> [table_n2])).
Proof.
  apply (clean_table_keeps_every_row VALID_SNPS_spec
           (default_translation (labels header_plain)) [] args0 header_plain header_out
           [table_n2]).
  - by_evaluation.
  - unfold clean_columns. apply (bool_decide_unpack _). vm_compute. exact I.
  - discriminate.
  - unfold clean_chunk, clean_row. apply (bool_decide_unpack _). vm_compute. exact I.
  - apply (bool_decide_unpack _). vm_compute. exact I.
Defined.
(** * Further properties of the column resolution *)

Lemma translation_fold_lookup (cname_map : gmap string string)
    (file_cnames : list string) (d : odict) (x : string) :
  od_get x (foldl (translation_step cname_map) d file_cnames)
  = if decide (x ∈ file_cnames)
    then match cname_map !! clean_header x with
         | Some v => Some v
         | None => od_get x d
         end
    else od_get x d.
Proof.
  revert d. induction file_cnames as [|y ys IH]; intros d; cbn [foldl].
  - rewrite decide_False by (intros H; inversion H). reflexivity.
  - rewrite IH. unfold translation_step.
    destruct (decide (y = x)) as [->|Hne].
    + rewrite (decide_True (P := x ∈ x :: ys)) by left.
      destruct (cname_map !! clean_header x) as [v|] eqn:Hx.
      * rewrite od_get_set. destruct (decide (x = x)); [|congruence].
        destruct (decide (x ∈ ys)); reflexivity.
      * destruct (decide (x ∈ ys)); reflexivity.
    + assert (od_get x (match cname_map !! clean_header y with
                        | Some v => od_set y v d
                        | None => d
                        end) = od_get x d) as ->.
      { destruct (cname_map !! clean_header y); [|reflexivity].
        rewrite od_get_set. destruct (decide (y = x)); [congruence|reflexivity]. }
      destruct (decide (x ∈ ys)) as [Hin|Hnin].
      * rewrite decide_True by (right; exact Hin). reflexivity.
      * rewrite decide_False; [reflexivity|].
        intros [?|?]%elem_of_cons; congruence.
Qed.

Lemma get_cname_map_lookup (flag default : gmap string string)
    (ignore : list string) (k : string) :
  get_cname_map flag default ignore !! k
  = if decide (k ∈ clean_header <$> ignore) then None
    else match flag !! k with
         | Some v => Some v
         | None => default !! k
         end.
Proof.
  unfold get_cname_map.
  destruct (decide (k ∈ clean_header <$> ignore)) as [Hin|Hnin].
  - apply lookup_union_None. split; apply map_lookup_filter_None; right;
      intros v _ Hk; cbn in Hk; apply Hk; [apply elem_of_app; left|]; exact Hin.
  - destruct (flag !! k) as [v|] eqn:Hf.
    + apply lookup_union_Some_raw. right. split.
      * apply map_lookup_filter_None. right. intros w _ Hk. cbn in Hk. apply Hk.
        apply elem_of_app. right. apply list_elem_of_fmap. exists (k, v).
        split; [reflexivity|]. apply elem_of_map_to_list. exact Hf.
      * apply map_lookup_filter_Some. split; [exact Hf|exact Hnin].
    + rewrite lookup_union_l
        by (apply map_lookup_filter_None; left; exact Hf).
      destruct (default !! k) as [w|] eqn:Hd.
      * apply map_lookup_filter_Some. split; [exact Hd|]. cbn.
        intros [?|Hk]%elem_of_app; [contradiction|].
        apply list_elem_of_fmap in Hk as ([k' v'] & -> & Hk).
        apply elem_of_map_to_list in Hk. cbn in Hf. congruence.
      * apply map_lookup_filter_None. left. exact Hd.
Qed.

Lemma cname_translation_get (file_cnames : list string)
    (cname_map : gmap string string) (x : string) :
  od_get x (cname_translation file_cnames cname_map)
  = if decide (x ∈ file_cnames) then cname_map !! clean_header x else None.
Proof.
  unfold cname_translation. rewrite translation_fold_lookup. cbn.
  destruct (decide (x ∈ file_cnames)); [|reflexivity].
  destruct (cname_map !! clean_header x); reflexivity.
Qed.




(** * Further properties of the filter pass *)

(** ** Chunks with one header *)

Section one_header.
Variables (V : list string) (cc : odict) (alleles : list (cell * cell)) (a : args).
Variables (raw cs : list (string * dtype)).
Hypothesis Hcs : rename_columns cc raw = Ok cs.

Lemma chunk_rows_one_header (dat_gen : list frame) :
  Forall (fun d => columns d = raw) dat_gen ->
  concat (chunk_rows V cc alleles a <$> dat_gen)
  = out_row a cs <$> filter (fun r => chunk_keep V alleles a raw cs r = true)
                            (concat (rows <$> dat_gen)).
Proof.
  induction 1 as [|d ds Hd _ IH]; [reflexivity|].
  rewrite !fmap_cons. cbn [concat]. rewrite filter_app, fmap_app, <- IH.
  f_equal. unfold chunk_rows. rewrite Hd, Hcs. reflexivity.
Qed.

Lemma parse_loop_columns (dat_gen : list frame) (st st' : loop_state) :
  Forall (fun d => columns d = raw) dat_gen ->
  parse_loop V cc alleles a dat_gen st = Ok st' ->
  Forall (fun d => columns d = out_columns a cs) (dat_list st) ->
  Forall (fun d => columns d = out_columns a cs) (dat_list st').
Proof.
  intros Hall. revert st. induction Hall as [|d ds Hd _ IH]; intros st H Hst.
  - cbn in H. congruence.
  - cbn [parse_loop] in H.
    destruct (parse_chunk V cc alleles a (drops st) d) as [[d' res]|e] eqn:Hchunk;
      [|discriminate].
    cbn [mbind result_bind] in H.
    apply parse_chunk_rows in Hchunk as (cs' & Hcs' & _ & _ & Hres).
    rewrite Hd, Hcs in Hcs'. assert (cs' = cs) as -> by congruence.
    apply IH in H; [exact H|]. cbn [dat_list]. rewrite Hres. cbn zeta.
    destruct (decide _); [exact Hst|].
    apply Forall_app. split; [exact Hst|]. constructor; [reflexivity|constructor].
Qed.

Lemma parse_dat_table (dat_gen : list frame) (dat : frame) (st : loop_state) :
  Forall (fun d => columns d = raw) dat_gen ->
  parse_dat V dat_gen cc alleles a = Ok (dat, st) ->
  dat = Frame (out_columns a cs)
              (out_row a cs <$> filter (fun r => chunk_keep V alleles a raw cs r = true)
                                       (concat (rows <$> dat_gen))).
Proof.
  intros Hall H.
  destruct (parse_dat_rows _ _ _ _ _ _ _ H) as [Hrows _].
  rewrite (chunk_rows_one_header _ Hall) in Hrows.
  unfold parse_dat in H.
  destruct (parse_loop V cc alleles a dat_gen (LoopState 0 [] drops0)) as [st0|e] eqn:Hloop;
    [|discriminate].
  cbn [mbind result_bind] in H.
  apply parse_loop_columns in Hloop; [|exact Hall|constructor].
  destruct (dat_list st0) as [|d ds] eqn:Hlist; [discriminate|].
  cbn [pd_concat mbind result_bind] in H.
  assert (dat = Frame (foldl (fun cs1 d' =>
                          zip_with (fun c c' => (c.1, join_dtype c.2 c'.2)) cs1 (columns d'))
                        (columns d) ds) (concat (rows <$> d :: ds))) as Hdat by congruence.
  apply Forall_cons in Hloop as [Hd Hds].
  rewrite Hd, (join_same_columns _ _ Hds) in Hdat.
  destruct dat as [c r]. cbn [rows] in Hrows. rewrite <- Hrows. congruence.
Qed.

End one_header.

Lemma le_Fin (x y : Qc) : Num.le (Fin x) (Fin y) = true <-> (x <= y)%Qc.
Proof.
  unfold Num.le. rewrite orb_true_iff, lt_Fin, eq_Fin. split.
  - intros [H| ->]; [apply Qclt_le_weak; exact H|apply Qcle_refl].
  - intros H. destruct (Qc_eq_dec x y) as [->|Hne]; [right; reflexivity|left].
    apply Qcle_lt_or_eq in H as [H|H]; [exact H|contradiction].
Qed.

Lemma p_keep_inv (x : cell) :
  p_keep x = true <-> exists p : Qc, x = Num (Fin p) /\ (0 < p)%Qc /\ (p <= 1)%Qc.
Proof.
  unfold p_keep. rewrite andb_true_iff. split.
  - intros [H0 H1]. destruct x as [s|[p| | |]]; cbn [to_num] in *; try discriminate.
    exists p. split; [reflexivity|]. split; [apply lt_Fin, H0|apply le_Fin, H1].
  - intros (p & -> & H0 & H1). cbn [to_num]. split; [apply lt_Fin, H0|apply le_Fin, H1].
Qed.

Lemma filter_pvals_lookup (P : list cell) (i : nat) :
  filter_pvals P !! i = Some true <->
  exists p : Qc, P !! i = Some (Num (Fin p)) /\ (0 < p)%Qc /\ (p <= 1)%Qc.
Proof.
  rewrite <- (list_fmap_id P) at 1. rewrite filter_pvals_fmap, list_lookup_fmap.
  unfold id. split.
  - destruct (P !! i) as [x|]; [|discriminate]. cbn. intros [= H].
    apply p_keep_inv in H as (p & -> & H). exists p. split; [reflexivity|exact H].
  - intros (p & -> & H). cbn. f_equal. apply p_keep_inv. exists p. auto.
Qed.

(** X3.  For the chunks of one file (one header), the table of [parse_dat]
    is the translated header without the INFO column (and without FRQ unless
    [--keep-maf]) over the records that pass every filter, in the order of
    the file, and the total it logs is the number of records read: the chunk
    boundaries have no effect on either. *)
Theorem parse_dat_in_file_order (V : list string) (cc : odict)
    (alleles : list (cell * cell)) (a : args) (raw cs : list (string * dtype))
    (dat_gen : list frame) (dat : frame) (st : loop_state) :
  rename_columns cc raw = Ok cs ->
  Forall (fun d => columns d = raw) dat_gen ->
  parse_dat V dat_gen cc alleles a = Ok (dat, st) ->
  dat = Frame (out_columns a cs)
              (out_row a cs <$> filter (fun r => chunk_keep V alleles a raw cs r = true)
                                       (concat (rows <$> dat_gen))) /\
  tot_snps st = Z.of_nat (length (concat (rows <$> dat_gen))).
Proof.
  intros Hcs Hall H. split; [exact (parse_dat_table V cc alleles a raw cs Hcs _ _ _ Hall H)|].
  unfold parse_dat in H.
  destruct (parse_loop V cc alleles a dat_gen (LoopState 0 [] drops0)) as [st0|e] eqn:Hloop;
    [|discriminate].
  cbn [mbind result_bind] in H.
  apply parse_loop_rows in Hloop as (_ & _ & Htot); [|constructor].
  destruct (pd_concat (dat_list st0)); [|discriminate].
  cbn [mbind result_bind] in H. assert (st = st0) as -> by congruence.
  rewrite Htot. cbn. lia.
Qed.

Lemma parse_dat_in_file_order_witness :
  parsed_frq.1
  = Frame (out_columns args_keep_maf header_frq_translated)
          (out_row args_keep_maf header_frq_translated
             <$> filter (fun r => chunk_keep VALID_SNPS_spec [] args_keep_maf header_frq
                                    header_frq_translated r = true)
                        (concat (rows <$> [chunk_frq]))) /\
  tot_snps parsed_frq.2 = Z.of_nat (length (concat (rows <$> [chunk_frq]))).
Proof.
  apply (parse_dat_in_file_order VALID_SNPS_spec (default_translation (labels header_frq))
           [] args_keep_maf header_frq header_frq_translated [chunk_frq]).
  - vm_compute. reflexivity.
  - repeat constructor.
  - vm_compute. reflexivity.
Defined.

(** X4.  The mask of [filter_pvals] is true exactly at a finite P with
    [0 < P <= 1], and every row of the table of [parse_dat] carries such a P,
    unchanged. *)
Theorem retained_rows_have_p_in_unit_interval (V : list string) (cc : odict)
    (alleles : list (cell * cell)) (a : args) (raw cs : list (string * dtype))
    (dat_gen : list frame) (dat : frame) (st : loop_state) (r : row) :
  rename_columns cc raw = Ok cs ->
  Forall (fun d => columns d = raw) dat_gen ->
  parse_dat V dat_gen cc alleles a = Ok (dat, st) -> r ∈ rows dat ->
  (forall P i, filter_pvals P !! i = Some true <->
     exists p : Qc, P !! i = Some (Num (Fin p)) /\ (0 < p)%Qc /\ (p <= 1)%Qc) /\
  exists p : Qc, get (columns dat) "P" r = Num (Fin p) /\ (0 < p)%Qc /\ (p <= 1)%Qc.
Proof.
  intros Hcs Hall H Hr. split; [exact filter_pvals_lookup|].
  rewrite (parse_dat_table V cc alleles a raw cs Hcs _ _ _ Hall H) in Hr |- *.
  cbn [rows columns] in *.
  apply list_elem_of_fmap in Hr as (r0 & -> & [Hkeep _]%list_elem_of_filter).
  rewrite out_row_get by (try discriminate; apply kept_label_other; discriminate).
  unfold chunk_keep, keep_row in Hkeep.
  apply andb_true_iff in Hkeep as [_ Hkeep].
  apply andb_true_iff in Hkeep as [Hkeep _].
  apply andb_true_iff in Hkeep as [_ Hkeep].
  apply p_keep_inv. exact Hkeep.
Qed.

Lemma retained_rows_have_p_in_unit_interval_witness :
  (forall P i, filter_pvals P !! i = Some true <->
     exists p : Qc, P !! i = Some (Num (Fin p)) /\ (0 < p)%Qc /\ (p <= 1)%Qc) /\
  exists p : Qc,
    get (columns parsed_frq.1) "P" row_frq_out = Num (Fin p) /\ (0 < p)%Qc /\ (p <= 1)%Qc.
Proof.
  apply (retained_rows_have_p_in_unit_interval VALID_SNPS_spec
           (default_translation (labels header_frq)) [] args_keep_maf header_frq
           header_frq_translated [chunk_frq] parsed_frq.1 parsed_frq.2 row_frq_out).
  - vm_compute. reflexivity.
  - repeat constructor.
  - vm_compute. reflexivity.
  - vm_compute. left.
Defined.

Lemma info_keep_Fin (a : args) (m : Qc) (x : cell) :
  info_min a = Fin m ->
  (info_keep a x = true <->
   x = Num PInf \/ exists q : Qc, x = Num (Fin q) /\ (m <= q)%Qc).
Proof.
  intros Hm. unfold info_keep. rewrite Hm. split.
  - destruct x as [s|[q| | |]]; cbn [to_num]; try discriminate.
    + intros H. right. exists q. split; [reflexivity|apply le_Fin, H].
    + intros _. left. reflexivity.
  - intros [->|(q & -> & H)]; [reflexivity|apply le_Fin, H].
Qed.

(** X5.  With a finite threshold [info_min], the mask of [filter_info] on one
    INFO column is true exactly at a number that is at least the threshold:
    there is no upper bound, and a missing or textual INFO fails.  Every row
    of the table of [parse_dat] comes from a record whose INFO passed, and
    the table has no INFO column. *)
Theorem retained_rows_pass_info_threshold (V : list string) (cc : odict)
    (alleles : list (cell * cell)) (a : args) (raw cs : list (string * dtype))
    (dat_gen : list frame) (dat : frame) (st : loop_state) (r : row) (m : Qc) :
  info_min a = Fin m ->
  rename_columns cc raw = Ok cs ->
  Forall (fun d => columns d = raw) dat_gen ->
  parse_dat V dat_gen cc alleles a = Ok (dat, st) -> r ∈ rows dat ->
  (forall s i, filter_info (Series s) a !! i = Some true <->
     s !! i = Some (Num PInf) \/
     exists q : Qc, s !! i = Some (Num (Fin q)) /\ (m <= q)%Qc) /\
  ("INFO" ∉ labels (columns dat)) /\
  exists r0, r0 ∈ concat (rows <$> dat_gen) /\ r = out_row a cs r0 /\
    ("INFO" ∈ labels cs ->
     get cs "INFO" r0 = Num PInf \/
     exists q : Qc, get cs "INFO" r0 = Num (Fin q) /\ (m <= q)%Qc).
Proof.
  intros Hm Hcs Hall H Hr. split; [|split].
  - intros s i. cbn [filter_info]. rewrite list_lookup_fmap.
    destruct (s !! i) as [x|]; cbn.
    + fold (info_keep a x). split.
      * intros [= Hk]. apply (info_keep_Fin a m x Hm) in Hk as [->|(q & -> & Hq)];
          [left; reflexivity|right; exists q; auto].
      * intros Hx. f_equal. apply (info_keep_Fin a m x Hm).
        destruct Hx as [[= ->]|(q & [= ->] & Hq)]; [left; reflexivity|right; exists q; auto].
    + split; [discriminate|]. intros [?|(q & ? & _)]; discriminate.
  - rewrite (parse_dat_table V cc alleles a raw cs Hcs _ _ _ Hall H). cbn [columns].
    unfold out_columns. intros [_ Hk]%labels_filter.
    unfold kept_label, dropped_labels in Hk. destruct (keep_maf a); vm_compute in Hk;
      discriminate.
  - rewrite (parse_dat_table V cc alleles a raw cs Hcs _ _ _ Hall H) in Hr.
    cbn [rows] in Hr.
    apply list_elem_of_fmap in Hr as (r0 & -> & [Hkeep Hr0]%list_elem_of_filter).
    exists r0. split; [exact Hr0|]. split; [reflexivity|]. intros Hin.
    unfold chunk_keep, keep_row in Hkeep.
    apply andb_true_iff in Hkeep as [_ Hkeep].
    apply andb_true_iff in Hkeep as [Hkeep _].
    apply andb_true_iff in Hkeep as [Hkeep _].
    apply andb_true_iff in Hkeep as [Hkeep _].
    rewrite decide_True in Hkeep by exact Hin.
    apply (info_keep_Fin a m _ Hm). exact Hkeep.
Qed.

Lemma retained_rows_pass_info_threshold_witness :
  (forall s i, filter_info (Series s) args0 !! i = Some true <->
     s !! i = Some (Num PInf) \/
     exists q : Qc, s !! i = Some (Num (Fin q)) /\ (Q2Qc (9 # 10) <= q)%Qc) /\
  ("INFO" ∉ labels (columns parsed_INFO.1)) /\
  exists r0, r0 ∈ concat (rows <$> [chunk_INFO]) /\
    row_merge_out = out_row args0 header_INFO_translated r0 /\
    ("INFO" ∈ labels header_INFO_translated ->
     get header_INFO_translated "INFO" r0 = Num PInf \/
     exists q : Qc, get header_INFO_translated "INFO" r0 = Num (Fin q) /\
                    (Q2Qc (9 # 10) <= q)%Qc).
Proof.
  apply (retained_rows_pass_info_threshold VALID_SNPS_spec
           (default_translation (labels header_INFO)) [] args0 header_INFO
           header_INFO_translated [chunk_INFO] parsed_INFO.1 parsed_INFO.2 row_merge_out).
  - reflexivity.
  - vm_compute. reflexivity.
  - repeat constructor.
  - vm_compute. reflexivity.
  - vm_compute. left.
Defined.




Lemma upper_char_idempotent (c : ascii) :
  Str.upper_char (Str.upper_char c) = Str.upper_char c.
Proof. destruct c as [[] [] [] [] [] [] [] []]; vm_compute; reflexivity. Qed.

Lemma upper_idempotent (s : string) : Str.upper (Str.upper s) = Str.upper s.
Proof.
  unfold Str.upper. induction s as [|c s IH]; [reflexivity|].
  cbn [Str.map]. rewrite upper_char_idempotent, IH. reflexivity.
Qed.

Lemma alleles_keep_inv (V : list string) (a1 a2 : cell) :
  alleles_keep V a1 a2 = true ->
  exists s1 s2, a1 = Txt s1 /\ a2 = Txt s2 /\ (Str.upper s1 ++ Str.upper s2) ∈ V.
Proof.
  unfold alleles_keep. destruct a1 as [s1|x1], a2 as [s2|x2]; cbn; try discriminate.
  intros H. apply bool_decide_eq_true in H. exists s1, s2. auto.
Qed.

Lemma out_row_get_A1 (a : args) (cs : list (string * dtype)) (r : row) :
  no_alleles a = false ->
  get (out_columns a cs) "A1" (out_row a cs r) = str_upper (get cs "A1" r).
Proof.
  intros Hno. unfold out_row. rewrite Hno.
  rewrite get_update_ne by discriminate.
  rewrite get_update_eq by reflexivity. f_equal.
  apply get_cells_where. apply kept_label_other; discriminate.
Qed.

Lemma out_row_get_A2 (a : args) (cs : list (string * dtype)) (r : row) :
  no_alleles a = false ->
  get (out_columns a cs) "A2" (out_row a cs r) = str_upper (get cs "A2" r).
Proof.
  intros Hno. unfold out_row. rewrite Hno.
  rewrite get_update_eq by reflexivity. f_equal.
  rewrite get_update_ne by discriminate.
  apply get_cells_where. apply kept_label_other; discriminate.
Qed.

(** X7.  The mask of [filter_alleles] is true exactly at a string of the
    table [VALID_SNPS].  Unless [--no-alleles] is given, every row of the
    table of [parse_dat] holds two allele strings in upper case whose
    concatenation is in [VALID_SNPS]. *)
Theorem retained_rows_have_valid_alleles (V : list string) (cc : odict)
    (alleles : list (cell * cell)) (a : args) (raw cs : list (string * dtype))
    (dat_gen : list frame) (dat : frame) (st : loop_state) (r : row) :
  no_alleles a = false ->
  rename_columns cc raw = Ok cs ->
  Forall (fun d => columns d = raw) dat_gen ->
  parse_dat V dat_gen cc alleles a = Ok (dat, st) -> r ∈ rows dat ->
  (forall x i, filter_alleles V x !! i = Some true <->
     exists s, x !! i = Some (Txt s) /\ s ∈ V) /\
  exists s1 s2,
    get (columns dat) "A1" r = Txt s1 /\ get (columns dat) "A2" r = Txt s2 /\
    (s1 ++ s2) ∈ V /\ Str.upper s1 = s1 /\ Str.upper s2 = s2.
Proof.
  intros Hno Hcs Hall H Hr. split.
  - intros x i. unfold filter_alleles. rewrite list_lookup_fmap.
    destruct (x !! i) as [[s|y]|]; cbn.
    + split.
      * intros [= Hs]. apply bool_decide_eq_true in Hs. exists s. auto.
      * intros (s' & [= ->] & Hs). f_equal. apply bool_decide_eq_true. exact Hs.
    + split; [discriminate|]. intros (s' & [=] & _).
    + split; [discriminate|]. intros (s' & [=] & _).
  - rewrite (parse_dat_table V cc alleles a raw cs Hcs _ _ _ Hall H) in Hr |- *.
    cbn [rows columns] in *.
    apply list_elem_of_fmap in Hr as (r0 & -> & [Hkeep _]%list_elem_of_filter).
    rewrite out_row_get_A1, out_row_get_A2 by exact Hno.
    unfold chunk_keep, keep_row in Hkeep.
    apply andb_true_iff in Hkeep as [_ Hkeep].
    apply andb_true_iff in Hkeep as [_ Hkeep].
    rewrite Hno in Hkeep.
    apply alleles_keep_inv in Hkeep as (s1 & s2 & -> & -> & Hin).
    exists (Str.upper s1), (Str.upper s2). cbn [str_upper].
    rewrite !upper_idempotent. auto.
Qed.

Lemma retained_rows_have_valid_alleles_witness :
  (forall x i, filter_alleles VALID_SNPS_spec x !! i = Some true <->
     exists s, x !! i = Some (Txt s) /\ s ∈ VALID_SNPS_spec) /\
  exists s1 s2,
    get (columns parsed_frq.1) "A1" row_frq_out = Txt s1 /\
    get (columns parsed_frq.1) "A2" row_frq_out = Txt s2 /\
    (s1 ++ s2) ∈ VALID_SNPS_spec /\ Str.upper s1 = s1 /\ Str.upper s2 = s2.
Proof.
  apply (retained_rows_have_valid_alleles VALID_SNPS_spec
           (default_translation (labels header_frq)) [] args_keep_maf header_frq
           header_frq_translated [chunk_frq] parsed_frq.1 parsed_frq.2 row_frq_out).
  - reflexivity.
  - vm_compute. reflexivity.
  - repeat constructor.
  - vm_compute. reflexivity.
  - vm_compute. left.
Defined.

(** ** The counters *)

Lemma dropped_incr (k : string) (x : Z) (d : gmap string Z) :
  k ∈ ["NA"; "MERGE"; "INFO"; "FRQ"; "P"; "A"] ->
  dropped (incr k x d) = (dropped d + x)%Z /\ incr k x d !!! "SNP" = d !!! "SNP".
Proof.
  intros Hk. unfold dropped, incr.
  repeat (apply elem_of_cons in Hk as [->|Hk]);
    [..|inversion Hk];
    (split;
     [repeat first [rewrite lookup_total_insert_eq
                   |rewrite lookup_total_insert_ne by discriminate]; lia
     |rewrite lookup_total_insert_ne by discriminate; reflexivity]).
Qed.

Ltac incr_key := repeat first [left; reflexivity | right].

Lemma info_step_drops (a : args) (dat : frame) (d : gmap string Z) (ii : list bool) :
  dropped (info_step a dat (d, ii)).1
  = (dropped d + msum ii - msum (info_step a dat (d, ii)).2)%Z /\
  (info_step a dat (d, ii)).1 !!! "SNP" = d !!! "SNP".
Proof.
  unfold info_step. destruct (decide _); cbn [fst snd].
  - destruct (dropped_incr "INFO" (msum ii - msum (mand ii (filter_info (getitem "INFO" dat) a)))
                d) as [-> ->]; [incr_key|]. split; [lia|reflexivity].
  - split; [lia|reflexivity].
Qed.

Lemma frq_step_drops (a : args) (dat : frame) (d d' : gmap string Z) (ii ii' : list bool) :
  frq_step a dat (d, ii) = Ok (d', ii') ->
  dropped d' = (dropped d + msum ii - msum ii')%Z /\ d' !!! "SNP" = d !!! "SNP".
Proof.
  unfold frq_step. destruct (decide _).
  - destruct (getitem "FRQ" dat) as [frq|]; [|discriminate]. intros [= <- <-].
    destruct (dropped_incr "FRQ" (msum ii - msum (mand ii (filter_frq frq a))) d)
      as [-> ->]; [incr_key|]. split; [lia|reflexivity].
  - intros [= <- <-]. split; [lia|reflexivity].
Qed.

Lemma pval_step_drops (dat : frame) (d d' : gmap string Z) (ii ii' : list bool) :
  pval_step dat (d, ii) = Ok (d', ii') ->
  dropped d' = (dropped d + msum ii - msum ii')%Z /\ d' !!! "SNP" = d !!! "SNP".
Proof.
  unfold pval_step. destruct (attr "P" dat) as [P|]; [|discriminate].
  cbn [mbind result_bind]. intros [= <- <-].
  destruct (dropped_incr "P" (msum ii - msum (mand ii (filter_pvals P))) d)
    as [-> ->]; [incr_key|]. split; [lia|reflexivity].
Qed.

Lemma allele_step_drops (V : list string) (a : args) (dat dat' : frame)
    (d d' : gmap string Z) (ii ii' : list bool) :
  allele_step V a dat (d, ii) = Ok (d', ii', dat') ->
  dropped d' = (dropped d + msum ii - msum ii')%Z /\ d' !!! "SNP" = d !!! "SNP".
Proof.
  unfold allele_step. destruct (no_alleles a).
  - intros [= <- <- _]. split; [lia|reflexivity].
  - destruct (upper_column "A1" dat) as [d1|]; [|discriminate]. cbn [mbind result_bind].
    destruct (upper_column "A2" d1) as [d2|]; [|discriminate]. cbn [mbind result_bind].
    destruct (attr "A1" d2) as [A1|]; [|discriminate]. cbn [mbind result_bind].
    destruct (attr "A2" d2) as [A2|]; [|discriminate]. cbn [mbind result_bind].
    intros [= <- <- _].
    destruct (dropped_incr "A"
                (msum ii - msum (mand ii (filter_alleles V (zip_with cell_add A1 A2)))) d)
      as [-> ->]; [incr_key|]. split; [lia|reflexivity].
Qed.

Lemma msum_all_true (dat : frame) : msum (all_true dat) = len dat.
Proof.
  unfold all_true, len. rewrite msum_fmap.
  rewrite filter_all_intro by reflexivity. reflexivity.
Qed.

(** the number of rows of what a chunk contributes *)
Lemma filter_chunk_accounting (V : list string) (a : args) (d d' : gmap string Z)
    (dat : frame) (res : option frame) :
  (length (filter (fun l => l = "INFO") (labels (columns dat))) <= 1)%nat ->
  filter_chunk V a d dat = Ok (d', res) ->
  dropped d' = (dropped d + len dat - from_option len 0%Z res)%Z /\
  d' !!! "SNP" = d !!! "SNP".
Proof.
  intros Hinfo. unfold filter_chunk.
  pose proof (info_step_mask a dat d (fun _ => true) Hinfo) as H1.
  pose proof (info_step_drops a dat d (all_true dat)) as [D1 S1].
  rewrite msum_all_true in D1. unfold all_true in *.
  destruct (info_step a dat _) as [d1 ii1]. cbn [fst snd] in H1, D1, S1.
  destruct (frq_step a dat _) as [[d2 ii2]|] eqn:H2; [|discriminate].
  pose proof (frq_step_drops _ _ _ _ _ _ H2) as [D2 S2].
  rewrite H1 in H2. apply frq_step_mask in H2. cbn [mbind result_bind].
  rewrite drop_info_frq_eq.
  destruct (pval_step _ _) as [[d3 ii3]|] eqn:H3; [|discriminate].
  pose proof (pval_step_drops _ _ _ _ _ H3) as [D3 S3].
  rewrite H2 in H3. apply pval_step_mask in H3. cbn [mbind result_bind].
  destruct (allele_step _ _ _ _) as [[[d4 ii4] dat4]|] eqn:H4; [|discriminate].
  pose proof (allele_step_drops _ _ _ _ _ _ _ _ H4) as [D4 S4].
  rewrite H3 in H4. apply allele_step_mask in H4 as [H4 ->].
  cbn [mbind result_bind]. cbv zeta.
  destruct (decide (msum ii4 = 0%Z)) as [Hz|Hnz].
  - intros [= <- <-]. cbn [from_option]. split; [lia|congruence].
  - intros [= <- <-]. cbn [from_option]. split; [|congruence].
    assert (len (take_rows ii4
                   (Frame (out_columns a (columns dat))
                      ((fun r => if no_alleles a
                                 then cells_where (kept_label a) (columns dat) r
                                 else update (out_columns a (columns dat)) "A2" str_upper
                                        (update (out_columns a (columns dat)) "A1" str_upper
                                           (cells_where (kept_label a) (columns dat) r)))
                         <$> rows dat)))
            = msum ii4) as ->; [|lia].
    unfold take_rows, len. cbn [rows]. rewrite H4, select_fmap_fmap, length_fmap, msum_fmap.
    reflexivity.
Qed.

Lemma parse_chunk_accounting (V : list string) (cc : odict) (alleles : list (cell * cell))
    (a : args) (d d' : gmap string Z) (dat : frame) (res : option frame) :
  parse_chunk V cc alleles a d dat = Ok (d', res) ->
  dropped d' = (dropped d + len dat - from_option len 0%Z res)%Z /\
  d' !!! "SNP" = d !!! "SNP".
Proof.
  unfold parse_chunk.
  destruct (dropped_incr "NA" (len dat - len (na_filter dat)) d) as [DN SN]; [incr_key|].
  revert DN SN. generalize (incr "NA" (len dat - len (na_filter dat)) d). intros d0 DN SN.
  destruct (rename_columns cc (columns (na_filter dat))) as [cs|] eqn:Hcs; [|discriminate].
  cbn [mbind result_bind].
  destruct (decide (numeric_labels_unique _)) as [Hu|]; [|discriminate].
  destruct (decide (wrong_types _ = [])) as [Hw|]; [|discriminate].
  assert (forall rs,
            (length (filter (fun l => l = "INFO") (labels (columns (Frame cs rs)))) <= 1)%nat)
    as Hinfo.
  { intros rs. apply (numeric_label_count (Frame cs [])); [exact Hu|].
    unfold numeric_cols. set_solver. }
  cbv zeta. destruct (merge_alleles a).
  - destruct (attr "SNP" _) as [SNP|] eqn:HS; [|discriminate].
    apply attr_Ok in HS as [-> _]. cbn [mbind result_bind].
    rewrite msum_all_true.
    set (dat1 := Frame cs (rows (na_filter dat))).
    set (ii := isin (col "SNP" dat1) alleles.*1).
    destruct (dropped_incr "MERGE" (len dat1 - msum ii) d0) as [DM SM]; [incr_key|].
    revert DM SM. generalize (incr "MERGE" (len dat1 - msum ii) d0). intros d1 DM SM.
    assert (len dat1 = len (na_filter dat)) as Hlen by reflexivity.
    destruct (decide (msum ii = 0%Z)) as [Hz|Hnz].
    + intros [= <- <-]. cbn [from_option]. split; [lia|congruence].
    + intros H. apply filter_chunk_accounting in H as [D S]; [|apply Hinfo].
      split; [|congruence].
      assert (len (take_rows ii dat1) = msum ii) as Hsel.
      { unfold take_rows, len, ii, isin, col. cbn [rows].
        rewrite <- list_fmap_compose, select_fmap, msum_fmap. reflexivity. }
      lia.
  - intros H. apply filter_chunk_accounting in H as [D S]; [|apply Hinfo].
    split; [|congruence].
    assert (len (Frame cs (rows (na_filter dat))) = len (na_filter dat)) as Hlen
      by reflexivity.
    lia.
Qed.

Lemma parse_loop_accounting (V : list string) (cc : odict) (alleles : list (cell * cell))
    (a : args) (dat_gen : list frame) (st st' : loop_state) :
  parse_loop V cc alleles a dat_gen st = Ok st' ->
  (tot_snps st' - dropped (drops st') - Z.of_nat (length (concat (rows <$> dat_list st')))
   = tot_snps st - dropped (drops st) - Z.of_nat (length (concat (rows <$> dat_list st))))%Z /\
  drops st' !!! "SNP" = drops st !!! "SNP".
Proof.
  revert st. induction dat_gen as [|dat dat_gen IH]; intros st; cbn [parse_loop].
  - intros [= <-]. split; reflexivity.
  - destruct (parse_chunk V cc alleles a (drops st) dat) as [[d' res]|] eqn:Hc; [|discriminate].
    cbn [mbind result_bind]. intros H.
    apply parse_chunk_accounting in Hc as [D S].
    apply IH in H as [H HS]. cbn [tot_snps dat_list drops] in H, HS.
    split; [|congruence]. rewrite H. destruct res as [f|]; cbn [from_option] in D.
    + rewrite fmap_app, concat_app, length_app. cbn. rewrite app_nil_r. unfold len in *. lia.
    + lia.
Qed.

Lemma len_Frame (cs : list (string * dtype)) (rs : list row) :
  len (Frame cs rs) = Z.of_nat (length rs).
Proof. reflexivity. Qed.

(** X8.  The counters of [parse_dat] account for every record read: the
    total is the number of rows of the table plus the removals counted under
    NA, MERGE, INFO, FRQ, P and A, so no record is counted twice or lost.
    The counter SNP is never touched by the pass. *)
Theorem drop_counters_account_for_every_row (V : list string) (cc : odict)
    (alleles : list (cell * cell)) (a : args) (dat_gen : list frame) (dat : frame)
    (st : loop_state) :
  parse_dat V dat_gen cc alleles a = Ok (dat, st) ->
  tot_snps st
  = (len dat + (drops st !!! "NA" + drops st !!! "MERGE" + drops st !!! "INFO"
                + drops st !!! "FRQ" + drops st !!! "P" + drops st !!! "A"))%Z /\
  drops st !!! "SNP" = 0%Z.
Proof.
  unfold parse_dat.
  destruct (parse_loop V cc alleles a dat_gen (LoopState 0 [] drops0)) as [st0|] eqn:Hloop;
    [|discriminate].
  cbn [mbind result_bind].
  apply parse_loop_accounting in Hloop as [Hacc Hsnp].
  cbn [tot_snps dat_list drops] in Hacc, Hsnp.
  unfold pd_concat. destruct (dat_list st0) as [|d ds] eqn:Hlist; [discriminate|].
  remember (concat (rows <$> d :: ds)) as l eqn:Hl.
  cbn [mbind result_bind]. intros [= <- <-]. rewrite len_Frame.
  assert (dropped drops0 = 0%Z) as H0 by (vm_compute; reflexivity).
  assert (drops0 !!! "SNP" = 0%Z) as H1 by (vm_compute; reflexivity).
  rewrite H0 in Hacc. rewrite H1 in Hsnp.
  change (length (concat (rows <$> []))) with 0%nat in Hacc.
  unfold dropped in Hacc. split; [lia|exact Hsnp].
Qed.

Lemma drop_counters_account_for_every_row_witness :
  tot_snps parsed_INFO.2
  = (len parsed_INFO.1
     + (drops parsed_INFO.2 !!! "NA" + drops parsed_INFO.2 !!! "MERGE"
        + drops parsed_INFO.2 !!! "INFO" + drops parsed_INFO.2 !!! "FRQ"
        + drops parsed_INFO.2 !!! "P" + drops parsed_INFO.2 !!! "A"))%Z /\
  drops parsed_INFO.2 !!! "SNP" = 0%Z.
Proof.
  apply (drop_counters_account_for_every_row VALID_SNPS_spec
           (default_translation (labels header_INFO)) [] args0 [chunk_INFO]).
  vm_compute. reflexivity.
Defined.

(** ** Missing values *)

Lemma renamed_cells_checked (cc : odict) (a : args) (raw cs : list (string * dtype))
    (r : row) (x : cell) :
  rename_columns cc raw = Ok cs ->
  (forall v, od_get "INFO" cc = Some v -> v = "INFO") ->
  x ∈ cells_where (kept_label a) cs r ->
  x ∈ cells_where (fun l => bool_decide (l <> "INFO")) raw r.
Proof.
  intros Hcs Hinfo. revert cs r Hcs.
  induction raw as [|[l t] raw IH]; intros cs r Hcs.
  - cbn in Hcs. assert (cs = []) as -> by congruence. cbn. intros H. inversion H.
  - cbn [rename_columns] in Hcs.
    destruct (od_get l cc) as [l'|] eqn:Hl; [|discriminate].
    destruct (rename_columns cc raw) as [cs'|] eqn:Hcs'; [|discriminate].
    cbn [mbind result_bind] in Hcs. assert (cs = (l', t) :: cs') as -> by congruence.
    destruct r as [|x0 r]; [cbn; intros H; inversion H|].
    cbn [cells_where].
    destruct (kept_label a l') eqn:Hk.
    + assert (l <> "INFO") as Hne.
      { intros ->. apply Hinfo in Hl. subst l'.
        unfold kept_label, dropped_labels in Hk. destruct (keep_maf a); vm_compute in Hk;
          discriminate. }
      rewrite bool_decide_true by exact Hne.
      intros [->|Hx]%elem_of_cons; [left|right]. apply (IH cs' r eq_refl Hx).
    + intros Hx. apply (IH cs' r eq_refl) in Hx.
      destruct (bool_decide (l <> "INFO")); [right|]; exact Hx.
Qed.

Lemma Forall_update (P : cell -> Prop) (cs : list (string * dtype)) (c : string)
    (f : cell -> cell) (r : row) :
  Forall P r -> P (f (get cs c r)) -> Forall P (update cs c f r).
Proof.
  intros Hr Hf. unfold update, get in *. destruct (col_index c cs) as [i|]; [|exact Hr].
  apply Forall_lookup. intros j y Hj.
  destruct (decide (i = j)) as [->|Hne].
  - rewrite list_lookup_alter_eq in Hj. destruct (r !! j) as [x|]; [|discriminate].
    cbn in Hj, Hf. congruence.
  - rewrite list_lookup_alter_ne in Hj by exact Hne.
    apply (proj1 (Forall_lookup _ _) Hr j y Hj).
Qed.

(** X9.  When the raw header [INFO], if the file has one, is translated to
    the field INFO, no cell of the table of [parse_dat] is missing: the NA
    filter has removed every record with a missing value in a column that
    stays, and upper-casing the alleles creates none. *)
Theorem retained_rows_have_no_missing_value (V : list string) (cc : odict)
    (alleles : list (cell * cell)) (a : args) (raw cs : list (string * dtype))
    (dat_gen : list frame) (dat : frame) (st : loop_state) (r : row) :
  (forall v, od_get "INFO" cc = Some v -> v = "INFO") ->
  rename_columns cc raw = Ok cs ->
  Forall (fun d => columns d = raw) dat_gen ->
  parse_dat V dat_gen cc alleles a = Ok (dat, st) -> r ∈ rows dat ->
  Forall (fun x => notnull x = true) r.
Proof.
  intros Hinfo Hcs Hall H Hr.
  rewrite (parse_dat_table V cc alleles a raw cs Hcs _ _ _ Hall H) in Hr.
  cbn [rows] in Hr.
  apply list_elem_of_fmap in Hr as (r0 & -> & [Hkeep _]%list_elem_of_filter).
  unfold chunk_keep in Hkeep.
  apply andb_true_iff in Hkeep as [Hkeep Hrow].
  apply andb_true_iff in Hkeep as [Hna _].
  assert (Forall (fun x => notnull x = true) (cells_where (kept_label a) cs r0)) as Hcells.
  { apply Forall_forall. intros x Hx.
    apply (renamed_cells_checked cc a raw cs r0 x Hcs Hinfo) in Hx.
    unfold na_keep in Hna. rewrite forallb_forall in Hna. apply Hna.
    apply list_elem_of_In. exact Hx. }
  unfold out_row. destruct (no_alleles a) eqn:Hno; [exact Hcells|].
  unfold keep_row in Hrow. rewrite Hno in Hrow.
  apply andb_true_iff in Hrow as [_ Hrow].
  apply alleles_keep_inv in Hrow as (s1 & s2 & H1 & H2 & _).
  apply Forall_update; [apply Forall_update; [exact Hcells|]|].
  - unfold out_columns. rewrite get_cells_where by (apply kept_label_other; discriminate).
    rewrite H1. reflexivity.
  - rewrite get_update_ne by discriminate.
    unfold out_columns. rewrite get_cells_where by (apply kept_label_other; discriminate).
    rewrite H2. reflexivity.
Qed.

Lemma retained_rows_have_no_missing_value_witness :
  Forall (fun x => notnull x = true) row_frq_out.
Proof.
  apply (retained_rows_have_no_missing_value VALID_SNPS_spec
           (default_translation (labels header_frq)) [] args_keep_maf header_frq
           header_frq_translated [chunk_frq] parsed_frq.1 parsed_frq.2 row_frq_out).
  - intros v Hv. vm_compute in Hv. discriminate.
  - vm_compute. reflexivity.
  - repeat constructor.
  - vm_compute. reflexivity.
  - vm_compute. left.
Defined.

(** ** The type check *)

Lemma parse_loop_app (V : list string) (cc : odict) (alleles : list (cell * cell))
    (a : args) (l1 l2 : list frame) (st : loop_state) :
  parse_loop V cc alleles a (l1 ++ l2) st
  = (st1 ← parse_loop V cc alleles a l1 st; parse_loop V cc alleles a l2 st1).
Proof.
  revert st. induction l1 as [|d l1 IH]; intros st; [reflexivity|].
  cbn [app parse_loop].
  destruct (parse_chunk V cc alleles a (drops st) d) as [[d' res]|]; [|reflexivity].
  cbn [mbind result_bind]. apply IH.
Qed.

(** X10.  The type check of [parse_dat] is fatal and looks at the columns
    only: a chunk in which a numeric field has a column of text ends the run
    with the "expected to be numeric" error that lists these columns,
    whatever the records of the chunk are and whatever the later chunks
    hold. *)
Theorem non_numeric_column_is_fatal (V : list string) (cc : odict)
    (alleles : list (cell * cell)) (a : args) (pre post : list frame) (dat : frame)
    (cs : list (string * dtype)) (c : string) (st1 : loop_state) :
  parse_loop V cc alleles a pre (LoopState 0 [] drops0) = Ok st1 ->
  rename_columns cc (columns dat) = Ok cs ->
  numeric_labels_unique (Frame cs []) ->
  c ∈ numeric_cols -> (c, DObject) ∈ cs ->
  c ∈ wrong_types (Frame cs []) /\
  parse_dat V (pre ++ dat :: post) cc alleles a
  = Err (ExpectedNumeric (wrong_types (Frame cs []))).
Proof.
  intros Hpre Hcs Hu Hc Hin.
  assert (c ∈ wrong_types (Frame cs [])) as Hw.
  { unfold wrong_types. cbn [columns]. apply list_elem_of_fmap. exists (c, DObject).
    split; [reflexivity|]. apply list_elem_of_filter. split; [|exact Hin].
    split; [exact Hc|discriminate]. }
  split; [exact Hw|].
  unfold parse_dat. rewrite parse_loop_app, Hpre. cbn [mbind result_bind parse_loop].
  unfold parse_chunk at 1. unfold na_filter, dropna. cbn [columns rows].
  rewrite Hcs. cbn [mbind result_bind].
  unfold numeric_labels_unique, wrong_types in *. cbn [columns] in *.
  rewrite decide_True by exact Hu.
  rewrite decide_False; [reflexivity|].
  intros Hnil. rewrite Hnil in Hw. inversion Hw.
Qed.

Lemma non_numeric_column_is_fatal_witness :
  "P" ∈ wrong_types (Frame header_text_p_translated []) /\
  parse_dat VALID_SNPS_spec ([chunk_frq] ++ chunk_text_p :: [chunk_frq])
    (default_translation (labels header_frq)) [] args0
  = Err (ExpectedNumeric (wrong_types (Frame header_text_p_translated []))).
Proof.
  apply (non_numeric_column_is_fatal VALID_SNPS_spec
           (default_translation (labels header_frq)) [] args0 [chunk_frq] [chunk_frq]
           chunk_text_p header_text_p_translated "P"
           (match parse_loop VALID_SNPS_spec (default_translation (labels header_frq)) []
                    args0 [chunk_frq] (LoopState 0 [] drops0) with
            | Ok s => s
            | Err _ => LoopState 0 [] drops0
            end)).
  - vm_compute. reflexivity.
  - vm_compute. reflexivity.
  - by_evaluation.
  - by_evaluation.
  - by_evaluation.
Defined.

(** * Further properties of the sample-size step *)

Lemma NoDup_labels_filter (p : string * dtype -> Prop) `{forall x, Decision (p x)}
    (cs : list (string * dtype)) :
  NoDup (labels cs) -> NoDup (labels (filter p cs)).
Proof.
  unfold labels. intros Hnd. eapply sublist_NoDup; [exact Hnd|].
  apply fmap_sublist, sublist_filter.
Qed.

Lemma NoDup_set_column (c : string) (s : list cell) (dat : frame) :
  NoDup (labels (columns dat)) -> NoDup (labels (columns (set_column c s dat))).
Proof.
  intros Hnd. unfold set_column.
  destruct (col_index c (columns dat)) as [i|] eqn:Hi; cbn [columns].
  - rewrite labels_alter by reflexivity. exact Hnd.
  - unfold labels. rewrite fmap_app. apply NoDup_app. split; [exact Hnd|]. split.
    + intros x Hx Hc. apply list_elem_of_singleton in Hc. cbn in Hc. subst x.
      apply col_index_is_Some in Hx as [j Hj]. congruence.
    + cbn. apply NoDup_singleton.
Qed.

Lemma NoDup_drop_columns (cs : list string) (dat : frame) :
  NoDup (labels (columns dat)) -> NoDup (labels (columns (drop_columns cs dat))).
Proof. intros Hnd. unfold drop_columns. cbn [columns]. apply NoDup_labels_filter, Hnd. Qed.

Lemma length_select_le {A : Type} (ii : list bool) (l : list A) :
  (length (select ii l) <= length l)%nat.
Proof.
  revert l. induction ii as [|b ii IH]; intros [|x l]; cbn; try lia.
  specialize (IH l). destruct b; cbn; lia.
Qed.

Lemma length_rows_set_column (c : string) (s : list cell) (dat : frame) :
  (length (rows (set_column c s dat)) <= length (rows dat))%nat.
Proof.
  unfold set_column. destruct (col_index c (columns dat)); cbn [rows];
    rewrite length_zip_with; lia.
Qed.

(** X11.  A successful [process_n] returns a table with a column N and with
    no more rows than it was given. *)
Theorem process_n_gives_sample_size (dat out : frame) (a : args) :
  process_n dat a = Ok out ->
  ("N" ∈ labels (columns out)) /\ (length (rows out) <= length (rows dat))%nat.
Proof.
  unfold process_n.
  set (stage1 := if decide ("N_CAS" ∈ labels (columns dat) ∧ "N_CON" ∈ labels (columns dat))
                 then _ else _).
  assert (forall d1, stage1 = Ok d1 -> (length (rows d1) <= length (rows dat))%nat) as H1.
  { intros d1. unfold stage1. destruct (decide _); [|intros [= <-]; lia].
    destruct (attr "N_CAS" dat) as [N_CAS|]; [|discriminate].
    destruct (attr "N_CON" dat) as [N_CON|]; [|discriminate].
    cbn [mbind result_bind]. intros [= <-]. unfold drop_columns. cbn [rows].
    rewrite length_fmap. apply length_rows_set_column. }
  destruct stage1 as [d1|]; [|discriminate]. specialize (H1 d1 eq_refl).
  cbn [mbind result_bind].
  set (stage2 := if decide ("N" ∈ labels (columns d1)) then _ else _).
  assert (forall d2, stage2 = Ok d2 -> (length (rows d2) <= length (rows d1))%nat) as H2.
  { intros d2. unfold stage2. destruct (decide _).
    - destruct (attr "N" d1) as [N|]; [|discriminate]. cbn [mbind result_bind].
      intros [= <-]. apply length_select_le.
    - destruct (decide _); [|intros [= <-]; lia].
      destruct (attr "NSTUDY" d1) as [NSTUDY|]; [|discriminate]. cbn [mbind result_bind].
      intros [= <-]. unfold drop_columns. cbn [rows]. rewrite length_fmap.
      apply length_select_le. }
  destruct stage2 as [d2|]; [|discriminate]. specialize (H2 d2 eq_refl).
  cbn [mbind result_bind].
  destruct (decide ("N" ∈ labels (columns d2))) as [Hin|Hnin].
  - intros [= <-]. split; [exact Hin|lia].
  - destruct (flag_set (N_fixed a)).
    + intros [= <-]. split; [apply labels_set_column; left; reflexivity|].
      pose proof (length_rows_set_column "N"
                    ((fun _ => Num (default NaN (N_fixed a))) <$> rows d2) d2). lia.
    + destruct (flag_set (N_cas a) && flag_set (N_con a)); [|discriminate].
      intros [= <-]. split; [apply labels_set_column; left; reflexivity|].
      pose proof (length_rows_set_column "N"
                    ((fun _ => Num (Num.add (default NaN (N_cas a)) (default NaN (N_con a))))
                       <$> rows d2) d2). lia.
Qed.

Lemma process_n_gives_sample_size_witness :
  ("N" ∈ labels (columns (Frame [("SNP", DObject); ("N", DNumber)]
                                [[Txt "rs2"; Num (Num.of_Z 1500)]]))) /\
  (length (rows (Frame [("SNP", DObject); ("N", DNumber)]
                       [[Txt "rs2"; Num (Num.of_Z 1500)]]))
   <= length (rows table_cc))%nat.
Proof.
  apply (process_n_gives_sample_size table_cc _ args0).
  by_evaluation.
Defined.

Lemma with_case_control_n_NoDup (dat : frame) :
  NoDup (labels (columns dat)) -> NoDup (labels (columns (with_case_control_n dat))).
Proof.
  intros Hnd. unfold with_case_control_n. destruct (decide _); [|exact Hnd].
  apply NoDup_drop_columns, NoDup_set_column, Hnd.
Qed.

(** [process_n] on a table with distinct labels, by cases *)
Lemma process_n_cases (dat : frame) (a : args) :
  NoDup (labels (columns dat)) ->
  process_n dat a
  = let d1 := with_case_control_n dat in
    if decide ("N" ∈ labels (columns d1))
    then Ok (take_rows ((fun x => Num.le (n_threshold a (col "N" d1)) (to_num x))
                          <$> col "N" d1) d1)
    else match fixed_n a with
         | Some n =>
             Ok (set_column "N" ((fun _ => Num n) <$> rows (nstudy_filtered a d1))
                   (nstudy_filtered a d1))
         | None => Err CannotDetermineN
         end.
Proof.
  intros Hnd. pose proof (with_case_control_n_NoDup dat Hnd) as Hnd1.
  unfold process_n. cbv zeta.
  assert ((if decide ("N_CAS" ∈ labels (columns dat) ∧ "N_CON" ∈ labels (columns dat))
           then N_CAS ← attr "N_CAS" dat;
                N_CON ← attr "N_CON" dat;
                Ok (drop_columns ["N_CAS"; "N_CON"]
                      (set_column "N" (case_control_n N_CAS N_CON) dat))
           else Ok dat) = Ok (with_case_control_n dat)) as ->.
  { unfold with_case_control_n. destruct (decide _) as [[H1 H2]|]; [|reflexivity].
    rewrite !attr_NoDup by assumption. reflexivity. }
  cbn [mbind result_bind]. generalize dependent (with_case_control_n dat). intros d1 Hnd1.
  destruct (decide ("N" ∈ labels (columns d1))) as [Hn|Hn].
  - rewrite attr_NoDup by assumption. cbn [mbind result_bind].
    fold (n_threshold a (col "N" d1)).
    unfold take_rows at 1. cbn [columns]. rewrite decide_True by exact Hn. reflexivity.
  - assert ((if decide ("NSTUDY" ∈ labels (columns d1))
             then NSTUDY ← attr "NSTUDY" d1;
                  Ok (drop_columns ["NSTUDY"]
                        (take_rows
                           ((fun x =>
                               Num.le (if flag_set (nstudy_min a)
                                       then default NaN (nstudy_min a)
                                       else series_max NSTUDY) (to_num x)) <$> NSTUDY) d1))
             else Ok d1) = Ok (nstudy_filtered a d1)) as ->.
    { unfold nstudy_filtered. destruct (decide _) as [H|]; [|reflexivity].
      rewrite attr_NoDup by assumption. reflexivity. }
    cbn [mbind result_bind].
    assert ("N" ∉ labels (columns (nstudy_filtered a d1))) as Hn2.
    { unfold nstudy_filtered. destruct (decide _); [|exact Hn].
      intros [H _]%labels_drop_columns. exact (Hn H). }
    rewrite decide_False by exact Hn2. unfold fixed_n.
    destruct (flag_set (N_fixed a)); [reflexivity|].
    destruct (flag_set (N_cas a) && flag_set (N_con a)); reflexivity.
Qed.

Lemma with_case_control_n_has_n (dat : frame) :
  "N" ∈ labels (columns (with_case_control_n dat)) <->
  ("N_CAS" ∈ labels (columns dat) /\ "N_CON" ∈ labels (columns dat)) \/
  "N" ∈ labels (columns dat).
Proof.
  unfold with_case_control_n. destruct (decide _) as [Hb|Hb].
  - rewrite labels_drop_columns, labels_set_column. split; [auto|]. intros _.
    split; [left; reflexivity|].
    intros H. repeat (apply elem_of_cons in H as [?|H]; [discriminate|]). inversion H.
  - tauto.
Qed.

(** X12.  On a table with distinct column labels [process_n] has one way to
    fail: "Cannot determine N", raised exactly when there is no column N, not
    both of N_CAS and N_CON, and neither [--N] nor both of [--N-cas] and
    [--N-con] are given with a value other than zero. *)
Theorem process_n_fails_only_without_sample_size (dat : frame) (a : args) :
  NoDup (labels (columns dat)) ->
  (forall e, process_n dat a = Err e -> e = CannotDetermineN) /\
  (process_n dat a = Err CannotDetermineN <->
   ("N" ∉ labels (columns dat)) /\
   ~ ("N_CAS" ∈ labels (columns dat) /\ "N_CON" ∈ labels (columns dat)) /\
   flag_set (N_fixed a) = false /\
   flag_set (N_cas a) && flag_set (N_con a) = false).
Proof.
  intros Hnd. rewrite (process_n_cases dat a Hnd). cbv zeta.
  pose proof (with_case_control_n_has_n dat) as Hn.
  destruct (decide ("N" ∈ labels (columns (with_case_control_n dat)))) as [H|H].
  - split; [discriminate|]. split; [discriminate|].
    intros (H1 & H2 & _). apply Hn in H. tauto.
  - unfold fixed_n. destruct (flag_set (N_fixed a)).
    + split; [discriminate|]. split; [discriminate|]. intros (_ & _ & ? & _). discriminate.
    + destruct (flag_set (N_cas a) && flag_set (N_con a)).
      * split; [discriminate|]. split; [discriminate|].
        intros (_ & _ & _ & ?). discriminate.
      * split; [intros e [= <-]; reflexivity|]. split; [|reflexivity].
        intros _. rewrite Hn in H. tauto.
Qed.

Lemma process_n_fails_only_without_sample_size_witness :
  (forall e, process_n (Frame header_out [record_n "rs1" 100])
               (Args false Num.zero Num.zero false false None None (Some Num.zero) None None)
             = Err e -> e = CannotDetermineN) /\
  (process_n (Frame [("SNP", DObject); ("P", DNumber)] [[Txt "rs1"; Num (Num.frac 1 2)]])
     (Args false Num.zero Num.zero false false None None (Some Num.zero) None None)
   = Err CannotDetermineN).
Proof.
  split.
  - apply (process_n_fails_only_without_sample_size (Frame header_out [record_n "rs1" 100])).
    by_evaluation.
  - apply (process_n_fails_only_without_sample_size
             (Frame [("SNP", DObject); ("P", DNumber)] [[Txt "rs1"; Num (Num.frac 1 2)]])).
    + by_evaluation.
    + repeat split; by_evaluation.
Defined.

Lemma with_case_control_n_fixed (d : frame) :
  ~ ("N_CAS" ∈ labels (columns d) /\ "N_CON" ∈ labels (columns d)) ->
  with_case_control_n d = d.
Proof. intros H. unfold with_case_control_n. rewrite decide_False by exact H. reflexivity. Qed.

Lemma with_case_control_n_lacks (dat : frame) :
  ~ ("N_CAS" ∈ labels (columns (with_case_control_n dat)) /\
     "N_CON" ∈ labels (columns (with_case_control_n dat))).
Proof.
  unfold with_case_control_n. destruct (decide _) as [Hb|Hb]; [|exact Hb].
  intros [H _]. apply labels_drop_columns in H as [_ H]. apply H. left.
Qed.

Lemma process_n_filter (dat : frame) (a : args) (m : num) :
  NoDup (labels (columns dat)) ->
  n_min a = Some m -> Num.truthy m = true ->
  "N" ∈ labels (columns (with_case_control_n dat)) ->
  process_n dat a
  = Ok (Frame (columns (with_case_control_n dat))
              (filter (fun r => Num.le m (to_num (get (columns (with_case_control_n dat))
                                                     "N" r)) = true)
                      (rows (with_case_control_n dat)))).
Proof.
  intros Hnd Hm Ht Hn.
  rewrite (process_n_cases dat a Hnd). cbv zeta.
  rewrite decide_True by exact Hn.
  unfold n_threshold, flag_set. rewrite Hm, Ht. cbn [default from_option].
  unfold take_rows, col. rewrite <- list_fmap_compose. f_equal. f_equal.
  apply (select_fmap (fun r => Num.le m (to_num (get (columns (with_case_control_n dat))
                                                   "N" r)))).
Qed.

(** X13.  With [--n-min] given (and not zero) and a column N in the table, or
    N_CAS and N_CON, the filter of [process_n] keeps exactly the rows whose N
    is at least the threshold, and a second run on its result returns the
    result unchanged. *)
Theorem explicit_n_min_filter_is_stable (dat : frame) (a : args) (m : num) :
  NoDup (labels (columns dat)) ->
  n_min a = Some m -> Num.truthy m = true ->
  "N" ∈ labels (columns (with_case_control_n dat)) ->
  exists out,
    process_n dat a = Ok out /\
    rows out = filter (fun r => Num.le m (to_num (get (columns out) "N" r)) = true)
                      (rows (with_case_control_n dat)) /\
    process_n out a = Ok out.
Proof.
  intros Hnd Hm Ht Hn.
  pose proof (process_n_filter dat a m Hnd Hm Ht Hn) as H1.
  pose proof (with_case_control_n_NoDup dat Hnd) as Hnd1.
  pose proof (with_case_control_n_lacks dat) as Hlack.
  revert H1 Hnd1 Hlack Hn. generalize (with_case_control_n dat). intros d1 H1 Hnd1 Hlack Hn.
  eexists. split; [exact H1|]. split; [reflexivity|].
  set (out := Frame _ _).
  assert (with_case_control_n out = out) as Hfix by (apply with_case_control_n_fixed, Hlack).
  rewrite (process_n_filter out a m); [|exact Hnd1|exact Hm|exact Ht|rewrite Hfix; exact Hn].
  rewrite Hfix. unfold out. cbn [columns rows]. f_equal. f_equal.
  apply filter_all_intro. intros r [H _]%list_elem_of_filter. exact H.
Qed.

Lemma explicit_n_min_filter_is_stable_witness :
  exists out,
    process_n table_n3 (Args false Num.zero Num.zero false false (Some (Num.of_Z 120))
                             None None None None) = Ok out /\
    rows out = filter (fun r => Num.le (Num.of_Z 120) (to_num (get (columns out) "N" r)) = true)
                      (rows (with_case_control_n table_n3)) /\
    process_n out (Args false Num.zero Num.zero false false (Some (Num.of_Z 120))
                        None None None None) = Ok out.
Proof.
  apply (explicit_n_min_filter_is_stable table_n3).
  - by_evaluation.
  - reflexivity.
  - reflexivity.
  - by_evaluation.
Defined.

Lemma filter_ext_elem {A : Type} (P Q : A -> Prop) `{forall x, Decision (P x)}
    `{forall x, Decision (Q x)} (l : list A) :
  (forall x, x ∈ l -> P x <-> Q x) -> filter P l = filter Q l.
Proof.
  induction l as [|x l IH]; intros Hext; [reflexivity|].
  rewrite !filter_cons.
  rewrite IH by (intros y Hy; apply Hext; right; exact Hy).
  destruct (decide (P x)) as [HP|HP], (decide (Q x)) as [HQ|HQ]; try reflexivity;
    exfalso; pose proof (Hext x (list_elem_of_here _ _)); tauto.
Qed.

(** X14.  Without a column N (and without both of N_CAS and N_CON), a table
    with a column NSTUDY and no [--nstudy-min] keeps exactly the records
    whose number of studies is the largest one of the table; the column
    NSTUDY is dropped and N is filled from the flags. *)
Theorem nstudy_filter_keeps_the_largest (dat : frame) (a : args) (n : num)
    (f : row -> Qc) (rmax : row) :
  NoDup (labels (columns dat)) ->
  "N" ∉ labels (columns dat) ->
  ~ ("N_CAS" ∈ labels (columns dat) /\ "N_CON" ∈ labels (columns dat)) ->
  "NSTUDY" ∈ labels (columns dat) ->
  flag_set (nstudy_min a) = false -> fixed_n a = Some n ->
  (forall r, r ∈ rows dat -> get (columns dat) "NSTUDY" r = Num (Fin (f r))) ->
  rmax ∈ rows dat -> (forall r, r ∈ rows dat -> (f r <= f rmax)%Qc) ->
  exists out,
    process_n dat a = Ok out /\
    ("NSTUDY" ∉ labels (columns out)) /\
    rows out = (fun r => (cells_where (not_among ["NSTUDY"]) (columns dat) r ++ [Num n])%list)
                 <$> filter (fun r => f r = f rmax) (rows dat).
Proof.
  intros Hnd HN Hcc HS Hmin Hfix Hf Hmax Hle.
  rewrite (process_n_cases dat a Hnd). cbv zeta.
  rewrite (with_case_control_n_fixed dat Hcc).
  rewrite decide_False by exact HN. rewrite Hfix.
  eexists. split; [reflexivity|].
  assert (col "NSTUDY" dat = (fun r => Num (Fin (f r))) <$> rows dat) as Hcol.
  { unfold col. apply list_fmap_ext. intros i r Hr. apply Hf.
    apply list_elem_of_lookup_2 in Hr. exact Hr. }
  assert (nstudy_filtered a dat
          = Frame (filter (fun c => not_among ["NSTUDY"] c.1 = true) (columns dat))
                  (cells_where (not_among ["NSTUDY"]) (columns dat)
                     <$> filter (fun r => f r = f rmax) (rows dat))) as ->.
  { unfold nstudy_filtered. rewrite decide_True by exact HS.
    unfold nstudy_threshold. rewrite Hmin, Hcol.
    rewrite (series_max_Fin f (rows dat) rmax Hmax Hle).
    unfold drop_columns, take_rows. cbn [columns rows]. f_equal. f_equal.
    rewrite <- list_fmap_compose.
    rewrite (select_fmap (fun r => Num.le (Fin (f rmax)) (to_num (Num (Fin (f r)))))).
    apply filter_ext_elem. intros r Hr. cbn [to_num]. rewrite le_Fin. split.
    - intros H. apply Qcle_antisym; [apply Hle, Hr|exact H].
    - intros H. rewrite H. apply Qcle_refl. }
  assert ("N" ∉ labels (filter (fun c : string * dtype => not_among ["NSTUDY"] c.1 = true)
                          (columns dat))) as HN'.
  { intros [H _]%(labels_filter (not_among ["NSTUDY"])). exact (HN H). }
  split.
  - unfold set_column. cbn [columns rows].
    destruct (col_index "N" _) as [i|] eqn:Hi.
    { exfalso. apply HN'. apply col_index_is_Some. eauto. }
    cbn [columns]. unfold labels. rewrite fmap_app, elem_of_app.
    intros [H|H].
    + apply (labels_filter (not_among ["NSTUDY"])) in H as [_ H].
      vm_compute in H. discriminate.
    + apply list_elem_of_singleton in H. discriminate.
  - unfold set_column. cbn [columns rows].
    destruct (col_index "N" _) as [i|] eqn:Hi.
    { exfalso. apply HN'. apply col_index_is_Some. eauto. }
    cbn [rows]. rewrite zip_with_fmap_r, zip_with_diag, <- list_fmap_compose.
    reflexivity.
Qed.

Lemma nstudy_filter_keeps_the_largest_witness :
  exists out,
    process_n table_nstudy args_fixed_n = Ok out /\
    ("NSTUDY" ∉ labels (columns out)) /\
    rows out = (fun r => (cells_where (not_among ["NSTUDY"]) (columns table_nstudy) r
                          ++ [Num (Num.of_Z 1000)])%list)
                 <$> filter (fun r => second_number r
                                      = second_number [Txt "rs2"; Num (Num.of_Z 5)])
                            (rows table_nstudy).
Proof.
  apply (nstudy_filter_keeps_the_largest table_nstudy args_fixed_n (Num.of_Z 1000)
           second_number [Txt "rs2"; Num (Num.of_Z 5)]).
  - by_evaluation.
  - by_evaluation.
  - by_evaluation.
  - by_evaluation.
  - reflexivity.
  - reflexivity.
  - intros r Hr. repeat (apply elem_of_cons in Hr as [->|Hr]); [..|inversion Hr];
      reflexivity.
  - right. left.
  - intros r Hr. repeat (apply elem_of_cons in Hr as [->|Hr]); [..|inversion Hr];
      by_evaluation.
Defined.

(** ** The default threshold on N *)







(** * The column flags *)

Lemma dict_update_Forall (P : string -> string -> Prop) (d : gmap string string)
    (kvs : list (string * string)) :
  map_Forall P d -> Forall (fun kv => P kv.1 kv.2) kvs ->
  map_Forall P (dict_update d kvs).
Proof.
  unfold dict_update. intros Hd Hkvs. revert d Hd.
  induction Hkvs as [|kv kvs Hkv _ IH]; intros d Hd; [exact Hd|].
  cbn [foldl]. apply IH. apply map_Forall_insert_2; assumption.
Qed.

Lemma parse_flag_cnames_entries (float : string -> option num) (args : Cli.flags)
    (flags : gmap string string) (nv : option num) :
  parse_flag_cnames float args = Good (flags, nv) -> map_Forall flag_entry flags.
Proof.
  unfold parse_flag_cnames.
  set (m1 := dict_update ∅ _).
  assert (map_Forall flag_entry m1) as H1.
  { apply dict_update_Forall; [apply map_Forall_empty|].
    apply Forall_forall. intros [k v] Hkv.
    apply list_elem_of_omap in Hkv as ([h f] & Hin & Hf). cbn [fst snd] in *.
    destruct h as [h|]; [|discriminate]. injection Hf as <- <-.
    split; [apply clean_header_canonical|].
    unfold cname_options in Hin.
    repeat (apply elem_of_cons in Hin as [Heq|Hin];
            [apply (f_equal snd) in Heq; cbn in Heq; subst f; by_evaluation|]).
    inversion Hin. }
  set (m2 := if str_set (Cli.info_list args) then _ else m1).
  assert (map_Forall flag_entry m2) as H2.
  { unfold m2. destruct (str_set (Cli.info_list args)); [|exact H1].
    apply dict_update_Forall; [exact H1|].
    apply Forall_fmap, Forall_forall. intros x _. cbn.
    split; [apply clean_header_canonical|by_evaluation]. }
  clearbody m2. clear m1 H1.
  destruct (str_set (Cli.signed_sumstats args)); [|intros [= <- _]; exact H2].
  destruct (split_on _ _) as [|cname [|null [|? ?]]]; try discriminate.
  destruct (float null); [|discriminate]. intros [= <- _].
  apply map_Forall_insert_2; [|exact H2].
  split; [apply clean_header_canonical|by_evaluation].
Qed.

Lemma dict_update_is_Some (d : gmap string string) (kvs : list (string * string))
    (k : string) :
  is_Some (d !! k) \/ k ∈ kvs.*1 -> is_Some (dict_update d kvs !! k).
Proof.
  unfold dict_update. revert d. induction kvs as [|[k' v'] kvs IH]; intros d H; cbn [foldl].
  - destruct H as [H|H]; [exact H|inversion H].
  - apply IH. destruct H as [H|H].
    + left. destruct (decide (k' = k)) as [->|Hne].
      * rewrite lookup_insert_eq. eauto.
      * rewrite lookup_insert_ne by exact Hne. exact H.
    + rewrite fmap_cons in H. apply elem_of_cons in H as [->|H]; [|right; exact H].
      left. cbn. rewrite lookup_insert_eq. eauto.
Qed.

(** X16.  The dict of [parse_flag_cnames] has canonical keys and fields with
    a description as values, and it has an entry for the header named by
    each of the ten column flags that is given. *)
Theorem flag_cnames_are_canonical (float : string -> option num) (args : Cli.flags)
    (flags : gmap string string) (nv : option num) :
  parse_flag_cnames float args = Good (flags, nv) ->
  (forall k v, flags !! k = Some v -> clean_header k = k /\ v ∈ describe_cname) /\
  (forall h field, (Some h, field) ∈ cname_options args ->
                   is_Some (flags !! clean_header h)).
Proof.
  intros H. split.
  - intros k v Hk. apply parse_flag_cnames_entries in H.
    destruct (H k v Hk) as [Hc Hv]. split; [apply clean_header_fixed, Hc|exact Hv].
  - intros h field Hin. unfold parse_flag_cnames in H.
    set (m1 := dict_update ∅ _) in H.
    assert (is_Some (m1 !! clean_header h)) as H1.
    { apply dict_update_is_Some. right. apply list_elem_of_fmap.
      exists (clean_header h, field). split; [reflexivity|].
      apply list_elem_of_omap. exists (Some h, field). split; [exact Hin|reflexivity]. }
    set (m2 := if str_set (Cli.info_list args) then _ else m1) in H.
    assert (is_Some (m2 !! clean_header h)) as H2.
    { unfold m2. destruct (str_set (Cli.info_list args)); [|exact H1].
      apply dict_update_is_Some. left. exact H1. }
    clearbody m2. clear m1 H1.
    destruct (str_set (Cli.signed_sumstats args)); [|injection H as <- _; exact H2].
    destruct (split_on _ _) as [|cname [|null [|? ?]]]; try discriminate.
    destruct (float null); [|discriminate]. injection H as <- _.
    destruct (decide (clean_header cname = clean_header h)) as [->|Hne].
    + rewrite lookup_insert_eq. eauto.
    + rewrite lookup_insert_ne by exact Hne. exact H2.
Qed.

Lemma flag_cnames_are_canonical_witness :
  (forall k v, flags_signed !! k = Some v -> clean_header k = k /\ v ∈ describe_cname) /\
  (forall h field, (Some h, field) ∈ cname_options cli_signed ->
                   is_Some (flags_signed !! clean_header h)).
Proof.
  apply (flag_cnames_are_canonical float_of_digits cli_signed flags_signed
           (Some Num.zero)).
  by_evaluation.
Defined.

(** X17.  [--signed-sumstats] must read "header comma number": when the flag
    is absent or empty [parse_flag_cnames] succeeds without a null value;
    otherwise it fails with its [ValueError] exactly when the argument does
    not split at commas into two parts of which the second converts to a
    float, and on success the canonical form of the first part is mapped to
    SIGNED_SUMSTAT, whatever the other flags say about that header, and the
    null value is the converted second part. *)
Theorem signed_sumstats_flag_reads_header_and_number (float : string -> option num)
    (args : Cli.flags) :
  (str_set (Cli.signed_sumstats args) = false ->
   exists flags, parse_flag_cnames float args = Good (flags, None)) /\
  (forall s, Cli.signed_sumstats args = Some s -> s <> EmptyString ->
     (parse_flag_cnames float args = Bad FlagValueError <->
      ~ exists cname null x, split_on "," s = [cname; null] /\ float null = Some x) /\
     (forall flags nv, parse_flag_cnames float args = Good (flags, nv) ->
        exists cname null,
          split_on "," s = [cname; null] /\ nv = float null /\
          flags !! clean_header cname = Some "SIGNED_SUMSTAT")).
Proof.
  unfold parse_flag_cnames.
  set (m2 := if str_set (Cli.info_list args) then _ else _). clearbody m2.
  split.
  - intros ->. eauto.
  - intros s Hs Hne.
    assert (str_set (Cli.signed_sumstats args) = true) as ->.
    { rewrite Hs. cbn. destruct s; [congruence|reflexivity]. }
    rewrite Hs. cbn [default from_option id].
    destruct (split_on "," s) as [|cname [|null [|y ys]]] eqn:Hsplit.
    + split; [|discriminate]. split; [|reflexivity].
      intros _ (c & n & x & [=] & _).
    + split; [|discriminate]. split; [|reflexivity].
      intros _ (c & n & x & [=] & _).
    + destruct (float null) as [x|] eqn:Hx.
      * split.
        -- split; [discriminate|]. intros H. exfalso. apply H. exists cname, null, x. auto.
        -- intros flags nv [= <- <-]. exists cname, null.
           rewrite lookup_insert_eq. auto.
      * split; [|discriminate]. split; [|reflexivity].
        intros _ (c & n & x & [= -> ->] & Hf). congruence.
    + split; [|discriminate]. split; [|reflexivity].
      intros _ (c & n & x & [=] & _).
Qed.

(** * The daner formats *)

Lemma first_with_prefix_Good (prefix : string) (file_cnames : list string) (x : string) :
  first_with_prefix prefix file_cnames = Good x ->
  x ∈ file_cnames /\ String.prefix prefix x = true.
Proof.
  unfold first_with_prefix.
  destruct (filter _ file_cnames) as [|y ys] eqn:Hf; [discriminate|]. intros [= <-].
  assert (y ∈ filter (fun x => String.prefix prefix x = true) file_cnames) as Hy
    by (rewrite Hf; left).
  apply list_elem_of_filter in Hy as [Hp Hin]. auto.
Qed.

Lemma to_float_Good (float : string -> option num) (s : string) (x : num) :
  to_float float s = Good x -> float s = Some x.
Proof. unfold to_float. destruct (float s); [intros [= <-]; reflexivity|discriminate]. Qed.

(** X18.  When [--daner] succeeds, the case and control counts are the
    numbers after the prefixes of the first FRQ_A_ and FRQ_U_ headers, the
    FRQ_U_ header is mapped to FRQ, and every other entry of the column map
    whose value is not the string "c" is kept: the loops written to drop the
    N, N_CAS, N_CON and FRQ columns remove none of them. *)
Theorem daner_keeps_the_column_map (float : string -> option num)
    (file_cnames : list string) (cname_map m' : gmap string string) (ncas ncon : num) :
  daner_step float file_cnames cname_map = Good (m', ncas, ncon) ->
  exists frq_u frq_a,
    first_with_prefix "FRQ_U_" file_cnames = Good frq_u /\
    first_with_prefix "FRQ_A_" file_cnames = Good frq_a /\
    float (str_drop 6 frq_a) = Some ncas /\ float (str_drop 6 frq_u) = Some ncon /\
    m' !! frq_u = Some "FRQ" /\
    (forall k v, k <> frq_u -> cname_map !! k = Some v -> v <> "c" -> m' !! k = Some v) /\
    (forall k v, k <> frq_u -> cname_map !! k = Some v ->
                 v ∈ ["N"; "N_CAS"; "N_CON"; "FRQ"] -> m' !! k = Some v).
Proof.
  unfold daner_step.
  destruct (first_with_prefix "FRQ_U_" file_cnames) as [frq_u|] eqn:Hu; [|discriminate].
  destruct (first_with_prefix "FRQ_A_" file_cnames) as [frq_a|] eqn:Ha; [|discriminate].
  cbn [mbind checked_bind].
  destruct (to_float float (str_drop 6 frq_a)) as [x|] eqn:Hx; [|discriminate].
  destruct (to_float float (str_drop 6 frq_u)) as [y|] eqn:Hy; [|discriminate].
  cbn [mbind checked_bind foldl]. intros [= <- <- <-].
  apply to_float_Good in Hx, Hy.
  assert (forall k v, k <> frq_u -> cname_map !! k = Some v -> v <> "c" ->
            <[frq_u := "FRQ"]>
              (filter (fun kv : string * string => kv.2 <> "c")
                 (filter (fun kv : string * string => kv.2 <> "c")
                    (filter (fun kv : string * string => kv.2 <> "c")
                       (filter (fun kv : string * string => kv.2 <> "c") cname_map))))
            !! k = Some v) as Hkeep.
  { intros k v Hk Hv Hc. rewrite lookup_insert_ne by congruence.
    repeat (apply map_lookup_filter_Some; split; [|exact Hc]). exact Hv. }
  exists frq_u, frq_a. repeat split; try assumption.
  - apply lookup_insert_eq.
  - intros k v Hk Hv Hin. apply Hkeep; [exact Hk|exact Hv|].
    intros ->. repeat (apply elem_of_cons in Hin as [?|Hin]; [discriminate|]).
    inversion Hin.
Qed.

Lemma daner_keeps_the_column_map_witness :
  exists frq_u frq_a,
    first_with_prefix "FRQ_U_" header_daner = Good frq_u /\
    first_with_prefix "FRQ_A_" header_daner = Good frq_a /\
    float_of_digits (str_drop 6 frq_a) = Some (Num.of_Z 1000) /\
    float_of_digits (str_drop 6 frq_u) = Some (Num.of_Z 2000) /\
    cname_map_daner !! frq_u = Some "FRQ" /\
    (forall k v, k <> frq_u -> default_cnames !! k = Some v -> v <> "c" ->
                 cname_map_daner !! k = Some v) /\
    (forall k v, k <> frq_u -> default_cnames !! k = Some v ->
                 v ∈ ["N"; "N_CAS"; "N_CON"; "FRQ"] -> cname_map_daner !! k = Some v).
Proof.
  apply (daner_keeps_the_column_map float_of_digits header_daner default_cnames
           cname_map_daner (Num.of_Z 1000) (Num.of_Z 2000)).
  by_evaluation.
Defined.

(** X19.  [--daner-n] fails with an [IndexError] when no header starts with
    FRQ_U_, and with its own errors when the header Nca or Nco is missing.
    When it succeeds, the translation of the file maps Nca to N_CAS and Nco
    to N_CON, whatever the flags and the ignore list said, and it maps the
    first FRQ_U_ header to FRQ when that header is in canonical form. *)
Theorem daner_n_maps_the_count_columns (file_cnames : list string)
    (cname_map : gmap string string) :
  match daner_n_step file_cnames cname_map with
  | Good m' =>
      od_get "Nca" (cname_translation file_cnames m') = Some "N_CAS" /\
      od_get "Nco" (cname_translation file_cnames m') = Some "N_CON" /\
      exists frq_u,
        first_with_prefix "FRQ_U_" file_cnames = Good frq_u /\
        (clean_header frq_u = frq_u ->
         od_get frq_u (cname_translation file_cnames m') = Some "FRQ")
  | Bad e =>
      (e = IndexError /\ first_with_prefix "FRQ_U_" file_cnames = Bad IndexError) \/
      (e = CouldNotFindNca /\ "Nca" ∉ file_cnames) \/
      (e = CouldNotFindNco /\ "Nco" ∉ file_cnames)
  end.
Proof.
  unfold daner_n_step.
  destruct (first_with_prefix "FRQ_U_" file_cnames) as [frq_u|e] eqn:Hu;
    cbn [mbind checked_bind].
  2:{ left. unfold first_with_prefix in Hu. destruct (filter _ _); [|discriminate].
      injection Hu as <-. auto. }
  destruct (decide ("Nca" ∈ file_cnames)) as [Hca|Hca]; [|right; left; auto].
  destruct (decide ("Nco" ∈ file_cnames)) as [Hco|Hco]; [|right; right; auto].
  apply first_with_prefix_Good in Hu as [Hin Hp].
  assert (clean_header "Nca" = "NCA") as Eca by reflexivity.
  assert (clean_header "Nco" = "NCO") as Eco by reflexivity.
  rewrite !cname_translation_get, !decide_True by assumption.
  rewrite Eca, Eco. split; [|split].
  - rewrite lookup_insert_ne by discriminate. apply lookup_insert_eq.
  - apply lookup_insert_eq.
  - exists frq_u. split; [reflexivity|]. intros Hc.
    rewrite cname_translation_get, decide_True by exact Hin. rewrite Hc.
    rewrite !lookup_insert_ne by (intros <-; discriminate Hp).
    apply lookup_insert_eq.
Qed.

(** * The checks of the translation *)

Lemma count_of_cons (x y : string) (l : list string) :
  count_of x (y :: l) = ((if decide (y = x) then 1 else 0) + count_of x l)%nat.
Proof.
  unfold count_of. rewrite filter_cons. destruct (decide (y = x)); reflexivity.
Qed.

Lemma NoDup_count_of (l : list string) :
  (forall x, x ∈ l -> (count_of x l <= 1)%nat) -> NoDup l.
Proof.
  induction l as [|y l IH]; intros H; [constructor|]. constructor.
  - intros Hy. pose proof (H y (list_elem_of_here _ _)) as Hc.
    rewrite count_of_cons, decide_True in Hc by reflexivity.
    pose proof (count_label_pos y l Hy) as Hp. unfold count_of in Hc. lia.
  - apply IH. intros x Hx. pose proof (H x (list_elem_of_further _ _ _ Hx)) as Hc.
    rewrite count_of_cons in Hc. lia.
Qed.

Lemma filter_nil_elim {A : Type} (P : A -> Prop) `{forall x, Decision (P x)} (l : list A)
    (x : A) :
  filter P l = [] -> x ∈ l -> ~ P x.
Proof.
  intros Hnil Hx HP. assert (x ∈ filter P l) as Hin by (apply list_elem_of_filter; auto).
  rewrite Hnil in Hin. inversion Hin.
Qed.

Lemma od_del_values (ks : list string) (d : odict) (v : string) :
  v ∈ od_values (od_del ks d) <-> exists k, (k, v) ∈ d /\ k ∉ ks.
Proof.
  unfold od_values, od_del. rewrite list_elem_of_fmap. split.
  - intros ([k v'] & -> & [Hk Hin]%list_elem_of_filter). exists k. auto.
  - intros (k & Hin & Hk). exists (k, v). split; [reflexivity|].
    apply list_elem_of_filter. auto.
Qed.

Lemma od_values_elem (d : odict) (v : string) :
  v ∈ od_values d <-> exists k, (k, v) ∈ d.
Proof.
  unfold od_values. rewrite list_elem_of_fmap. split.
  - intros ([k v'] & -> & Hin). exists k. exact Hin.
  - intros (k & Hin). exists (k, v). auto.
Qed.

Lemma NoDup_keys_value (d : odict) (k v w : string) :
  NoDup (od_keys d) -> (k, v) ∈ d -> (k, w) ∈ d -> v = w.
Proof.
  unfold od_keys. induction d as [|[k0 v0] d IH]; intros Hnd Hv Hw; [inversion Hv|].
  rewrite fmap_cons in Hnd. apply NoDup_cons in Hnd as [Hk0 Hnd].
  apply elem_of_cons in Hv as [[= -> ->]|Hv], Hw as [[= <-]|Hw].
  - reflexivity.
  - exfalso. apply Hk0. apply list_elem_of_fmap. exists (k0, w). auto.
  - exfalso. apply Hk0. apply list_elem_of_fmap. exists (k, v). split; [|exact Hv].
    cbn. congruence.
  - apply IH; assumption.
Qed.

Lemma nstudy_keys_elem (t : odict) (k : string) :
  k ∈ (filter (fun kv : string * string => kv.2 = "NSTUDY") t).*1 <-> (k, "NSTUDY") ∈ t.
Proof.
  rewrite list_elem_of_fmap. split.
  - intros ([k' v] & -> & [Hv Hin]%list_elem_of_filter). cbn in *. subst v. exact Hin.
  - intros Hin. exists (k, "NSTUDY"). split; [reflexivity|].
    apply list_elem_of_filter. auto.
Qed.

Lemma od_del_nstudy_values (t : odict) (v : string) :
  NoDup (od_keys t) ->
  v ∈ od_values (od_del (filter (fun kv : string * string => kv.2 = "NSTUDY") t).*1 t) <->
  v ∈ od_values t /\ v <> "NSTUDY".
Proof.
  intros Hnd. rewrite od_del_values, od_values_elem. split.
  - intros (k & Hin & Hk). split; [eauto|]. intros ->. apply Hk, nstudy_keys_elem, Hin.
  - intros [(k & Hin) Hv]. exists k. split; [exact Hin|].
    intros Hk%nstudy_keys_elem. apply Hv. exact (NoDup_keys_value t k _ _ Hnd Hin Hk).
Qed.

Lemma forallb_pair (values : list string) (x y : string) :
  forallb (fun c => bool_decide (c ∈ values)) [x; y] = true <-> x ∈ values /\ y ∈ values.
Proof.
  cbn. rewrite andb_true_r, andb_true_iff, !bool_decide_eq_true. reflexivity.
Qed.

(** what a translation that passed the checks satisfies *)
Lemma check_columns_Good (args : Cli.flags) (file_cnames : list string)
    (t t' : odict) :
  NoDup (od_keys t) ->
  check_columns args file_cnames t = Good t' ->
  NoDup (od_values t') /\
  ("SNP" ∈ od_values t') /\ ("P" ∈ od_values t') /\
  (Cli.a1_inc args = false -> "SIGNED_SUMSTAT" ∈ od_values t') /\
  (Cli.no_alleles args = false -> "A1" ∈ od_values t' /\ "A2" ∈ od_values t') /\
  (flag_set (Cli.N args) = true \/
   flag_set (Cli.N_cas args) && flag_set (Cli.N_con args) = true \/
   "N" ∈ od_values t' \/ ("N_CAS" ∈ od_values t' /\ "N_CON" ∈ od_values t')) /\
  ("NSTUDY" ∈ od_values t' ->
   ("N" ∉ od_values t') /\ ~ ("N_CAS" ∈ od_values t' /\ "N_CON" ∈ od_values t')) /\
  (forall k, k ∈ od_keys t' -> (count_of k file_cnames <= 1)%nat) /\
  (forall kv, kv ∈ t' -> kv ∈ t).
Proof.
  intros Hnd. unfold check_columns. cbv zeta.
  destruct (filter (fun c => c ∉ od_values t) _) as [|? ?] eqn:Hreq; [|discriminate].
  destruct (filter (fun field => (1 < count_of field file_cnames)%nat) _) as [|? ?] eqn:Hkeys;
    [|discriminate].
  destruct (filter (fun head => (1 < count_of head (od_values t))%nat) _) as [|? ?] eqn:Hvals;
    [|discriminate].
  destruct (negb (flag_set (Cli.N args)) && _ && _ && _) eqn:Hn; [discriminate|].
  set (del := (bool_decide ("N" ∈ od_values t) || _) && bool_decide ("NSTUDY" ∈ od_values t)).
  set (t1 := if del then _ else t).
  destruct (negb (Cli.no_alleles args) && _) eqn:Hal; [discriminate|].
  intros [= <-].
  (* the values of the checked translation *)
  assert (forall v, v <> "NSTUDY" -> v ∈ od_values t1 <-> v ∈ od_values t) as Hval.
  { intros v Hv. unfold t1. destruct del; [|reflexivity].
    rewrite (od_del_nstudy_values t v Hnd). tauto. }
  assert (forall kv, kv ∈ t1 -> kv ∈ t) as Hsub.
  { intros kv. unfold t1. destruct del; [|auto].
    unfold od_del. intros [_ H]%list_elem_of_filter. exact H. }
  assert (forall c, c ∈ (if negb (Cli.a1_inc args) then ["SNP"; "P"; "SIGNED_SUMSTAT"]
                         else ["SNP"; "P"]) -> c ∈ od_values t) as Hreq'.
  { intros c Hc. destruct (decide (c ∈ od_values t)) as [H|H]; [exact H|].
    exfalso. exact (filter_nil_elim _ _ c Hreq Hc H). }
  split; [|split; [|split; [|split; [|split; [|split; [|split; [|split]]]]]]].
  - assert (NoDup (od_values t)) as Hndv.
    { apply NoDup_count_of. intros x Hx.
      pose proof (filter_nil_elim _ _ x Hvals Hx) as H. cbv beta in H. lia. }
    eapply sublist_NoDup; [exact Hndv|]. unfold t1. destruct del; [|reflexivity].
    unfold od_values, od_del. apply fmap_sublist, sublist_filter.
  - apply Hval; [discriminate|]. apply Hreq'. destruct (negb _); incr_key.
  - apply Hval; [discriminate|]. apply Hreq'. destruct (negb _); incr_key.
  - intros Ha. apply Hval; [discriminate|]. apply Hreq'. rewrite Ha. incr_key.
  - intros Hno. rewrite Hno in Hal. cbn [negb andb] in Hal.
    apply negb_false_iff, forallb_pair in Hal. exact Hal.
  - rewrite !andb_false_iff, !negb_false_iff in Hn.
    destruct Hn as [[[Hn|Hn]|Hn]|Hn]; [left; exact Hn|right; left; exact Hn| |].
    + right. right. left. apply bool_decide_eq_false in Hn.
      apply Hval; [discriminate|]. destruct (decide ("N" ∈ od_values t)); tauto.
    + right. right. right. cbn in Hn. rewrite orb_false_r in Hn.
      apply orb_false_iff in Hn as [H1 H2].
      apply bool_decide_eq_false in H1, H2.
      split; (apply Hval; [discriminate|]).
      * destruct (decide ("N_CAS" ∈ od_values t)); tauto.
      * destruct (decide ("N_CON" ∈ od_values t)); tauto.
  - intros Hs. unfold t1 in Hs. destruct del eqn:Hdel.
    + apply (od_del_nstudy_values t _ Hnd) in Hs as [_ Hs]. congruence.
    + unfold del in Hdel. rewrite andb_false_iff in Hdel.
      destruct Hdel as [Hdel|Hdel].
      2:{ apply bool_decide_eq_false in Hdel. contradiction. }
      apply orb_false_iff in Hdel as [H1 H2]. apply bool_decide_eq_false in H1.
      split.
      * intros H. apply Hval in H; [|discriminate]. contradiction.
      * intros [Hc Hd]. apply Hval in Hc, Hd; try discriminate.
        assert (forallb (fun x => bool_decide (x ∈ od_values t)) ["N_CAS"; "N_CON"] = true)
          as H by (apply forallb_pair; auto).
        congruence.
  - intros k Hk.
    assert (k ∈ od_keys t) as Hk'.
    { unfold od_keys in *. apply list_elem_of_fmap in Hk as (kv & -> & Hin).
      apply list_elem_of_fmap. exists kv. split; [reflexivity|apply Hsub, Hin]. }
    pose proof (filter_nil_elim _ _ k Hkeys Hk') as H. cbv beta in H. lia.
  - exact Hsub.
Qed.

(** X20.  A translation that passes the checks of [munge_sumstats] maps no
    two headers to the same field and names no header that the file has
    twice; it has SNP and P, the signed statistic unless [--a1-inc] is set,
    A1 and A2 unless [--no-alleles] is set, and a source for N: the flags,
    a column N or the columns N_CAS and N_CON.  It keeps NSTUDY only when
    the file has neither N nor both of N_CAS and N_CON, and every entry of
    it is an entry of the translation that was checked. *)
Theorem checked_translation_is_complete (args : Cli.flags) (file_cnames : list string)
    (t t' : odict) :
  NoDup (od_keys t) ->
  check_columns args file_cnames t = Good t' ->
  NoDup (od_values t') /\
  ("SNP" ∈ od_values t') /\ ("P" ∈ od_values t') /\
  (Cli.a1_inc args = false -> "SIGNED_SUMSTAT" ∈ od_values t') /\
  (Cli.no_alleles args = false -> "A1" ∈ od_values t' /\ "A2" ∈ od_values t') /\
  (flag_set (Cli.N args) = true \/
   flag_set (Cli.N_cas args) && flag_set (Cli.N_con args) = true \/
   "N" ∈ od_values t' \/ ("N_CAS" ∈ od_values t' /\ "N_CON" ∈ od_values t')) /\
  ("NSTUDY" ∈ od_values t' ->
   ("N" ∉ od_values t') /\ ~ ("N_CAS" ∈ od_values t' /\ "N_CON" ∈ od_values t')) /\
  (forall k, k ∈ od_keys t' -> (count_of k file_cnames <= 1)%nat) /\
  (forall kv, kv ∈ t' -> kv ∈ t).
Proof. exact (check_columns_Good args file_cnames t t'). Qed.


Lemma checked_translation_is_complete_witness :
  NoDup (od_values (default_translation (labels header_plain))) /\
  ("SNP" ∈ od_values (default_translation (labels header_plain))) /\
  ("P" ∈ od_values (default_translation (labels header_plain))) /\
  (Cli.a1_inc cli0 = false ->
   "SIGNED_SUMSTAT" ∈ od_values (default_translation (labels header_plain))) /\
  (Cli.no_alleles cli0 = false ->
   "A1" ∈ od_values (default_translation (labels header_plain)) /\
   "A2" ∈ od_values (default_translation (labels header_plain))) /\
  (flag_set (Cli.N cli0) = true \/
   flag_set (Cli.N_cas cli0) && flag_set (Cli.N_con cli0) = true \/
   "N" ∈ od_values (default_translation (labels header_plain)) \/
   ("N_CAS" ∈ od_values (default_translation (labels header_plain)) /\
    "N_CON" ∈ od_values (default_translation (labels header_plain)))) /\
  ("NSTUDY" ∈ od_values (default_translation (labels header_plain)) ->
   ("N" ∉ od_values (default_translation (labels header_plain))) /\
   ~ ("N_CAS" ∈ od_values (default_translation (labels header_plain)) /\
      "N_CON" ∈ od_values (default_translation (labels header_plain)))) /\
  (forall k, k ∈ od_keys (default_translation (labels header_plain)) ->
             (count_of k (labels header_plain) <= 1)%nat) /\
  (forall kv, kv ∈ default_translation (labels header_plain) ->
              kv ∈ default_translation (labels header_plain)).
Proof.
  apply (checked_translation_is_complete cli0 (labels header_plain)
           (default_translation (labels header_plain))
           (default_translation (labels header_plain))).
  - by_evaluation.
  - by_evaluation.
Defined.

(** * From the flags to the reader *)

Lemma resolve_signed_keys (g a1 : bool) (t t' : odict) (nv nv' : option num) (sc : string) :
  resolve_signed g a1 t nv = Ok (t', sc, nv') -> od_keys t' = od_keys t.
Proof.
  unfold resolve_signed. destruct (negb g && negb a1); [|intros [= <- _ _]; reflexivity].
  destruct (decide _); [discriminate|].
  destruct ((filter _ t).*1) as [|k ks] eqn:Hk; [discriminate|].
  intros [= <- _ _]. rewrite od_keys_set. rewrite decide_True; [reflexivity|].
  assert (k ∈ (filter (fun kv : string * string => is_Some (null_values !! kv.2)) t).*1)
    as Hin by (rewrite Hk; left).
  apply list_elem_of_fmap in Hin as (kv & -> & [_ Hin]%list_elem_of_filter).
  apply list_elem_of_fmap. exists kv. auto.
Qed.

Lemma munge_columns_Good (float : string -> option num) (args args' : Cli.flags)
    (file_cnames : list string) (t : odict) (sc : string) (nv : option num) :
  munge_columns float args file_cnames = Good (t, sc, nv, args') ->
  exists cname_map nv0 t1,
    cname_description (cname_translation file_cnames cname_map) = Good tt /\
    resolve_signed (bool_decide (is_Some (Cli.signed_sumstats args))) (Cli.a1_inc args)
      (cname_translation file_cnames cname_map) nv0 = Ok (t1, sc, nv) /\
    check_columns args' file_cnames t1 = Good t /\
    Cli.a1_inc args' = Cli.a1_inc args /\ Cli.no_alleles args' = Cli.no_alleles args.
Proof.
  unfold munge_columns.
  destruct (parse_flag_cnames float args) as [[flags nv0]|]; [|discriminate].
  cbn [mbind checked_bind]. cbv zeta.
  set (cm0 := get_cname_map _ _ _). clearbody cm0.
  set (st := if Cli.daner args then _ else _).
  assert (forall x, st = Good x -> Cli.a1_inc x.2 = Cli.a1_inc args /\
                                   Cli.no_alleles x.2 = Cli.no_alleles args) as Hst.
  { intros x. unfold st. destruct (Cli.daner args); [|intros [= <-]; auto].
    destruct (daner_step float file_cnames cm0) as [[[m a] b]|]; [|discriminate].
    cbn [mbind checked_bind]. intros [= <-]. auto. }
  destruct st as [[cm1 args1]|]; [|discriminate].
  specialize (Hst _ eq_refl). cbn [snd] in Hst. destruct Hst as [Ha Hn].
  cbn [mbind checked_bind].
  destruct (if Cli.daner_n args1 then _ else _) as [cm2|]; [|discriminate].
  cbn [mbind checked_bind].
  destruct (cname_description _) as [[]|] eqn:Hd; [|discriminate].
  cbn [mbind checked_bind].
  rewrite Ha.
  destruct (resolve_signed _ _ _ _) as [[[t1 sc1] nv1]|] eqn:Hs; [|discriminate].
  cbn [lift_signed mbind checked_bind].
  destruct (check_columns args1 file_cnames t1) as [t2|] eqn:Hc; [|discriminate].
  cbn [mbind checked_bind]. intros [= <- <- <- <-].
  exists cm2, nv0, t1. auto.
Qed.

Lemma check_columns_sublist (args : Cli.flags) (file_cnames : list string) (t t' : odict) :
  check_columns args file_cnames t = Good t' -> t' `sublist_of` t.
Proof.
  unfold check_columns. cbv zeta.
  destruct (filter (fun c => c ∉ od_values t) _); [|discriminate].
  destruct (filter (fun field => (1 < count_of field file_cnames)%nat) _); [|discriminate].
  destruct (filter (fun head => (1 < count_of head (od_values t))%nat) _); [|discriminate].
  destruct (negb (flag_set (Cli.N args)) && _ && _ && _); [discriminate|].
  destruct (negb (Cli.no_alleles args) && _); [discriminate|].
  intros [= <-]. destruct (_ && _); [|reflexivity].
  unfold od_del. apply sublist_filter.
Qed.

Lemma od_get_Some_elem (d : odict) (k v : string) :
  od_get k d = Some v -> (k, v) ∈ d.
Proof.
  induction d as [|[k0 v0] d IH]; cbn; [discriminate|].
  destruct (decide (k0 = k)) as [->|Hne].
  - intros [= ->]. left.
  - intros H. right. apply IH, H.
Qed.

Lemma od_get_is_Some (d : odict) (k : string) :
  k ∈ od_keys d -> is_Some (od_get k d).
Proof.
  intros Hk. destruct (od_get k d) as [v|] eqn:Hv; [eauto|].
  apply od_get_None in Hv. contradiction.
Qed.

Lemma rename_columns_labels (t : odict) (raw : list (string * dtype)) :
  (forall l, l ∈ labels raw -> l ∈ od_keys t) ->
  exists cs, rename_columns t raw = Ok cs /\
             Forall2 (fun l v => od_get l t = Some v) (labels raw) (labels cs).
Proof.
  induction raw as [|[l ty] raw IH]; intros Hall.
  - exists []. split; [reflexivity|constructor].
  - destruct IH as (cs & Hcs & Hlab).
    { intros l' Hl'. apply Hall. right. exact Hl'. }
    destruct (od_get_is_Some t l (Hall l (list_elem_of_here _ _))) as [v Hv].
    exists ((v, ty) :: cs). cbn [rename_columns]. rewrite Hv, Hcs. split; [reflexivity|].
    constructor; assumption.
Qed.

Lemma count_of_filter_le (P : string -> Prop) `{forall x, Decision (P x)} (x : string)
    (l : list string) :
  (count_of x (filter P l) <= count_of x l)%nat.
Proof.
  unfold count_of. induction l as [|y l IH]; [reflexivity|].
  rewrite (filter_cons P). destruct (decide (P y)).
  - rewrite !filter_cons. destruct (decide (y = x)); cbn; lia.
  - rewrite filter_cons. destruct (decide (y = x)); cbn; lia.
Qed.

Lemma NoDup_values_key (d : odict) (k k' v : string) :
  NoDup (od_values d) -> (k, v) ∈ d -> (k', v) ∈ d -> k = k'.
Proof.
  unfold od_values. induction d as [|[k0 v0] d IH]; intros Hnd Hv Hw; [inversion Hv|].
  rewrite fmap_cons in Hnd. apply NoDup_cons in Hnd as [Hv0 Hnd].
  apply elem_of_cons in Hv as [Hv|Hv], Hw as [Hw|Hw].
  - congruence.
  - exfalso. apply Hv0. apply list_elem_of_fmap. exists (k', v). split; [|exact Hw].
    cbn. congruence.
  - exfalso. apply Hv0. apply list_elem_of_fmap. exists (k, v). split; [|exact Hv].
    cbn. congruence.
  - apply IH; assumption.
Qed.

Lemma Forall2_NoDup_inj {A B : Type} (R : A -> B -> Prop) (l1 : list A) (l2 : list B) :
  Forall2 R l1 l2 -> NoDup l1 ->
  (forall x y v, R x v -> R y v -> x = y) -> NoDup l2.
Proof.
  intros HR Hnd Hinj. induction HR as [|x v l1 l2 Hxv HR IH]; [constructor|].
  apply NoDup_cons in Hnd as [Hx Hnd]. constructor; [|apply IH, Hnd].
  intros Hv. apply list_elem_of_lookup in Hv as [i Hi].
  destruct (Forall2_lookup_r _ _ _ _ _ HR Hi) as (y & Hy & Hyv).
  assert (x = y) as -> by (apply (Hinj x y v); assumption).
  apply Hx. apply list_elem_of_lookup. eauto.
Qed.

(** what the column resolution guarantees about its translation *)
Lemma munge_columns_translation (float : string -> option num) (args args' : Cli.flags)
    (file_cnames : list string) (t : odict) (sc : string) (nv : option num) :
  munge_columns float args file_cnames = Good (t, sc, nv, args') ->
  NoDup (od_keys t) /\ NoDup (od_values t) /\
  (forall k, k ∈ od_keys t -> k ∈ file_cnames /\ (count_of k file_cnames <= 1)%nat) /\
  ("SNP" ∈ od_values t) /\ ("P" ∈ od_values t) /\
  (Cli.no_alleles args = false -> "A1" ∈ od_values t /\ "A2" ∈ od_values t).
Proof.
  intros (cm & nv0 & t1 & _ & Hs & Hc & _ & Hn)%munge_columns_Good.
  pose proof (translation_fold_ok cm file_cnames []) as Hok.
  destruct Hok as [Hnd0 _]; [split; [constructor|intros k v H; inversion H]|].
  fold (cname_translation file_cnames cm) in Hnd0.
  pose proof (resolve_signed_keys _ _ _ _ _ _ _ Hs) as Hkeys.
  assert (NoDup (od_keys t1)) as Hnd1 by (rewrite Hkeys; exact Hnd0).
  pose proof (check_columns_sublist _ _ _ _ Hc) as Hsub.
  destruct (check_columns_Good _ _ _ _ Hnd1 Hc)
    as (Hv & Hsnp & Hp & _ & Hal & _ & _ & Hcount & _).
  split; [|split; [exact Hv|split; [|split; [exact Hsnp|split; [exact Hp|]]]]].
  - eapply sublist_NoDup; [exact Hnd1|]. unfold od_keys. apply fmap_sublist, Hsub.
  - intros k Hk. split; [|apply Hcount, Hk].
    assert (k ∈ od_keys t1) as Hk1.
    { unfold od_keys in *. eapply elem_of_sublist; [exact Hk|]. apply fmap_sublist, Hsub. }
    rewrite Hkeys in Hk1. unfold cname_translation in Hk1.
    apply translation_fold_keys in Hk1 as [Hk1|[Hk1 _]]; [inversion Hk1|exact Hk1].
  - rewrite <- Hn. exact Hal.
Qed.

(** X21.  When the column resolution of [munge_sumstats] succeeds, the header
    that the reader returns for the columns of the translation (the file's
    headers that are keys, in file order) is renamed by [parse_dat] without a
    [KeyError] into distinct labels, which are exactly the fields of the
    translation; SNP and P are among them, and A1 and A2 unless
    [--no-alleles] is set. *)
Theorem checked_header_is_renamed_to_distinct_fields (float : string -> option num)
    (args args' : Cli.flags) (file_cnames : list string) (t : odict) (sc : string)
    (nv : option num) (raw : list (string * dtype)) :
  munge_columns float args file_cnames = Good (t, sc, nv, args') ->
  labels raw = filter (fun x => x ∈ od_keys t) file_cnames ->
  exists cs,
    rename_columns t raw = Ok cs /\ NoDup (labels cs) /\
    (forall v, v ∈ labels cs <-> v ∈ od_values t) /\
    numeric_labels_unique (Frame cs []) /\
    ("SNP" ∈ labels cs) /\ ("P" ∈ labels cs) /\
    (Cli.no_alleles args = false -> "A1" ∈ labels cs /\ "A2" ∈ labels cs).
Proof.
  intros (Hndk & Hndv & Hkeys & Hsnp & Hp & Hal)%munge_columns_translation Hraw.
  assert (forall l, l ∈ labels raw <-> l ∈ od_keys t) as Hlab.
  { intros l. rewrite Hraw, list_elem_of_filter. split; [tauto|].
    intros H. split; [exact H|apply Hkeys, H]. }
  assert (NoDup (labels raw)) as Hndr.
  { apply NoDup_count_of. intros x Hx. apply Hlab in Hx.
    rewrite Hraw. etransitivity; [apply count_of_filter_le|apply Hkeys, Hx]. }
  destruct (rename_columns_labels t raw (fun l H => proj1 (Hlab l) H)) as (cs & Hcs & HF).
  assert (forall v, v ∈ labels cs <-> v ∈ od_values t) as Hvals.
  { intros v. split.
    - intros Hv. apply list_elem_of_lookup in Hv as [i Hi].
      destruct (Forall2_lookup_r _ _ _ _ _ HF Hi) as (l & _ & Hl).
      apply od_values_elem. exists l. apply od_get_Some_elem, Hl.
    - intros (k & Hk)%od_values_elem.
      assert (k ∈ labels raw) as Hkr.
      { apply Hlab. unfold od_keys. apply list_elem_of_fmap. exists (k, v). auto. }
      apply list_elem_of_lookup in Hkr as [i Hi].
      destruct (Forall2_lookup_l _ _ _ _ _ HF Hi) as (v' & Hv' & Hget).
      apply od_get_Some_elem in Hget.
      rewrite (NoDup_keys_value t k v v' Hndk Hk Hget).
      apply list_elem_of_lookup. eauto. }
  assert (NoDup (labels cs)) as Hndc.
  { apply (Forall2_NoDup_inj _ _ _ HF Hndr). intros x y v Hx Hy.
    apply od_get_Some_elem in Hx, Hy. exact (NoDup_values_key t x y v Hndv Hx Hy). }
  exists cs. split; [exact Hcs|]. split; [exact Hndc|]. split; [exact Hvals|].
  split; [apply numeric_labels_unique_NoDup; exact Hndc|].
  split; [apply Hvals, Hsnp|]. split; [apply Hvals, Hp|].
  intros Hno. destruct (Hal Hno). split; apply Hvals; assumption.
Qed.

Lemma checked_header_is_renamed_to_distinct_fields_witness :
  exists cs,
    rename_columns (default_translation (labels header_plain)) header_plain = Ok cs /\
    NoDup (labels cs) /\
    (forall v, v ∈ labels cs <-> v ∈ od_values (default_translation (labels header_plain))) /\
    numeric_labels_unique (Frame cs []) /\
    ("SNP" ∈ labels cs) /\ ("P" ∈ labels cs) /\
    (Cli.no_alleles cli0 = false -> "A1" ∈ labels cs /\ "A2" ∈ labels cs).
Proof.
  apply (checked_header_is_renamed_to_distinct_fields float_of_digits cli0 cli0
           (labels header_plain) (default_translation (labels header_plain))
           "BETA" (Some Num.zero) header_plain).
  - vm_compute. reflexivity.
  - vm_compute. reflexivity.
Defined.

(** ** The descriptions *)

Lemma default_cnames_fields :
  map_Forall (fun _ v => v ∈ describe_cname) default_cnames.
Proof.
  apply map_Forall_to_list. unfold default_cnames.
  apply (bool_decide_unpack _). vm_compute. exact I.
Qed.

Lemma mod_default_cnames_fields (g a1 : bool) :
  map_Forall (fun _ v => v ∈ describe_cname) (mod_default_cnames g a1).
Proof.
  unfold mod_default_cnames. destruct (g || a1); [|exact default_cnames_fields].
  intros k v [Hv _]%map_lookup_filter_Some. exact (default_cnames_fields k v Hv).
Qed.

Lemma get_cname_map_fields (flag default : gmap string string) (ignore : list string) :
  map_Forall (fun _ v => v ∈ describe_cname) flag ->
  map_Forall (fun _ v => v ∈ describe_cname) default ->
  map_Forall (fun _ v => v ∈ describe_cname) (get_cname_map flag default ignore).
Proof.
  intros Hf Hd k v. rewrite get_cname_map_lookup.
  destruct (decide _); [discriminate|].
  destruct (flag !! k) as [w|] eqn:Hw.
  - intros [= <-]. exact (Hf k w Hw).
  - intros Hv. exact (Hd k v Hv).
Qed.

Lemma daner_step_fields (float : string -> option num) (file_cnames : list string)
    (cm m' : gmap string string) (x y : num) :
  map_Forall (fun _ v => v ∈ describe_cname) cm ->
  daner_step float file_cnames cm = Good (m', x, y) ->
  map_Forall (fun _ v => v ∈ describe_cname) m'.
Proof.
  intros Hcm. unfold daner_step.
  destruct (first_with_prefix "FRQ_U_" file_cnames) as [frq_u|]; [|discriminate].
  destruct (first_with_prefix "FRQ_A_" file_cnames) as [frq_a|]; [|discriminate].
  cbn [mbind checked_bind].
  destruct (to_float float (str_drop 6 frq_a)); [|discriminate].
  destruct (to_float float (str_drop 6 frq_u)); [|discriminate].
  cbn [mbind checked_bind foldl]. intros [= <- _ _].
  apply map_Forall_insert_2; [by_evaluation|].
  intros k v Hv.
  repeat (apply map_lookup_filter_Some in Hv as [Hv _]). exact (Hcm k v Hv).
Qed.

Lemma daner_n_step_fields (file_cnames : list string) (cm m' : gmap string string) :
  map_Forall (fun _ v => v ∈ describe_cname) cm ->
  daner_n_step file_cnames cm = Good m' ->
  map_Forall (fun _ v => v ∈ describe_cname) m'.
Proof.
  intros Hcm. unfold daner_n_step.
  destruct (first_with_prefix "FRQ_U_" file_cnames) as [frq_u|]; [|discriminate].
  cbn [mbind checked_bind].
  destruct (decide _); [|discriminate]. destruct (decide _); [|discriminate].
  intros [= <-].
  repeat (apply map_Forall_insert_2; [by_evaluation|]). exact Hcm.
Qed.

Lemma cname_description_Good (file_cnames : list string) (cm : gmap string string) :
  map_Forall (fun _ v => v ∈ describe_cname) cm ->
  cname_description (cname_translation file_cnames cm) = Good tt.
Proof.
  intros Hcm. unfold cname_description.
  rewrite filter_nil_intro; [reflexivity|].
  intros v (k & Hkv)%od_values_elem Hv. apply Hv.
  destruct (translation_fold_ok cm file_cnames []) as [_ Hok].
  { split; [constructor|intros ? ? H; inversion H]. }
  exact (Hcm _ _ (Hok k v Hkv)).
Qed.

Lemma check_columns_Bad (args : Cli.flags) (file_cnames : list string) (t : odict)
    (e : config_error) (field : string) :
  check_columns args file_cnames t = Bad e -> e <> DescribeKeyError field.
Proof.
  unfold check_columns. cbv zeta.
  destruct (filter (fun c => c ∉ od_values t) _); [|intros [= <-]; discriminate].
  destruct (filter (fun field => (1 < count_of field file_cnames)%nat) _);
    [|intros [= <-]; discriminate].
  destruct (filter (fun head => (1 < count_of head (od_values t))%nat) _);
    [|intros [= <-]; discriminate].
  destruct (negb (flag_set (Cli.N args)) && _ && _ && _); [intros [= <-]; discriminate|].
  destruct (negb (Cli.no_alleles args) && _); [intros [= <-]; discriminate|discriminate].
Qed.

Lemma daner_n_step_Bad (file_cnames : list string) (cm : gmap string string)
    (e : config_error) (field : string) :
  daner_n_step file_cnames cm = Bad e -> e <> DescribeKeyError field.
Proof.
  unfold daner_n_step.
  destruct (first_with_prefix "FRQ_U_" file_cnames) as [frq_u|] eqn:Hu.
  2:{ unfold first_with_prefix in Hu. destruct (filter _ _); [|discriminate].
      injection Hu as <-. intros [= <-]. discriminate. }
  cbn [mbind checked_bind].
  destruct (decide _); [|intros [= <-]; discriminate].
  destruct (decide _); [discriminate|intros [= <-]; discriminate].
Qed.

(** the steps of [munge_columns] after the descriptions *)
Ltac checks_after_description field :=
  let Hc := fresh "Hc" in
  let He := fresh "He" in
  destruct (resolve_signed _ _ _ _) as [[[? ?] ?]|]; [|discriminate];
  cbn [lift_signed mbind checked_bind];
  destruct (check_columns _ _ _) eqn:Hc; [discriminate|];
  cbn [mbind checked_bind]; intros [= He];
  exact (check_columns_Bad _ _ _ _ field Hc He).

(** X22.  The lookup of the descriptions, which [munge_sumstats] does for
    every field of the translation, never fails: whatever the flags and the
    header of the file are, every field that the column resolution assigns
    has a description. *)
Theorem description_lookup_never_fails (float : string -> option num) (args : Cli.flags)
    (file_cnames : list string) (field : string) :
  munge_columns float args file_cnames <> Bad (DescribeKeyError field).
Proof.
  unfold munge_columns.
  destruct (parse_flag_cnames float args) as [[flags nv0]|e] eqn:Hparse.
  2:{ cbn [mbind checked_bind]. unfold parse_flag_cnames in Hparse.
      destruct (str_set (Cli.signed_sumstats args)); [|discriminate].
      destruct (split_on _ _) as [|? [|? [|? ?]]]; try (injection Hparse as <-; discriminate).
      destruct (float _); [discriminate|injection Hparse as <-; discriminate]. }
  cbn [mbind checked_bind]. cbv zeta.
  assert (map_Forall (fun _ v => v ∈ describe_cname) flags) as Hflags.
  { intros k v Hk. exact (proj2 (parse_flag_cnames_entries _ _ _ _ Hparse k v Hk)). }
  pose proof (get_cname_map_fields flags
                (mod_default_cnames (bool_decide (is_Some (Cli.signed_sumstats args)))
                   (Cli.a1_inc args))
                (if str_set (Cli.ignore args)
                 then ignore_cnames (split_on "," (default EmptyString (Cli.ignore args)))
                 else []) Hflags (mod_default_cnames_fields _ _)) as Hcm0.
  revert Hcm0. generalize (get_cname_map flags
                (mod_default_cnames (bool_decide (is_Some (Cli.signed_sumstats args)))
                   (Cli.a1_inc args))
                (if str_set (Cli.ignore args)
                 then ignore_cnames (split_on "," (default EmptyString (Cli.ignore args)))
                 else [])). intros cm0 Hcm0.
  destruct (Cli.daner args).
  - destruct (daner_step float file_cnames cm0) as [[[cm1 x] y]|e] eqn:Hd.
    2:{ cbn [mbind checked_bind]. unfold daner_step in Hd.
        destruct (first_with_prefix "FRQ_U_" file_cnames) as [frq_u|] eqn:Hu.
        2:{ unfold first_with_prefix in Hu. destruct (filter _ _); [|discriminate].
            injection Hd as <-. injection Hu as <-. discriminate. }
        destruct (first_with_prefix "FRQ_A_" file_cnames) as [frq_a|] eqn:Ha.
        2:{ unfold first_with_prefix in Ha. destruct (filter _ _); [|discriminate].
            injection Hd as <-. injection Ha as <-. discriminate. }
        cbn [mbind checked_bind] in Hd. unfold to_float in Hd.
        destruct (float (str_drop 6 frq_a)); [|injection Hd as <-; discriminate].
        cbn [mbind checked_bind] in Hd.
        destruct (float (str_drop 6 frq_u)); [discriminate|injection Hd as <-; discriminate]. }
    cbn [mbind checked_bind].
    apply (daner_step_fields _ _ _ _ _ _ Hcm0) in Hd. revert Hd.
    generalize (set_counts x y args). generalize cm1. clear.
    intros cm1 args1 Hcm1.
    destruct (Cli.daner_n args1).
    + destruct (daner_n_step file_cnames cm1) as [cm2|e] eqn:Hn.
      2:{ cbn [mbind checked_bind]. intros [= He]. exact (daner_n_step_Bad _ _ _ field Hn He). }
      cbn [mbind checked_bind].
      apply (daner_n_step_fields _ _ _ Hcm1) in Hn.
      rewrite (cname_description_Good file_cnames cm2 Hn). cbn [mbind checked_bind].
      checks_after_description field.
    + cbn [mbind checked_bind].
      rewrite (cname_description_Good file_cnames cm1 Hcm1). cbn [mbind checked_bind].
      checks_after_description field.
  - cbn [mbind checked_bind].
    destruct (Cli.daner_n args).
    + destruct (daner_n_step file_cnames cm0) as [cm2|e] eqn:Hn.
      2:{ cbn [mbind checked_bind]. intros [= He]. exact (daner_n_step_Bad _ _ _ field Hn He). }
      cbn [mbind checked_bind].
      apply (daner_n_step_fields _ _ _ Hcm0) in Hn.
      rewrite (cname_description_Good file_cnames cm2 Hn). cbn [mbind checked_bind].
      checks_after_description field.
    + cbn [mbind checked_bind].
      rewrite (cname_description_Good file_cnames cm0 Hcm0). cbn [mbind checked_bind].
      checks_after_description field.
Qed.

(** * The SNP column through the sample-size step *)

Lemma col_index_app_other (c c' : string) (cs : list (string * dtype)) (t : dtype) :
  c <> c' -> col_index c' (cs ++ [(c, t)]) = col_index c' cs.
Proof.
  intros Hne. induction cs as [|[l ty] cs IH]; cbn.
  - rewrite decide_False by exact Hne. reflexivity.
  - destruct (decide (l = c')); [reflexivity|]. rewrite IH. reflexivity.
Qed.

Lemma col_set_column_other (c c' : string) (s : list cell) (dat : frame) :
  c <> c' -> well_shaped dat ->
  col c' (set_column c s dat) `sublist_of` col c' dat.
Proof.
  intros Hne Hwf. unfold col, set_column, well_shaped in *.
  destruct (col_index c (columns dat)) as [i|] eqn:Hi; cbn [columns rows].
  - assert (forall r x, get (alter (fun y => (y.1, DNumber)) i (columns dat)) c' (<[i := x]> r)
                        = get (columns dat) c' r) as Hget.
    { intros r x. unfold get.
      rewrite (col_index_labels c' _ (columns dat)) by (apply labels_alter; reflexivity).
      destruct (col_index c' (columns dat)) as [j|] eqn:Hj; [|reflexivity].
      rewrite list_lookup_insert_ne; [reflexivity|].
      intros ->. apply col_index_Some in Hi, Hj. congruence. }
    clear Hwf. revert s. induction (rows dat) as [|r rs IH]; intros [|x s]; cbn.
    + constructor.
    + constructor.
    + apply sublist_nil_l.
    + rewrite Hget. constructor. apply IH.
  - assert (forall r x, length r = length (columns dat) ->
                        get (columns dat ++ [(c, DNumber)])%list c' (r ++ [x])%list
                        = get (columns dat) c' r) as Hget.
    { intros r x Hr. unfold get. rewrite col_index_app_other by exact Hne.
      destruct (col_index c' (columns dat)) as [j|] eqn:Hj; [|reflexivity].
      apply col_index_lt in Hj. rewrite lookup_app_l by lia. reflexivity. }
    revert s. induction Hwf as [|r rs Hr _ IH]; intros [|x s]; cbn.
    + constructor.
    + constructor.
    + apply sublist_nil_l.
    + rewrite Hget by exact Hr. constructor. apply IH.
Qed.

Lemma select_sublist {A : Type} (ii : list bool) (l : list A) :
  select ii l `sublist_of` l.
Proof.
  revert l. induction ii as [|b ii IH]; intros [|x l]; cbn [select];
    try apply sublist_nil_l.
  destruct b; [apply sublist_skip, IH|apply sublist_cons, IH].
Qed.

Lemma length_cells_where (p : string -> bool) (cs : list (string * dtype)) (r : row) :
  length r = length cs ->
  length (cells_where p cs r) = length (filter (fun c => p c.1 = true) cs).
Proof.
  revert r. induction cs as [|[l t] cs IH]; intros [|x r] Hr; try discriminate Hr;
    [reflexivity|].
  injection Hr as Hr. cbn [cells_where]. rewrite filter_cons. cbn [fst].
  destruct (p l) eqn:Hp.
  - rewrite decide_True by reflexivity. cbn [length]. rewrite IH by exact Hr. reflexivity.
  - rewrite decide_False by discriminate. apply IH, Hr.
Qed.

Lemma well_shaped_take_rows (ii : list bool) (dat : frame) :
  well_shaped dat -> well_shaped (take_rows ii dat).
Proof.
  unfold well_shaped, take_rows. cbn [columns rows]. intros H.
  apply Forall_forall. intros r Hr.
  apply (proj1 (Forall_forall _ _) H). exact (elem_of_sublist _ _ _ Hr (select_sublist _ _)).
Qed.

Lemma well_shaped_drop_columns (cs : list string) (dat : frame) :
  well_shaped dat -> well_shaped (drop_columns cs dat).
Proof.
  unfold well_shaped, drop_columns. cbn [columns rows]. intros H.
  apply Forall_fmap. eapply Forall_impl; [exact H|]. intros r Hr. cbn.
  apply length_cells_where, Hr.
Qed.

Lemma process_n_snp_sublist (dat out : frame) (a : args) :
  well_shaped dat -> process_n dat a = Ok out ->
  col "SNP" out `sublist_of` col "SNP" dat.
Proof.
  intros Hwf. unfold process_n.
  destruct (decide ("N_CAS" ∈ labels (columns dat) ∧ "N_CON" ∈ labels (columns dat)))
    as [Hb|Hb].
  - destruct (attr "N_CAS" dat) as [N_CAS|]; [|discriminate].
    destruct (attr "N_CON" dat) as [N_CON|]; [|discriminate].
    cbn [mbind result_bind].
    set (d1 := drop_columns ["N_CAS"; "N_CON"]
                 (set_column "N" (case_control_n N_CAS N_CON) dat)).
    assert ("N" ∈ labels (columns d1)) as HN.
    { unfold d1. apply labels_drop_columns. split.
      - apply labels_set_column. left. reflexivity.
      - intros H. repeat (apply elem_of_cons in H as [?|H]; [discriminate|]). inversion H. }
    assert (col "SNP" d1 `sublist_of` col "SNP" dat) as H1.
    { unfold d1. rewrite col_drop_columns.
      - apply col_set_column_other; [discriminate|exact Hwf].
      - intros H. repeat (apply elem_of_cons in H as [?|H]; [discriminate|]). inversion H. }
    clearbody d1. rewrite decide_True by exact HN.
    destruct (attr "N" d1) as [N|]; [|discriminate]. cbn [mbind result_bind].
    unfold take_rows at 1. cbn [columns]. rewrite decide_True by exact HN.
    intros [= <-]. rewrite col_take_rows.
    etransitivity; [apply select_sublist|exact H1].
  - cbn [mbind result_bind].
    destruct (decide ("N" ∈ labels (columns dat))) as [HN|HN].
    + destruct (attr "N" dat) as [N|]; [|discriminate]. cbn [mbind result_bind].
      unfold take_rows at 1. cbn [columns]. rewrite decide_True by exact HN.
      intros [= <-]. rewrite col_take_rows. apply select_sublist.
    + set (stage2 := if decide ("NSTUDY" ∈ labels (columns dat)) then _ else _).
      assert (forall d2, stage2 = Ok d2 ->
                well_shaped d2 /\ col "SNP" d2 `sublist_of` col "SNP" dat /\
                "N" ∉ labels (columns d2)) as H2.
      { intros d2. unfold stage2. destruct (decide _).
        - destruct (attr "NSTUDY" dat) as [NSTUDY|]; [|discriminate].
          cbn [mbind result_bind]. intros [= <-]. split; [|split].
          + apply well_shaped_drop_columns, well_shaped_take_rows, Hwf.
          + rewrite col_drop_columns.
            * rewrite col_take_rows. apply select_sublist.
            * intros H. apply elem_of_cons in H as [?|H]; [discriminate|inversion H].
          + intros [H _]%labels_drop_columns. exact (HN H).
        - intros [= <-]. split; [exact Hwf|]. split; [reflexivity|exact HN]. }
      destruct stage2 as [d2|]; [|discriminate].
      destruct (H2 d2 eq_refl) as (Hwf2 & Hsub & HN2). cbn [mbind result_bind].
      rewrite decide_False by exact HN2.
      destruct (flag_set (N_fixed a)).
      * intros [= <-]. etransitivity; [|exact Hsub].
        apply col_set_column_other; [discriminate|exact Hwf2].
      * destruct (flag_set (N_cas a) && flag_set (N_con a)); [|discriminate].
        intros [= <-]. etransitivity; [|exact Hsub].
        apply col_set_column_other; [discriminate|exact Hwf2].
Qed.

(** X23.  [process_n] changes no SNP and no order: the SNP column of its
    result is a subsequence of the SNP column it was given.  After the
    removal of duplicates the result therefore has no SNP twice. *)
Theorem snp_stays_unique_through_process_n (dat out : frame) (a : args) :
  well_shaped dat -> process_n (drop_duplicates dat) a = Ok out ->
  col "SNP" out `sublist_of` col "SNP" dat /\ NoDup (col "SNP" out).
Proof.
  intros Hwf H.
  apply process_n_snp_sublist in H; [|apply well_shaped_take_rows, Hwf].
  split.
  - etransitivity; [exact H|]. unfold drop_duplicates. rewrite col_take_rows.
    apply select_sublist.
  - eapply sublist_NoDup; [apply drop_duplicates_NoDup|exact H].
Qed.

Lemma snp_stays_unique_through_process_n_witness :
  col "SNP" (Frame header_plain [record_n "rs2" 126; record_n "rs3" 200])
    `sublist_of` col "SNP" table_n3 /\
  NoDup (col "SNP" (Frame header_plain [record_n "rs2" 126; record_n "rs3" 200])).
Proof.
  apply (snp_stays_unique_through_process_n table_n3 _ args0).
  - repeat constructor.
  - by_evaluation.
Defined.

(** * The median check and the sign of Z *)


Lemma mul_sign (z : Qc) (b : bool) :
  Num.mul (Fin z) (if b then Num.of_Z (-1) else Num.of_Z 1)
  = Fin (if b then (- z)%Qc else z).
Proof.
  destruct b; cbn [Num.mul Num.of_Z]; f_equal.
  - replace (Qc_of_Z (-1)) with (- (1))%Qc by (apply Qc_is_canon; reflexivity). ring.
  - replace (Qc_of_Z 1) with 1%Qc by (apply Qc_is_canon; reflexivity). ring.
Qed.

(** X25.  The sign of Z follows the signed statistic: a finite Z is negated
    exactly where the statistic is below its null value and is kept where
    the statistic equals the null value, exceeds it or is missing; the
    magnitude is unchanged, and flipping a second time with the same
    statistics gives the first values back. *)
Theorem flip_sign_follows_the_signed_statistic (null : num) (zs : list Qc)
    (S : list cell) :
  length S = length zs ->
  (forall i z s, zs !! i = Some z -> S !! i = Some s ->
     flip_sign null (Num ∘ Fin <$> zs) S !! i
     = Some (Num (Fin (if Num.lt (to_num s) null then (- z)%Qc else z))) /\
     (to_num s = NaN -> flip_sign null (Num ∘ Fin <$> zs) S !! i = Some (Num (Fin z))) /\
     (to_num s = null -> flip_sign null (Num ∘ Fin <$> zs) S !! i = Some (Num (Fin z)))) /\
  num_abs ∘ to_num <$> flip_sign null (Num ∘ Fin <$> zs) S = num_abs ∘ Fin <$> zs /\
  flip_sign null (flip_sign null (Num ∘ Fin <$> zs) S) S = Num ∘ Fin <$> zs.
Proof.
  intros Hlen.
  assert (flip_sign null (Num ∘ Fin <$> zs) S
          = zip_with (fun z s => Num (Fin (if Num.lt (to_num s) null then (- z)%Qc else z)))
                     zs S) as Hflip.
  { unfold flip_sign. rewrite zip_with_fmap_l.
    apply zip_with_ext; [|reflexivity..]. intros z s. unfold compose. cbn [to_num].
    rewrite mul_sign. reflexivity. }
  split; [|split].
  - intros i z s Hz Hs. rewrite Hflip, lookup_zip_with, Hz, Hs. cbn.
    split; [reflexivity|]. split.
    + intros ->. reflexivity.
    + intros ->. destruct null as [q| | |]; cbn; try reflexivity.
      assert ((q ?= q)%Qc = Eq) as -> by (apply Qc_compare_eq; reflexivity). reflexivity.
  - rewrite Hflip. clear Hflip. revert S Hlen.
    induction zs as [|z zs IH]; intros [|s S] Hlen; try discriminate; [reflexivity|].
    cbn [zip_with]. rewrite !fmap_cons, (IH S) by (cbn in Hlen; lia). f_equal.
    cbn. destruct (Num.lt (to_num s) null); [|reflexivity].
    unfold num_abs. cbn [Num.neg].
    destruct (Num.lt (Fin z) Num.zero) eqn:H1, (Num.lt (Fin (- z)) Num.zero) eqn:H2.
    + apply lt_Fin in H1, H2. exfalso.
      apply Qclt_le_weak, Qcopp_le_compat in H2. rewrite Qcopp_involutive in H2.
      replace (- Qc_of_Z 0)%Qc with (Qc_of_Z 0) in H2 by (apply Qc_is_canon; reflexivity).
      exact (Qclt_not_le _ _ H1 H2).
    + reflexivity.
    + f_equal. ring.
    + apply lt_Fin_false in H1, H2. f_equal.
      apply Qcopp_le_compat in H2. rewrite Qcopp_involutive in H2.
      replace (- Qc_of_Z 0)%Qc with (Qc_of_Z 0) in H2 by (apply Qc_is_canon; reflexivity).
      assert (z = Qc_of_Z 0) as -> by (apply Qcle_antisym; assumption).
      apply Qc_is_canon. reflexivity.
  - rewrite Hflip at 1. unfold flip_sign. clear Hflip. revert S Hlen.
    induction zs as [|z zs IH]; intros [|s S] Hlen; try discriminate; [reflexivity|].
    cbn [zip_with]. rewrite fmap_cons. f_equal; [|apply IH; cbn in Hlen; lia].
    cbn [to_num compose]. rewrite mul_sign. f_equal. f_equal.
    destruct (Num.lt (to_num s) null); [ring|reflexivity].
Qed.

Lemma flip_sign_follows_the_signed_statistic_witness :
  (forall i z s, z_magnitudes !! i = Some z -> signed_statistics !! i = Some s ->
     flip_sign Num.zero (Num ∘ Fin <$> z_magnitudes) signed_statistics !! i
     = Some (Num (Fin (if Num.lt (to_num s) Num.zero then (- z)%Qc else z))) /\
     (to_num s = NaN ->
      flip_sign Num.zero (Num ∘ Fin <$> z_magnitudes) signed_statistics !! i
      = Some (Num (Fin z))) /\
     (to_num s = Num.zero ->
      flip_sign Num.zero (Num ∘ Fin <$> z_magnitudes) signed_statistics !! i
      = Some (Num (Fin z)))) /\
  num_abs ∘ to_num <$> flip_sign Num.zero (Num ∘ Fin <$> z_magnitudes) signed_statistics
  = num_abs ∘ Fin <$> z_magnitudes /\
  flip_sign Num.zero (flip_sign Num.zero (Num ∘ Fin <$> z_magnitudes) signed_statistics)
    signed_statistics
  = Num ∘ Fin <$> z_magnitudes.
Proof.
  apply (flip_sign_follows_the_signed_statistic Num.zero z_magnitudes signed_statistics).
  reflexivity.
Defined.

(** * The removal of duplicated SNPs *)

Lemma elem_of_select {A : Type} (mask : list bool) (l : list A) (x : A) :
  x ∈ select mask l <-> exists i, mask !! i = Some true /\ l !! i = Some x.
Proof.
  revert l. induction mask as [|b mask IH]; intros [|y l]; cbn [select].
  - split; [intros H; inversion H|intros (i & H & _); discriminate].
  - split; [intros H; inversion H|intros (i & H & _); discriminate].
  - split; [intros H; inversion H|intros (i & _ & H); discriminate].
  - destruct b.
    + rewrite elem_of_cons, IH. split.
      * intros [->|(i & Hm & Hl)]; [exists 0%nat; auto|exists (S i); auto].
      * intros ([|i] & Hm & Hl); [left; cbn in Hl; congruence|right; eauto].
    + rewrite IH. split.
      * intros (i & Hm & Hl). exists (S i). auto.
      * intros ([|i] & Hm & Hl); [discriminate|eauto].
Qed.

(** the mask of [drop_duplicates] is true where no earlier row has the SNP *)
Lemma first_occurrence_mask (dat : frame) (i : nat) :
  mnot (duplicated (col "SNP" dat)) !! i = Some true <->
  exists r, rows dat !! i = Some r /\
    forall j r', (j < i)%nat -> rows dat !! j = Some r' ->
      get (columns dat) "SNP" r' <> get (columns dat) "SNP" r.
Proof.
  rewrite duplicated_lookup. unfold col. rewrite list_lookup_fmap.
  destruct (rows dat !! i) as [r|] eqn:Hr; cbn.
  - split.
    + intros [= Hneg]. exists r. split; [reflexivity|].
      intros j r' Hj Hr' Heq.
      apply negb_true_iff, bool_decide_eq_false in Hneg. apply Hneg.
      apply elem_of_take. exists j. split; [|exact Hj].
      rewrite list_lookup_fmap, Hr'. cbn. congruence.
    + intros (r0 & [= <-] & Hfirst). f_equal.
      apply negb_true_iff, bool_decide_eq_false.
      intros (j & Hj & Hlt)%elem_of_take.
      rewrite list_lookup_fmap in Hj.
      destruct (rows dat !! j) as [r'|] eqn:Hr'; [|discriminate].
      apply (Hfirst j r' Hlt Hr'). cbn in Hj. congruence.
  - split; [discriminate|]. intros (r & [=] & _).
Qed.

(** every SNP of the table has a first row *)
Lemma first_occurrence_exists (dat : frame) (i : nat) (r : row) :
  rows dat !! i = Some r ->
  exists j r', (j <= i)%nat /\ rows dat !! j = Some r' /\
    get (columns dat) "SNP" r' = get (columns dat) "SNP" r /\
    mnot (duplicated (col "SNP" dat)) !! j = Some true.
Proof.
  revert r. induction i as [i IH] using lt_wf_ind. intros r Hr.
  destruct (mnot (duplicated (col "SNP" dat)) !! i) as [[]|] eqn:Hm.
  - exists i, r. auto.
  - rewrite duplicated_lookup in Hm. unfold col in Hm. rewrite list_lookup_fmap, Hr in Hm.
    cbn in Hm. injection Hm as Hm. apply negb_false_iff, bool_decide_eq_true in Hm.
    apply elem_of_take in Hm as (j & Hj & Hlt).
    rewrite list_lookup_fmap in Hj.
    destruct (rows dat !! j) as [r'|] eqn:Hr'; [|discriminate].
    cbn in Hj. injection Hj as Hj.
    destruct (IH j Hlt r' Hr') as (k & r'' & Hk & Hr'' & Hkey & Hmask).
    exists k, r''. split; [lia|]. split; [exact Hr''|]. split; [congruence|exact Hmask].
  - rewrite duplicated_lookup in Hm. unfold col in Hm. rewrite list_lookup_fmap, Hr in Hm.
    discriminate.
Qed.


(** the entries that a mask selects, with their positions *)
Lemma select_positions {A : Type} (mask : list bool) (l : list A) :
  exists positions : list nat,
    StronglySorted lt positions /\
    Forall2 (fun i x => l !! i = Some x) positions (select mask l) /\
    forall i, i ∈ positions <-> mask !! i = Some true /\ is_Some (l !! i).
Proof.
  revert l. induction mask as [|b mask IH]; intros l.
  - exists []. split; [constructor|]. split; [constructor|].
    intros i. split; [intros H; inversion H|intros [[=] _]].
  - destruct l as [|y l].
    + exists []. split; [constructor|]. split; [destruct b; constructor|].
      intros i. split; [intros H; inversion H|intros [_ [x [=]]]].
    + destruct (IH l) as (ps & Hsort & Hall & Hin).
      assert (StronglySorted lt (S <$> ps)) as Hsort'.
      { apply (StronglySorted_fmap S lt lt); [|exact Hsort]. intros x z. lia. }
      assert (Forall2 (fun i x => (y :: l) !! i = Some x) (S <$> ps) (select mask l))
        as Hall' by (apply Forall2_fmap_l; exact Hall).
      assert (forall i, i ∈ S <$> ps <->
                exists j, i = S j /\ mask !! j = Some true /\ is_Some (l !! j)) as Hin'.
      { intros i. rewrite list_elem_of_fmap. split.
        - intros (j & -> & Hj). exists j. split; [reflexivity|]. apply Hin, Hj.
        - intros (j & -> & Hj). exists j. split; [reflexivity|]. apply Hin, Hj. }
      cbn [select]. destruct b.
      * exists (0%nat :: (S <$> ps)). split; [|split].
        -- constructor; [exact Hsort'|]. apply Forall_forall.
           intros i (j & -> & _)%Hin'. lia.
        -- constructor; [reflexivity|exact Hall'].
        -- intros [|i]; rewrite elem_of_cons, Hin'; cbn.
           ++ split; [intros _; eauto|auto].
           ++ split.
              ** intros [[=]|(j & [= <-] & Hj)]. exact Hj.
              ** intros Hj. right. eauto.
      * exists (S <$> ps). split; [exact Hsort'|]. split; [exact Hall'|].
        intros [|i]; rewrite Hin'; cbn.
        -- split; [intros (j & [=] & _)|intros [[=] _]].
        -- split; [intros (j & [= <-] & Hj); exact Hj|eauto].
Qed.

(** C10.  [drop_duplicates] keeps the columns and returns a subsequence of
    the rows, so what it keeps is in input order; no SNP occurs twice in the
    result, every SNP of the table occurs in it, and each row of the result
    is the first row of the table with its SNP: of the rows that share a SNP
    exactly the first one is retained.  The result is the list of the rows
    at the positions, in increasing order, that no row of the same SNP
    precedes. *)
Theorem drop_duplicates_keeps_first (dat : frame) :
  columns (drop_duplicates dat) = columns dat /\
  rows (drop_duplicates dat) `sublist_of` rows dat /\
  NoDup (col "SNP" (drop_duplicates dat)) /\
  (forall r, r ∈ rows dat ->
     exists r', r' ∈ rows (drop_duplicates dat) /\
       get (columns dat) "SNP" r' = get (columns dat) "SNP" r) /\
  (forall r, r ∈ rows (drop_duplicates dat) ->
     exists i, rows dat !! i = Some r /\
       forall j r', (j < i)%nat -> rows dat !! j = Some r' ->
         get (columns dat) "SNP" r' <> get (columns dat) "SNP" r) /\
  (exists positions : list nat,
     StronglySorted lt positions /\
     Forall2 (fun i r => rows dat !! i = Some r) positions (rows (drop_duplicates dat)) /\
     forall i, i ∈ positions <->
       exists r, rows dat !! i = Some r /\
         forall j r', (j < i)%nat -> rows dat !! j = Some r' ->
           get (columns dat) "SNP" r' <> get (columns dat) "SNP" r).
Proof.
  split; [reflexivity|]. split; [apply select_sublist|].
  split; [apply drop_duplicates_NoDup|]. split; [|split].
  - intros r Hr. apply list_elem_of_lookup in Hr as [i Hi].
    destruct (first_occurrence_exists dat i r Hi) as (j & r' & _ & Hr' & Hkey & Hmask).
    exists r'. split; [|exact Hkey].
    unfold drop_duplicates, take_rows. cbn [rows]. apply elem_of_select. eauto.
  - intros r Hr. unfold drop_duplicates, take_rows in Hr. cbn [rows] in Hr.
    apply elem_of_select in Hr as (i & Hmask & Hi).
    apply first_occurrence_mask in Hmask as (r0 & Hr0 & Hfirst).
    exists i. split; [exact Hi|]. assert (r0 = r) as <- by congruence. exact Hfirst.
  - destruct (select_positions (mnot (duplicated (col "SNP" dat))) (rows dat))
      as (ps & Hsort & Hall & Hin).
    exists ps. split; [exact Hsort|]. split; [exact Hall|].
    intros i. rewrite Hin, first_occurrence_mask. split; [intros [H _]; exact H|].
    intros (r & Hr & H). split; [eauto|]. rewrite Hr. eauto.
Qed.

(** * The ignore list through the whole column resolution *)

Lemma od_get_sublist_None (d d' : odict) (k : string) :
  d' `sublist_of` d -> od_get k d = None -> od_get k d' = None.
Proof.
  intros Hsub Hk. apply od_get_None. apply od_get_None in Hk. intros Hin. apply Hk.
  unfold od_keys in *. eapply elem_of_sublist; [exact Hin|]. apply fmap_sublist, Hsub.
Qed.

Lemma daner_step_None (float : string -> option num) (file_cnames : list string)
    (cm m' : gmap string string) (x y : num) (k : string) :
  daner_step float file_cnames cm = Good (m', x, y) -> cm !! k = None ->
  m' !! k = None \/ first_with_prefix "FRQ_U_" file_cnames = Good k.
Proof.
  unfold daner_step.
  destruct (first_with_prefix "FRQ_U_" file_cnames) as [frq_u|]; [|discriminate].
  destruct (first_with_prefix "FRQ_A_" file_cnames) as [frq_a|]; [|discriminate].
  cbn [mbind checked_bind].
  destruct (to_float float (str_drop 6 frq_a)); [|discriminate].
  destruct (to_float float (str_drop 6 frq_u)); [|discriminate].
  cbn [mbind checked_bind foldl]. intros [= <- _ _] Hk.
  destruct (decide (frq_u = k)) as [->|Hne]; [right; reflexivity|left].
  rewrite lookup_insert_ne by exact Hne.
  repeat (apply map_lookup_filter_None; left). exact Hk.
Qed.

Lemma daner_n_step_None (file_cnames : list string) (cm m' : gmap string string)
    (k : string) :
  daner_n_step file_cnames cm = Good m' -> cm !! k = None ->
  m' !! k = None \/ first_with_prefix "FRQ_U_" file_cnames = Good k \/
  k = "NCA" \/ k = "NCO".
Proof.
  unfold daner_n_step.
  destruct (first_with_prefix "FRQ_U_" file_cnames) as [frq_u|]; [|discriminate].
  cbn [mbind checked_bind].
  destruct (decide _); [|discriminate]. destruct (decide _); [|discriminate].
  intros [= <-] Hk.
  change (clean_header "Nca") with "NCA". change (clean_header "Nco") with "NCO".
  destruct (decide ("NCO" = k)) as [<-|H1]; [auto|].
  destruct (decide ("NCA" = k)) as [<-|H2]; [auto|].
  destruct (decide (frq_u = k)) as [->|H3]; [auto|].
  left. rewrite !lookup_insert_ne by assumption. exact Hk.
Qed.

Lemma munge_columns_unmapped (float : string -> option num) (args args' : Cli.flags)
    (file_cnames : list string) (t : odict) (sc : string) (nv : option num) (x : string) :
  munge_columns float args file_cnames = Good (t, sc, nv, args') ->
  (forall flag dflt,
      get_cname_map flag dflt
        (if str_set (Cli.ignore args)
         then ignore_cnames (split_on "," (default EmptyString (Cli.ignore args)))
         else []) !! clean_header x = None) ->
  od_get x t = None \/ daner_column args file_cnames (clean_header x).
Proof.
  unfold munge_columns. intros H H0.
  destruct (parse_flag_cnames float args) as [[flags nv0]|]; [|discriminate].
  cbn [mbind checked_bind] in H. cbv zeta in H.
  specialize (H0 flags (mod_default_cnames (bool_decide (is_Some (Cli.signed_sumstats args)))
                          (Cli.a1_inc args))).
  revert H H0. set (cm0 := get_cname_map _ _ _). clearbody cm0. intros H H0.
  revert H. set (st := if Cli.daner args then _ else _).
  assert (forall y, st = Good y ->
            Cli.a1_inc y.2 = Cli.a1_inc args /\ Cli.daner_n y.2 = Cli.daner_n args /\
            (y.1 !! clean_header x = None \/
             (Cli.daner args = true /\
              first_with_prefix "FRQ_U_" file_cnames = Good (clean_header x)))) as Hst.
  { intros y. unfold st. destruct (Cli.daner args); [|intros [= <-]; auto].
    destruct (daner_step float file_cnames cm0) as [[[m a] b]|] eqn:Hd; [|discriminate].
    cbn [mbind checked_bind]. intros [= <-]. cbn [fst snd set_counts Cli.a1_inc Cli.daner_n].
    split; [reflexivity|]. split; [reflexivity|].
    destruct (daner_step_None _ _ _ _ _ _ _ Hd H0); auto. }
  destruct st as [[cm1 args1]|]; [|discriminate].
  specialize (Hst _ eq_refl). cbn [fst snd] in Hst. destruct Hst as (Ha & Hn & H1).
  cbn [mbind checked_bind]. rewrite Hn, Ha.
  destruct H1 as [H1|[Hd Hf]]; [|intros _; right; left; auto].
  set (s2 := if Cli.daner_n args then _ else _).
  assert (forall m, s2 = Good m ->
            m !! clean_header x = None \/ daner_column args file_cnames (clean_header x))
    as Hs2.
  { intros m. unfold s2. destruct (Cli.daner_n args) eqn:Hdn; [|intros [= <-]; auto].
    intros Hm. destruct (daner_n_step_None _ _ _ _ Hm H1) as [|[|]]; [auto| |].
    - right. left. auto.
    - right. right. auto. }
  destruct s2 as [cm2|]; [|discriminate]. specialize (Hs2 _ eq_refl).
  cbn [mbind checked_bind].
  destruct (cname_description _) as [[]|]; [|discriminate].
  cbn [mbind checked_bind].
  destruct (resolve_signed _ _ _ _) as [[[t1 sc1] nv1]|] eqn:Hs; [|discriminate].
  cbn [lift_signed mbind checked_bind].
  destruct (check_columns args1 file_cnames t1) as [t2|] eqn:Hc; [|discriminate].
  cbn [mbind checked_bind]. intros [= <- <- <- <-].
  destruct Hs2 as [H2|]; [left|right; assumption].
  eapply od_get_sublist_None; [eapply check_columns_sublist, Hc|].
  eapply resolve_signed_keeps_None; [exact Hs|]. apply cname_translation_None, H2.
Qed.

(** C9 (as amended).  Whenever the column resolution of [munge_sumstats]
    succeeds and a header cleans to an entry of the cleaned [--ignore] list,
    the lookup built by [get_cname_map] has no entry for it, whatever the
    flag overrides and the defaults; the header is then absent from the
    final translation unless it is one of the columns that [--daner] and
    [--daner-n] map themselves after [get_cname_map] (the first FRQ_U_
    header, and Nca and Nco under [--daner-n]).  Without these two flags an
    ignored header is never resolved. *)
Theorem ignored_label_resolved_only_by_daner (float : string -> option num)
    (args args' : Cli.flags) (file_cnames : list string) (t : odict) (sc : string)
    (nv : option num) (x : string) :
  munge_columns float args file_cnames = Good (t, sc, nv, args') ->
  str_set (Cli.ignore args) = true ->
  clean_header x ∈ clean_header <$> split_on "," (default EmptyString (Cli.ignore args)) ->
  (forall flag dflt,
      get_cname_map flag dflt
        (ignore_cnames (split_on "," (default EmptyString (Cli.ignore args))))
        !! clean_header x = None) /\
  (od_get x t = None \/ daner_column args file_cnames (clean_header x)) /\
  (Cli.daner args = false -> Cli.daner_n args = false -> od_get x t = None).
Proof.
  intros H Hset Hin.
  assert (forall flag dflt,
      get_cname_map flag dflt
        (ignore_cnames (split_on "," (default EmptyString (Cli.ignore args))))
        !! clean_header x = None) as Hmap.
  { intros flag dflt. apply get_cname_map_ignored. rewrite ignore_cnames_clean. exact Hin. }
  assert (od_get x t = None \/ daner_column args file_cnames (clean_header x)) as Hor.
  { eapply munge_columns_unmapped; [exact H|]. rewrite Hset. exact Hmap. }
  split; [exact Hmap|]. split; [exact Hor|].
  intros Hd Hn. destruct Hor as [|[[[Hx|Hx] _]|[Hx _]]]; [assumption|congruence..].
Qed.

Lemma ignored_label_resolved_only_by_daner_witness :
  munge_columns float_of_digits cli_ignore header_two_p
    = Good (translation_two_p, "BETA", Some Num.zero, cli_ignore) /\
  od_get "P-Val" translation_two_p = None.
Proof.
  assert (munge_columns float_of_digits cli_ignore header_two_p
          = Good (translation_two_p, "BETA", Some Num.zero, cli_ignore)) as H
    by (vm_compute; reflexivity).
  split; [exact H|].
  apply (ignored_label_resolved_only_by_daner float_of_digits cli_ignore cli_ignore
           header_two_p translation_two_p "BETA" (Some Num.zero) "P-Val" H);
    [reflexivity|vm_compute; left|reflexivity|reflexivity].
Defined.

(** C9, counterexample.  With [--daner --ignore FRQ_U_2000] the header
    FRQ_U_2000 is an entry of the cleaned ignore list, and the column
    resolution still maps it to FRQ: the [--daner] branch adds the entry
    after [get_cname_map] has applied the ignore list. *)
Lemma ignored_label_resolved_under_daner :
  clean_header "FRQ_U_2000"
    ∈ clean_header <$> split_on "," (default EmptyString (Cli.ignore cli_daner_ignore)) /\
  exists t sc nv args',
    munge_columns float_of_digits cli_daner_ignore header_daner = Good (t, sc, nv, args') /\
    od_get "FRQ_U_2000" t = Some "FRQ".
Proof.
  split; [vm_compute; left|].
  destruct (munge_columns float_of_digits cli_daner_ignore header_daner)
    as [[[[t sc] nv] a]|] eqn:H; [|vm_compute in H; discriminate].
  exists t, sc, nv, a. split; [reflexivity|].
  vm_compute in H. injection H as <- _ _ _. reflexivity.
Qed.

(** C5, counterexample.  In the header SNP P A1 A2 N BETA BETA two columns
    of the file resolve to the signed field BETA, and the signed-statistic
    step raises no error: the translation is keyed by header, so both
    columns are one entry.  The file is rejected later, by the check for
    repeated headers. *)
Lemma repeated_signed_column_is_not_ambiguous :
  let cname_map := get_cname_map ∅ (mod_default_cnames false false) [] in
  length (filter (resolves_signed cname_map) header_beta_twice) = 2%nat /\
  length (signed_headers cname_map header_beta_twice) = 1%nat /\
  resolve_signed false false (cname_translation header_beta_twice cname_map) None
    = Ok ([("SNP", "SNP"); ("P", "P"); ("A1", "A1"); ("A2", "A2"); ("N", "N");
           ("BETA", "SIGNED_SUMSTAT")], "BETA", Some Num.zero) /\
  munge_columns float_of_digits cli0 header_beta_twice = Bad (FoundColumnsNamed 2 "BETA").
Proof. cbv zeta. repeat split; vm_compute; reflexivity. Qed.

(** * The rescaled sample size, row by row *)








